(** * Batch jobs and collections of the backend

    A shallow embedding of [backend/routes/batch_operations.py]: the request
    handlers [create_batch_add_job], [create_batch_delete_job],
    [get_batch_job_status], [cancel_batch_job] and the background task
    [process_batch_job]; and of [backend/routes/collections.py]: the
    handlers [create_collection], [delete_collection],
    [get_all_company_ids_in_collection] and
    [get_collection_companies_cursor].  Both are modelled over the relational
    store (tables [batch_jobs], [company_collection_associations],
    [company_collections]); the task also over its SQLAlchemy session. *)

From Stdlib Require Import DecimalString.
From stdpp Require Import gmap strings list sorting.

Open Scope Z_scope.

(* ===================================================================== *)
(** * 1. Data model *)
(* ===================================================================== *)

(** [uuid.UUID] values are opaque keys. *)
Abbreviation uuid := N.

Inductive BatchJobStatus : Set :=
  | PENDING | IN_PROGRESS | COMPLETED | FAILED | CANCELLED.

Inductive BatchJobType : Set := ADD | DELETE.

#[global] Instance BatchJobStatus_eq_dec : EqDecision BatchJobStatus.
Proof. solve_decision. Defined.

#[global] Instance BatchJobType_eq_dec : EqDecision BatchJobType.
Proof. solve_decision. Defined.

(** A row of table [batch_jobs]; the primary key [id] is the key of the
    table map below.  Column [company_ids_json] holds [json.dumps] of a list
    of integers and is only ever read back through [json.loads]; the column
    is modelled as the list it encodes.  The timestamp columns are
    maintained by column defaults of the database layer and are not part of
    this model. *)
Record BatchJob : Set := mkBatchJob {
  job_type : BatchJobType;
  source_collection_id : uuid;
  target_collection_id : option uuid;
  total_count : Z;
  processed_count : Z;
  status : BatchJobStatus;
  company_ids_json : list Z;
  error_message : option string
}.

(** A row of the association table. *)
Record CompanyCollectionAssociation : Set := mkAssociation {
  company_id : Z;
  collection_id : option uuid
}.

#[global] Instance CompanyCollectionAssociation_eq_dec :
  EqDecision CompanyCollectionAssociation.
Proof. solve_decision. Defined.

(** The committed database: the three tables the handlers touch. *)
Record Store : Type := mkStore {
  batch_jobs : gmap N BatchJob;
  associations : list CompanyCollectionAssociation;
  company_collections : gmap N string
}.

Definition with_batch_jobs (jobs : gmap N BatchJob) (st : Store) : Store :=
  {| batch_jobs := jobs;
     associations := associations st;
     company_collections := company_collections st |}.

Definition set_status (s : BatchJobStatus) (j : BatchJob) : BatchJob :=
  {| job_type := job_type j;
     source_collection_id := source_collection_id j;
     target_collection_id := target_collection_id j;
     total_count := total_count j;
     processed_count := processed_count j;
     status := s;
     company_ids_json := company_ids_json j;
     error_message := error_message j |}.

(* ===================================================================== *)
(** * 2. Request handlers *)
(* ===================================================================== *)

Record BatchAddRequest : Set := mkBatchAddRequest {
  add_source_collection_id : uuid;
  add_target_collection_id : uuid;
  add_company_ids : list Z
}.

Record BatchDeleteRequest : Set := mkBatchDeleteRequest {
  del_collection_id : uuid;
  del_company_ids : list Z
}.

Record BatchJobResponse : Set := mkBatchJobResponse {
  resp_job_id : uuid;
  resp_status : BatchJobStatus;
  resp_job_type : BatchJobType;
  resp_total_count : Z;
  resp_processed_count : Z;
  resp_error_message : option string
}.

(** What a handler hands back to the framework: a value, an [HTTPException]
    it raised, or an exception it did not handle. *)
Inductive Reply (A : Type) : Type :=
  | Ok (a : A)
  | HTTPException (status_code : Z) (detail : string)
  | Unhandled (what : string).
Arguments Ok {A} a.
Arguments HTTPException {A} status_code detail.
Arguments Unhandled {A} what.

Definition response_of (job_id : uuid) (job : BatchJob) : BatchJobResponse :=
  {| resp_job_id := job_id;
     resp_status := status job;
     resp_job_type := job_type job;
     resp_total_count := total_count job;
     resp_processed_count := processed_count job;
     resp_error_message := error_message job |}.

(** Modelled from the spec: the column defaults of [database.BatchJob]
    (module [backend.db.database] is not among the sources).  A new row
    starts with status PENDING, [processed_count = 0] and no error
    message. *)
Definition new_BatchJob (ty : BatchJobType) (source : uuid)
    (target : option uuid) (total : Z) (ids : list Z) : BatchJob :=
  {| job_type := ty;
     source_collection_id := source;
     target_collection_id := target;
     total_count := total;
     processed_count := 0;
     status := PENDING;
     company_ids_json := ids;
     error_message := None |}.

(** [db.add(job); db.commit(); db.refresh(job)].  [new_id] is the primary
    key drawn for the row; inserting under a key already present violates
    the primary key and the commit raises. *)
Definition add_job (new_id : uuid) (job : BatchJob) (st : Store)
    : Reply (uuid * BatchJob) * Store :=
  match batch_jobs st !! new_id with
  | Some _ => (Unhandled "IntegrityError", st)
  | None => (Ok (new_id, job), with_batch_jobs (<[new_id := job]> (batch_jobs st)) st)
  end.

(** [create_batch_add_job]: on success the reply carries the response and
    the job id handed to [background_tasks.add_task]. *)
Definition create_batch_add_job (new_id : uuid) (request : BatchAddRequest)
    (st : Store) : Reply (BatchJobResponse * uuid) * Store :=
  let source_collection :=
    company_collections st !! add_source_collection_id request in
  let target_collection :=
    company_collections st !! add_target_collection_id request in
  if bool_decide (source_collection = None ∨ target_collection = None)
  then (HTTPException 404 "Collection not found", st)
  else
    let job :=
      new_BatchJob ADD
        (add_source_collection_id request)
        (Some (add_target_collection_id request))
        (Z.of_nat (length (add_company_ids request)))
        (add_company_ids request) in
    match add_job new_id job st with
    | (Ok (job_id, job), st') => (Ok (response_of job_id job, job_id), st')
    | (HTTPException c d, st') => (HTTPException c d, st')
    | (Unhandled e, st') => (Unhandled e, st')
    end.

Definition create_batch_delete_job (new_id : uuid)
    (request : BatchDeleteRequest) (st : Store)
    : Reply (BatchJobResponse * uuid) * Store :=
  let collection := company_collections st !! del_collection_id request in
  if bool_decide (collection = None)
  then (HTTPException 404 "Collection not found", st)
  else
    let job :=
      new_BatchJob DELETE
        (del_collection_id request)
        None
        (Z.of_nat (length (del_company_ids request)))
        (del_company_ids request) in
    match add_job new_id job st with
    | (Ok (job_id, job), st') => (Ok (response_of job_id job, job_id), st')
    | (HTTPException c d, st') => (HTTPException c d, st')
    | (Unhandled e, st') => (Unhandled e, st')
    end.

Definition get_batch_job_status (job_id : uuid) (st : Store)
    : Reply BatchJobResponse :=
  match batch_jobs st !! job_id with
  | None => HTTPException 404 "Job not found"
  | Some job => Ok (response_of job_id job)
  end.

Definition cancel_batch_job (job_id : uuid) (st : Store)
    : Reply string * Store :=
  match batch_jobs st !! job_id with
  | None => (HTTPException 404 "Job not found", st)
  | Some job =>
      if bool_decide (status job ∈ [COMPLETED; FAILED; CANCELLED])
      then (HTTPException 400 "Job cannot be cancelled in current status", st)
      else
        (Ok "Job cancelled successfully",
         with_batch_jobs
           (<[job_id := set_status CANCELLED job]> (batch_jobs st)) st)
  end.

(* ===================================================================== *)
(** * 3. The background task [process_batch_job] *)
(* ===================================================================== *)

(** ** 3.1 Chunking: [range(0, n, step)] and list slices *)

Fixpoint range_from (fuel i stop step : nat) : list nat :=
  match fuel with
  | O => []
  | S fuel' =>
      if decide (i < stop)%nat
      then i :: range_from fuel' (i + step) stop step
      else []
  end.

(** [range(0, stop, step)] for [step > 0]. *)
Definition py_range (stop step : nat) : list nat :=
  range_from stop 0 stop step.

(** [l[i:j]] for [0 <= i <= j]. *)
Definition slice {A : Type} (l : list A) (i j : nat) : list A :=
  take (j - i) (drop i l).

Definition batch_size_for (total_items : nat) : nat :=
  if decide (total_items ≤ 100)%nat then 1%nat else 5%nat.

(** ** 3.2 The executor's session and its environment *)

(** Program points of [process_batch_job] that talk to the database. *)
Inductive Site : Set :=
  | AtQueryJob            (* line 51: db.query(BatchJob)...first() *)
  | AtCommitStart         (* line 62: commit of status IN_PROGRESS *)
  | AtRefresh             (* line 82: db.refresh(job) *)
  | AtQueryAssociation    (* lines 94-99: existence query *)
  | AtBulkSave            (* line 111: db.bulk_save_objects *)
  | AtCommitAdd           (* line 112 *)
  | AtDelete              (* lines 117-122: filtered delete *)
  | AtCommitDelete        (* line 123 *)
  | AtCommitProgress      (* line 128 *)
  | AtCommitFinalProgress (* line 132 *)
  | AtCommitCompleted     (* line 136 *)
  | AtCommitFailed        (* line 142: commit of the except branch *)
  | AtHandler.            (* lines 140-141: attribute access on [job] *)

#[global] Instance Site_eq_dec : EqDecision Site.
Proof. solve_decision. Defined.

(** A raised exception: where it was raised and [str(e)]. *)
Record Exn : Set := mkExn { raised_at : Site; description : string }.

(** The lines the task prints. *)
Inductive Printed : Set :=
  | CancelledBeforeStart (job_id : uuid)  (* line 57 *)
  | CancelledByUser (job_id : uuid).      (* line 84 *)

(** Attributes assigned on the [job] object and not flushed yet. *)
Record Dirty : Set := mkDirty {
  d_status : option BatchJobStatus;
  d_processed_count : option Z;
  d_error_message : option string
}.

Definition clean : Dirty :=
  {| d_status := None; d_processed_count := None; d_error_message := None |}.

(** The UPDATE a flush emits for the job row: every attribute assigned since
    the last flush is written.  An assignment of the value the attribute had
    when it was loaded is a write here as well, where SQLAlchemy leaves the
    column out of the UPDATE; the two differ only for a job that is picked up
    in status IN_PROGRESS and cancelled between lines 51 and 62, and the
    submission handlers create every job in status PENDING. *)
Definition flush_job (d : Dirty) (j : BatchJob) : BatchJob :=
  {| job_type := job_type j;
     source_collection_id := source_collection_id j;
     target_collection_id := target_collection_id j;
     total_count := total_count j;
     processed_count := default (processed_count j) (d_processed_count d);
     status := default (status j) (d_status d);
     company_ids_json := company_ids_json j;
     error_message :=
       match d_error_message d with
       | Some m => Some m
       | None => error_message j
       end |}.

(** Statements executed on the association table inside the open
    transaction. *)
Inductive AssocWrite : Set :=
  | Insert (row : CompanyCollectionAssociation)
  | DeleteWhere (company : Z) (collection : option uuid).

Definition matches (company : Z) (collection : option uuid)
    (row : CompanyCollectionAssociation) : bool :=
  bool_decide (company_id row = company ∧ collection_id row = collection).

Definition apply_write (rows : list CompanyCollectionAssociation)
    (wr : AssocWrite) : list CompanyCollectionAssociation :=
  match wr with
  | Insert row => rows ++ [row]
  | DeleteWhere company collection =>
      filter (λ row, matches company collection row = false) rows
  end.

Definition apply_writes (wrs : list AssocWrite)
    (rows : list CompanyCollectionAssociation)
    : list CompanyCollectionAssociation :=
  foldl apply_write rows wrs.

(** State of one run of the task: the committed database [db], shared with
    the request handlers, and what is private to the run. *)
Record World : Type := mkWorld {
  clock : nat;                   (* database operations issued so far *)
  db : Store;
  job_var : option (uuid * BatchJob);  (* local [job]: key and loaded row *)
  dirty : Dirty;
  pending : list AssocWrite;
  commits : list (Site * Store); (* states committed by this run, in order *)
  stdout : list Printed
}.

(** The environment of a run.  [interference t] lists the job ids of the
    cancel requests that other request handlers serve just before the run's
    [t]-th database operation; [fault t] is the message of the exception that
    operation raises, if it raises. *)
Record Env : Type := mkEnv {
  interference : nat → list uuid;
  fault : nat → option string
}.

Definition serve_cancels (requests : list uuid) (st : Store) : Store :=
  foldl (λ st job_id, (cancel_batch_job job_id st).2) st requests.

(** Outcome of a block of the task: it falls through with a value, leaves
    the function through [return], or raises. *)
Inductive Exit : Set :=
  | Returned
  | Raised (e : Exn).

Inductive Ctl (A : Type) : Type :=
  | Normal (a : A)
  | Abort (x : Exit).
Arguments Normal {A} a.
Arguments Abort {A} x.

Definition Exec (A : Type) : Type := World → Ctl A * World.

Definition exec_ret {A : Type} (a : A) : Exec A := λ w, (Normal a, w).

Definition exec_bind {A B : Type} (m : Exec A) (k : A → Exec B) : Exec B :=
  λ w, match m w with
       | (Normal a, w') => k a w'
       | (Abort x, w') => (Abort x, w')
       end.

Declare Scope exec_scope.
Delimit Scope exec_scope with exec.
Notation "x <~ m ;; k" := (exec_bind m (λ x, k))
  (at level 100, m at next level, right associativity) : exec_scope.
Notation "m ;;; k" := (exec_bind m (λ _, k))
  (at level 100, right associativity) : exec_scope.
Open Scope exec_scope.

Definition return_ {A : Type} : Exec A := λ w, (Abort Returned, w).

Definition print (line : Printed) : Exec unit := λ w,
  (Normal tt,
   {| clock := clock w; db := db w; job_var := job_var w; dirty := dirty w;
      pending := pending w; commits := commits w;
      stdout := stdout w ++ [line] |}).

Definition set_job_var (job : option (uuid * BatchJob)) (w : World) : World :=
  {| clock := clock w; db := db w; job_var := job; dirty := dirty w;
     pending := pending w; commits := commits w; stdout := stdout w |}.

Definition set_dirty (d : Dirty) (w : World) : World :=
  {| clock := clock w; db := db w; job_var := job_var w; dirty := d;
     pending := pending w; commits := commits w; stdout := stdout w |}.

Definition set_pending (wrs : list AssocWrite) (w : World) : World :=
  {| clock := clock w; db := db w; job_var := job_var w; dirty := dirty w;
     pending := wrs; commits := commits w; stdout := stdout w |}.

(** The rows of the association table as the open transaction sees them. *)
Definition view (w : World) : list CompanyCollectionAssociation :=
  apply_writes (pending w) (associations (db w)).

(** What a commit writes: the dirty attributes of [job] go to its row, the
    statements of the transaction become visible. *)
Definition flushed (w : World) : Store :=
  {| batch_jobs :=
       match job_var w with
       | Some (job_id, _) => alter (flush_job (dirty w)) job_id (batch_jobs (db w))
       | None => batch_jobs (db w)
       end;
     associations := view w;
     company_collections := company_collections (db w) |}.

Definition committed (site : Site) (w : World) : World :=
  {| clock := clock w; db := flushed w; job_var := job_var w; dirty := clean;
     pending := []; commits := commits w ++ [(site, flushed w)];
     stdout := stdout w |}.

(** [db.close()]: what was not committed is dropped. *)
Definition close (w : World) : World :=
  {| clock := clock w; db := db w; job_var := job_var w; dirty := clean;
     pending := []; commits := commits w; stdout := stdout w |}.

Definition new_session (st : Store) : World :=
  {| clock := 0; db := st; job_var := None; dirty := clean; pending := [];
     commits := []; stdout := [] |}.

(** How a run of the task ends. *)
Inductive Outcome : Set :=
  | Completed                 (* fell off the end of the [try] block *)
  | EarlyReturn               (* one of the [return] statements *)
  | Handled (e : Exn)         (* [e] was caught, the except branch ran *)
  | Uncaught (e : Exn).       (* the except branch itself raised [e] *)

Section Executor.

Variable E : Env.

(** The other handlers run first, then the operation is issued. *)
Definition arrive (w : World) : World :=
  {| clock := S (clock w);
     db := serve_cancels (interference E (clock w)) (db w);
     job_var := job_var w; dirty := dirty w; pending := pending w;
     commits := commits w; stdout := stdout w |}.

Definition db_op {A : Type} (site : Site) (f : Exec A) : Exec A := λ w,
  match fault E (clock w) with
  | Some msg => (Abort (Raised {| raised_at := site; description := msg |}), arrive w)
  | None => f (arrive w)
  end.

(** [job = db.query(BatchJob).filter(BatchJob.id == job_id).first()] *)
Definition query_job (job_id : uuid) : Exec (option (uuid * BatchJob)) :=
  db_op AtQueryJob (λ w,
    let job := (λ row, (job_id, row)) <$> batch_jobs (db w) !! job_id in
    (Normal job, set_job_var job w)).

(** [db.refresh(job)]: every attribute is loaded again from the row. *)
Definition refresh (job_id : uuid) : Exec (uuid * BatchJob) :=
  db_op AtRefresh (λ w,
    match batch_jobs (db w) !! job_id with
    | None =>
        (Abort (Raised {| raised_at := AtRefresh;
                          description := "InvalidRequestError" |}), w)
    | Some row =>
        (Normal (job_id, row),
         set_dirty clean (set_job_var (Some (job_id, row)) w))
    end).

(** [job.<attribute> = value]; the name [job] must be bound. *)
Definition assign (f : Dirty → Dirty) : Exec unit := λ w,
  match job_var w with
  | None =>
      (Abort (Raised {| raised_at := AtHandler;
                        description := "UnboundLocalError" |}), w)
  | Some _ => (Normal tt, set_dirty (f (dirty w)) w)
  end.

Definition assign_status (s : BatchJobStatus) : Exec unit :=
  assign (λ d, {| d_status := Some s;
                  d_processed_count := d_processed_count d;
                  d_error_message := d_error_message d |}).

Definition assign_processed_count (p : Z) : Exec unit :=
  assign (λ d, {| d_status := d_status d;
                  d_processed_count := Some p;
                  d_error_message := d_error_message d |}).

Definition assign_error_message (m : string) : Exec unit :=
  assign (λ d, {| d_status := d_status d;
                  d_processed_count := d_processed_count d;
                  d_error_message := Some m |}).

(** [db.commit()] *)
Definition commit (site : Site) : Exec unit :=
  db_op site (λ w, (Normal tt, committed site w)).

(** [db.query(CompanyCollectionAssociation).filter(and_(...)).first()],
    tested for truth. *)
Definition query_association (company : Z) (collection : option uuid)
    : Exec bool :=
  db_op AtQueryAssociation (λ w,
    (Normal (existsb (matches company collection) (view w)), w)).

(** [db.bulk_save_objects(associations_to_add)] *)
Definition bulk_save_objects (rows : list CompanyCollectionAssociation)
    : Exec unit :=
  db_op AtBulkSave (λ w,
    (Normal tt, set_pending (pending w ++ (Insert <$> rows)) w)).

(** [db.query(CompanyCollectionAssociation).filter(and_(...)).delete()] *)
Definition delete_where (company : Z) (collection : option uuid) : Exec unit :=
  db_op AtDelete (λ w,
    (Normal tt, set_pending (pending w ++ [DeleteWhere company collection]) w)).

(** Lines 91-107: the inner loop of the ADD branch. *)
Fixpoint stage_additions (target : option uuid) (batch_ids : list Z)
    (associations_to_add : list CompanyCollectionAssociation)
    : Exec (list CompanyCollectionAssociation) :=
  match batch_ids with
  | [] => exec_ret associations_to_add
  | company_id :: rest =>
      existing <~ query_association company_id target ;;
      stage_additions target rest
        (if existing then associations_to_add
         else associations_to_add
                ++ [{| company_id := company_id; collection_id := target |}])
  end.

(** Lines 116-122: the inner loop of the DELETE branch. *)
Fixpoint delete_each (source : option uuid) (batch_ids : list Z) : Exec unit :=
  match batch_ids with
  | [] => exec_ret tt
  | company_id :: rest =>
      delete_where company_id source ;;;
      delete_each source rest
  end.

(** Lines 89-123: one chunk handed to the association table. *)
Definition process_batch (job : BatchJob) (batch_ids : list Z) : Exec unit :=
  match job_type job with
  | ADD =>
      associations_to_add <~
        stage_additions (target_collection_id job) batch_ids [] ;;
      match associations_to_add with
      | [] => exec_ret tt
      | _ :: _ =>
          bulk_save_objects associations_to_add ;;;
          commit AtCommitAdd
      end
  | DELETE =>
      delete_each (Some (source_collection_id job)) batch_ids ;;;
      commit AtCommitDelete
  end.

(** Lines 80-128: the loop over [range(0, len(company_ids), batch_size)],
    threading the local [processed]. *)
Fixpoint process_batches (job_id : uuid) (company_ids : list Z)
    (batch_size : nat) (starts : list nat) (processed : Z) : Exec Z :=
  match starts with
  | [] => exec_ret processed
  | i :: rest =>
      job <~ refresh job_id ;;
      if decide (status job.2 = CANCELLED)
      then print (CancelledByUser job_id) ;;; return_
      else
        let batch_ids := slice company_ids i (i + batch_size) in
        process_batch job.2 batch_ids ;;;
        let processed := processed + Z.of_nat (length batch_ids) in
        assign_processed_count processed ;;;
        commit AtCommitProgress ;;;
        process_batches job_id company_ids batch_size rest processed
  end.

(** Lines 50-136: the [try] block. *)
Definition try_block (job_id : uuid) : Exec unit :=
  job <~ query_job job_id ;;
  match job with
  | None => return_
  | Some (_, row) =>
      if decide (status row = CANCELLED)
      then print (CancelledBeforeStart job_id) ;;; return_
      else
        assign_status IN_PROGRESS ;;;
        commit AtCommitStart ;;;
        let company_ids := company_ids_json row in
        let total_items := length company_ids in
        let batch_size := batch_size_for total_items in
        processed <~
          process_batches job_id company_ids batch_size
            (py_range (length company_ids) batch_size) 0 ;;
        assign_processed_count processed ;;;
        commit AtCommitFinalProgress ;;;
        assign_status COMPLETED ;;;
        commit AtCommitCompleted
  end.

(** Lines 138-142: the [except Exception as e] branch. *)
Definition except_block (e : Exn) : Exec unit :=
  assign_status FAILED ;;;
  assign_error_message (description e) ;;;
  commit AtCommitFailed.

(** [process_batch_job(job_id, db_url)] on the database [st]. *)
Definition process_batch_job (job_id : uuid) (st : Store) : Outcome * World :=
  match try_block job_id (new_session st) with
  | (Normal _, w) => (Completed, close w)
  | (Abort Returned, w) => (EarlyReturn, close w)
  | (Abort (Raised e), w) =>
      match except_block e w with
      | (Abort (Raised e'), w') => (Uncaught e', close w')
      | (_, w') => (Handled e, close w')
      end
  end.

End Executor.

(** ** 3.3 What a run leaves behind *)

(** The job rows of the states a run committed, oldest first. *)
Definition committed_rows (job_id : uuid) (w : World) : list BatchJob :=
  omap (λ c : Site * Store, batch_jobs c.2 !! job_id) (commits w).

(** The values of [processed_count] written by the per-chunk progress
    commits of line 128. *)
Definition progress_sequence (job_id : uuid) (w : World) : list Z :=
  processed_count <$>
    omap (λ c : Site * Store,
            if decide (c.1 = AtCommitProgress) then batch_jobs c.2 !! job_id
            else None)
         (commits w).

Definition nondecreasing (l : list Z) : Prop :=
  ∀ (i j : nat) (x y : Z), (i ≤ j)%nat → l !! i = Some x → l !! j = Some y → x ≤ y.


(** The environment in which nothing interferes and nothing fails. *)
Definition quiet : Env := {| interference := λ _, []; fault := λ _, None |}.

(** ** 3.4 Predicates of the statements *)

(** Rows created by the two submission handlers start at
    [processed_count = 0] with [total_count] the number of ids. *)
Definition fresh_row (row : BatchJob) : Prop :=
  processed_count row = 0
  ∧ total_count row = Z.of_nat (length (company_ids_json row)).

(** Cancel requests only ever move the status of a row, and never away
    from CANCELLED. *)
Definition row_drift (o o' : option BatchJob) : Prop :=
  match o with
  | None => o' = None
  | Some r => ∃ s, o' = Some (set_status s r) ∧ (status r = CANCELLED → s = CANCELLED)
  end.

Definition store_drift (st st' : Store) : Prop :=
  associations st' = associations st
  ∧ company_collections st' = company_collections st
  ∧ ∀ k, row_drift (batch_jobs st !! k) (batch_jobs st' !! k).

Definition is_chunk_site (site : Site) : bool :=
  match site with
  | AtQueryAssociation | AtBulkSave | AtCommitAdd | AtDelete | AtCommitDelete => true
  | _ => false
  end.

(** [undisturbed E w w1]: between [w] and [w1] the run issued only reads and
    uncommitted association statements; the database moved by cancel
    requests only, and the rows of jobs nobody cancels did not move. *)
Definition undisturbed (E : Env) (w w1 : World) : Prop :=
  job_var w1 = job_var w ∧ dirty w1 = dirty w ∧ commits w1 = commits w
  ∧ stdout w1 = stdout w ∧ store_drift (db w) (db w1)
  ∧ ∀ k, (∀ t, k ∉ interference E t) →
         batch_jobs (db w1) !! k = batch_jobs (db w) !! k.

(** What is known of an exception raised by a faulting operation. *)
Definition raised_by_fault (E : Env) (site : Site) (e : Exn) : Prop :=
  raised_at e = site ∧ ∃ t, fault E t = Some (description e).

(** [same_but_progress row0 r]: [r] is [row0] up to status and
    processed_count. *)
Definition same_but_progress (row0 r : BatchJob) : Prop :=
  job_type r = job_type row0
  ∧ source_collection_id r = source_collection_id row0
  ∧ target_collection_id r = target_collection_id row0
  ∧ total_count r = total_count row0
  ∧ company_ids_json r = company_ids_json row0
  ∧ error_message r = error_message row0.

(** The run holds [job], and the row of the job carries no error yet. *)
Definition tracked (job_id : uuid) (row0 : BatchJob) (w : World) : Prop :=
  (∃ loaded, job_var w = Some (job_id, loaded))
  ∧ ∃ r, batch_jobs (db w) !! job_id = Some r ∧ same_but_progress row0 r.

(** Nothing is waiting to be flushed, and the database differs from the
    state of the run's last commit by the status of job rows only. *)
Definition in_sync (job_id : uuid) (row0 : BatchJob) (w : World) : Prop :=
  (∃ loaded, job_var w = Some (job_id, loaded))
  ∧ dirty w = clean
  ∧ ∃ site s r st,
      last (commits w) = Some (site, s)
      ∧ batch_jobs s !! job_id = Some r
      ∧ same_but_progress row0 r
      ∧ associations (db w) = associations s
      ∧ batch_jobs (db w) !! job_id = Some (set_status st r).

(** The number of ids the chunks starting at [starts] hold. *)
Definition attempted (company_ids : list Z) (batch_size : nat)
    (starts : list nat) : Z :=
  foldr (λ i acc, Z.of_nat (length (slice company_ids i (i + batch_size))) + acc)
        0 starts.

(** The committed rows so far: each has [total_count = n] and a
    processed_count between 0 and [top], the values do not decrease, and
    the first one is 0. *)
Definition log_ok (n top : Z) (rows : list BatchJob) : Prop :=
  Forall (λ r, total_count r = n ∧ 0 ≤ processed_count r ≤ top) rows
  ∧ nondecreasing (processed_count <$> rows)
  ∧ ∀ x, head (processed_count <$> rows) = Some x → x = 0.

Definition bounded (job_id : uuid) (n : Z) (w : World) : Prop :=
  ∃ loaded r,
    job_var w = Some (job_id, loaded)
    ∧ batch_jobs (db w) !! job_id = Some r
    ∧ total_count r = n
    ∧ 0 ≤ processed_count r ≤ n
    ∧ (∀ v, d_processed_count (dirty w) = Some v → processed_count r ≤ v ≤ n)
    ∧ log_ok n (processed_count r) (committed_rows job_id w)
    ∧ length (committed_rows job_id w) = length (commits w)
    ∧ (commits w = [] →
       processed_count r = 0 ∧ d_processed_count (dirty w) = None).

(** The row of the job has processed_count at most [p]. *)
Definition pc_le (job_id : uuid) (p : Z) (w : World) : Prop :=
  ∀ r, batch_jobs (db w) !! job_id = Some r → processed_count r ≤ p.

(** processed_count after each chunk of [starts], from [processed] on. *)
Fixpoint running_totals (company_ids : list Z) (batch_size : nat)
    (processed : Z) (starts : list nat) : list Z :=
  match starts with
  | [] => []
  | i :: rest =>
      let processed' :=
        processed + Z.of_nat (length (slice company_ids i (i + batch_size))) in
      processed' :: running_totals company_ids batch_size processed' rest
  end.

(** The run holds [job], nothing waits to be flushed, and the row of the
    job is not CANCELLED. *)
Definition live (job_id : uuid) (w : World) : Prop :=
  (∃ loaded, job_var w = Some (job_id, loaded))
  ∧ dirty w = clean
  ∧ ∃ r, batch_jobs (db w) !! job_id = Some r ∧ status r ≠ CANCELLED.

(** No statement is open and the association table is [A0]. *)
Definition untouched (A0 : list CompanyCollectionAssociation) (w : World) : Prop :=
  pending w = [] ∧ associations (db w) = A0.

(** ** 3.5 Stores and environments of the examples *)

(** A store used in the examples: collections 1 and 2, company 11 already
    in collection 2, no job. *)
Definition example_store : Store :=
  {| batch_jobs := ∅;
     associations := [ {| company_id := 11; collection_id := Some 2%N |} ];
     company_collections := {[ 1%N := "source"%string; 2%N := "target"%string ]} |}.

Definition finished_store : Store :=
  {| batch_jobs :=
       {[ 7%N := set_status COMPLETED (new_BatchJob ADD 1%N (Some 2%N) 1 [10]) ]};
     associations := [];
     company_collections := ∅ |}.

Definition pending_store : Store :=
  {| batch_jobs := {[ 7%N := new_BatchJob ADD 1%N (Some 2%N) 3 [10; 11; 12] ]};
     associations := [ {| company_id := 11; collection_id := Some 2%N |} ];
     company_collections := {[ 1%N := "source"%string; 2%N := "target"%string ]} |}.

(** A job cancelled right after submission, for the examples. *)
Definition cancelled_store : Store :=
  (cancel_batch_job 7%N pending_store).2.


(** Database operation number 8 of the task (counted from 0), the existence
    query of the second chunk, raises. *)
Definition fail_at_second_chunk : Env :=
  {| interference := λ _, [];
     fault := λ t, if decide (t = 8)%nat then Some "connection lost"%string else None |}.

(** An ADD job over the ids 1..50, none of them in the target collection. *)
Definition fifty_store : Store :=
  {| batch_jobs :=
       {[ 9%N := new_BatchJob ADD 1%N (Some 2%N) 50 (Z.of_nat <$> seq 1 50) ]};
     associations := [];
     company_collections := {[ 1%N := "source"%string; 2%N := "target"%string ]} |}.

(** An ADD job over ids that are all in target collection 2 already. *)
Definition present_store : Store :=
  {| batch_jobs := {[ 7%N := new_BatchJob ADD 1%N (Some 2%N) 3 [10; 11; 12] ]};
     associations := [ {| company_id := 11; collection_id := Some 2%N |};
                       {| company_id := 10; collection_id := Some 2%N |};
                       {| company_id := 12; collection_id := Some 2%N |};
                       {| company_id := 10; collection_id := Some 1%N |} ];
     company_collections := {[ 1%N := "source"%string; 2%N := "target"%string ]} |}.

(** Job 7 over the ids 10, 10, 11: id 10 is listed twice. *)
Definition repeated_store : Store :=
  {| batch_jobs := {[ 7%N := new_BatchJob ADD 1%N (Some 2%N) 3 [10; 10; 11] ]};
     associations := [ {| company_id := 11; collection_id := Some 2%N |} ];
     company_collections := {[ 1%N := "source"%string; 2%N := "target"%string ]} |}.

(** DELETE job 8 from collection 2 over the ids 11 and 12; id 12 is not in
    the collection, id 11 is also in collection 1. *)
Definition removal_store : Store :=
  {| batch_jobs := {[ 8%N := new_BatchJob DELETE 2%N None 2 [11; 12] ]};
     associations := [ {| company_id := 11; collection_id := Some 2%N |};
                       {| company_id := 10; collection_id := Some 2%N |};
                       {| company_id := 11; collection_id := Some 1%N |} ];
     company_collections := {[ 1%N := "source"%string; 2%N := "target"%string ]} |}.

(** The store after job 7 of [pending_store] ran undisturbed, with the same
    ADD request submitted again as job 9. *)
Definition resubmitted_add_store : Store :=
  (create_batch_add_job 9%N
     {| add_source_collection_id := 1%N; add_target_collection_id := 2%N;
        add_company_ids := [10; 11; 12] |}
     (db (process_batch_job quiet 7%N pending_store).2)).2.

(** The store after job 8 of [removal_store] ran undisturbed, with the same
    DELETE request submitted again as job 9. *)
Definition resubmitted_delete_store : Store :=
  (create_batch_delete_job 9%N
     {| del_collection_id := 2%N; del_company_ids := [11; 12] |}
     (db (process_batch_job quiet 8%N removal_store).2)).2.

(** DELETE job 5 over no ids at all. *)
Definition empty_store : Store :=
  {| batch_jobs := {[ 5%N := new_BatchJob DELETE 2%N None 0 [] ]};
     associations := [ {| company_id := 11; collection_id := Some 2%N |} ];
     company_collections := {[ 2%N := "target"%string ]} |}.

(** The database is unreachable when the task starts. *)
Definition fail_at_pickup : Env :=
  {| interference := λ _, [];
     fault := λ t, if decide (t = 0)%nat then Some "connection refused"%string else None |}.

(** Cancel requests for job 5 are served before every database operation of
    the task but the first. *)
Definition cancel_while_running : Env :=
  {| interference := λ t, if decide (t = 0)%nat then [] else [5%N];
     fault := λ _, None |}.

(** ** 3.6 What a job does to the association table *)

(** [row] is a row an ADD job over [company_ids] may insert for [target]:
    it links one of the ids to the target, and the table [A0] the job
    started from had no such link. *)
Definition addition_of (target : option uuid) (company_ids : list Z)
    (A0 : list CompanyCollectionAssociation)
    (row : CompanyCollectionAssociation) : Prop :=
  collection_id row = target
  ∧ company_id row ∈ company_ids
  ∧ existsb (matches (company_id row) target) A0 = false.

(** The committed table is [A0] followed by insertions of the job, and the
    open transaction holds only further insertions of the job. *)
Definition grown (target : option uuid) (company_ids : list Z)
    (A0 : list CompanyCollectionAssociation) (w : World) : Prop :=
  ∃ added staged,
    associations (db w) = A0 ++ added
    ∧ pending w = Insert <$> staged
    ∧ Forall (addition_of target company_ids A0) (added ++ staged).

(** [grown], and no row was inserted twice. *)
Definition grown_once (target : option uuid) (company_ids : list Z)
    (A0 : list CompanyCollectionAssociation) (w : World) : Prop :=
  ∃ added staged,
    associations (db w) = A0 ++ added
    ∧ pending w = Insert <$> staged
    ∧ Forall (addition_of target company_ids A0) (added ++ staged)
    ∧ NoDup (added ++ staged).

(** At a chunk boundary: every id of [done] has a row for [target]. *)
Definition covered (target : option uuid) (done : list Z) (w : World) : Prop :=
  pending w = []
  ∧ ∀ id, id ∈ done → existsb (matches id target) (associations (db w)) = true.

(** [rows] without the links of the ids [done] to [source]. *)
Definition without (source : option uuid) (done : list Z)
    (rows : list CompanyCollectionAssociation)
    : list CompanyCollectionAssociation :=
  filter (λ row, ¬ (company_id row ∈ done ∧ collection_id row = source)) rows.

(** At a chunk boundary of a DELETE job: exactly the links of [done] to
    [source] are gone from [A0]. *)
Definition deleted (source : option uuid)
    (A0 : list CompanyCollectionAssociation) (done : list Z) (w : World) : Prop :=
  pending w = [] ∧ associations (db w) = without source done A0.

(** The committed table is [A0] without the links of some ids of the job,
    and the open transaction holds only further deletions of the job. *)
Definition shrunk (source : option uuid) (company_ids : list Z)
    (A0 : list CompanyCollectionAssociation) (w : World) : Prop :=
  ∃ done staged,
    (∀ id, id ∈ done ++ staged → id ∈ company_ids)
    ∧ associations (db w) = without source done A0
    ∧ pending w = (λ id, DeleteWhere id source) <$> staged.

(** ** 3.7 The handlers of [backend/routes/collections.py] *)

Definition with_company_collections (collections : gmap N string) (st : Store)
    : Store :=
  {| batch_jobs := batch_jobs st;
     associations := associations st;
     company_collections := collections |}.

(** [CompanyCollectionAssociation.collection_id == collection_id] *)
Definition in_collection (collection : uuid)
    (row : CompanyCollectionAssociation) : Prop :=
  collection_id row = Some collection.

(** [or_(BatchJob.source_collection_id == collection_id,
        BatchJob.target_collection_id == collection_id)] *)
Definition refers_to (collection : uuid) (job : BatchJob) : Prop :=
  source_collection_id job = collection
  ∨ target_collection_id job = Some collection.

#[global] Instance in_collection_dec collection row
    : Decision (in_collection collection row).
Proof. unfold in_collection. apply _. Defined.

#[global] Instance refers_to_dec collection job
    : Decision (refers_to collection job).
Proof. unfold refers_to. apply _. Defined.

Record CreateCollectionResponse : Set := mkCreateCollectionResponse {
  created_id : uuid;
  created_collection_name : string;
  created_message : string
}.

(** [db.query(CompanyCollection).filter(collection_name == name).first()],
    tested for truth. *)
Definition name_exists (name : string) (st : Store) : bool :=
  existsb (λ entry : N * string, bool_decide (entry.2 = name))
          (map_to_list (company_collections st)).

(** [create_collection]; [new_id] is the primary key drawn for the row. *)
Definition create_collection (new_id : uuid) (collection_name : string)
    (st : Store) : Reply CreateCollectionResponse * Store :=
  if name_exists collection_name st
  then (HTTPException 400 "Collection name already exists", st)
  else
    match company_collections st !! new_id with
    | Some _ => (Unhandled "IntegrityError", st)
    | None =>
        (Ok {| created_id := new_id;
               created_collection_name := collection_name;
               created_message := "Collection created successfully" |},
         with_company_collections
           (<[new_id := collection_name]> (company_collections st)) st)
    end.

(** [delete_collection]: the jobs that refer to the collection, its
    associations and the collection itself go in one commit. *)
Definition delete_collection (collection_id : uuid) (st : Store)
    : Reply string * Store :=
  match company_collections st !! collection_id with
  | None => (HTTPException 404 "Collection not found", st)
  | Some collection_name =>
      if bool_decide (collection_name = "My List"%string)
      then (HTTPException 400 "Cannot delete the 'My List' collection", st)
      else
        (Ok ("Collection '" +:+ collection_name +:+ "' deleted successfully"),
         {| batch_jobs :=
              filter (λ entry : N * BatchJob, ¬ refers_to collection_id entry.2)
                     (batch_jobs st);
            associations :=
              filter (λ row, ¬ in_collection collection_id row) (associations st);
            company_collections := delete collection_id (company_collections st) |})
  end.

Record SelectAllCompaniesResponse : Set := mkSelectAllCompaniesResponse {
  all_company_ids : list Z;
  all_total_count : Z
}.

(** [get_all_company_ids_in_collection]: the company ids of the rows of the
    collection, ordered by company id. *)
Definition get_all_company_ids_in_collection (collection_id : uuid) (st : Store)
    : Reply SelectAllCompaniesResponse :=
  match company_collections st !! collection_id with
  | None => HTTPException 404 "Collection not found"
  | Some _ =>
      let company_ids :=
        merge_sort Z.le
          (company_id <$> filter (in_collection collection_id) (associations st)) in
      Ok {| all_company_ids := company_ids;
            all_total_count := Z.of_nat (length company_ids) |}
  end.

(** The company ids of the rows of the collection that join a row of table
    [companies] (given by its primary keys). *)
Definition joined_ids (companies : gset Z) (collection_id : uuid) (st : Store)
    : list Z :=
  filter (λ id, id ∈ companies)
         (company_id <$> filter (in_collection collection_id) (associations st)).

(** Lines 116-131: the joined rows, after the cursor when there is one,
    ordered by company id. *)
Definition cursor_query (companies : gset Z) (collection_id : uuid) (st : Store)
    (cursor_id : option Z) : list Z :=
  merge_sort Z.le
    (match cursor_id with
     | Some c => filter (λ id, c < id) (joined_ids companies collection_id st)
     | None => joined_ids companies collection_id st
     end).

(** The page of [get_collection_companies_cursor].  [page_company_ids] is the
    id list handed to [fetch_companies_with_liked], whose module is not among
    the sources. *)
Record CursorPaginatedResponse : Set := mkCursorPaginatedResponse {
  page_company_ids : list Z;
  next_cursor : option string;
  has_more : bool;
  page_total_count : Z
}.

Section Cursor.

(** Python's [int] on the cursor text ([None] for [ValueError]) and [str] on
    a company id. *)
Variable py_int : string → option Z.
Variable py_str : Z → string.

(** Lines 124-131: no cursor, or an empty one, filters nothing; otherwise
    the text must parse.  [None] is the [ValueError] branch. *)
Definition read_cursor (cursor : option string) : option (option Z) :=
  match cursor with
  | None => Some None
  | Some text =>
      if bool_decide (text = ""%string) then Some None
      else Some <$> py_int text
  end.

(** [get_collection_companies_cursor], for [limit >= 0]. *)
Definition get_collection_companies_cursor (companies : gset Z)
    (collection_id : uuid) (cursor : option string) (limit : nat) (st : Store)
    : Reply CursorPaginatedResponse :=
  match company_collections st !! collection_id with
  | None => HTTPException 404 "Collection not found"
  | Some _ =>
      match read_cursor cursor with
      | None => HTTPException 400 "Invalid cursor format"
      | Some cursor_id =>
          let query := cursor_query companies collection_id st cursor_id in
          let total_count :=
            Z.of_nat (length (filter (in_collection collection_id) (associations st))) in
          let results := take (limit + 1) query in
          let has_more := bool_decide (limit < length results)%nat in
          let results := if has_more then take limit results else results in
          let next_cursor := if has_more then py_str <$> last results else None in
          Ok {| page_company_ids := results;
                next_cursor := next_cursor;
                has_more := has_more;
                page_total_count := total_count |}
      end
  end.

End Cursor.

(** [Company.id > cursor_id], when there is a cursor. *)
Definition after_cursor (cursor_id : option Z) (id : Z) : Prop :=
  match cursor_id with
  | Some c => c < id
  | None => True
  end.

(** No two collections have the same name. *)
Definition names_unique (st : Store) : Prop :=
  ∀ i j name,
    company_collections st !! i = Some name →
    company_collections st !! j = Some name → i = j.

(** The decimal fragment of Python's [int] and [str], for the examples. *)
Definition decimal_int (text : string) : option Z :=
  Z.of_int <$> NilZero.int_of_string text.

Definition decimal_str (z : Z) : string :=
  NilZero.string_of_int (Z.to_int z).

(** A collection of five companies, linked in no particular order. *)
Definition catalogue_companies : gset Z := {[ 10; 20; 30; 40; 50; 60 ]}.

Definition catalogue_store : Store :=
  {| batch_jobs := ∅;
     associations :=
       [ {| company_id := 30; collection_id := Some 2%N |};
         {| company_id := 10; collection_id := Some 2%N |};
         {| company_id := 50; collection_id := Some 2%N |};
         {| company_id := 20; collection_id := Some 1%N |};
         {| company_id := 20; collection_id := Some 2%N |};
         {| company_id := 40; collection_id := Some 2%N |} ];
     company_collections :=
       {[ 1%N := "My List"%string; 2%N := "Liked"%string ]} |}.

(** A store with three collections; job 7 adds to collection 2, job 8
    deletes from collection 3. *)
Definition library_store : Store :=
  {| batch_jobs :=
       {[ 7%N := new_BatchJob ADD 1%N (Some 2%N) 2 [10; 11];
          8%N := new_BatchJob DELETE 3%N None 1 [12] ]};
     associations :=
       [ {| company_id := 12; collection_id := Some 3%N |};
         {| company_id := 11; collection_id := Some 2%N |};
         {| company_id := 10; collection_id := Some 2%N |};
         {| company_id := 10; collection_id := Some 1%N |} ];
     company_collections :=
       {[ 1%N := "My List"%string; 2%N := "Liked"%string;
          3%N := "Archive"%string ]} |}.

(* ===================================================================== *)
(** * 4. The request handlers: submission and cancellation *)
(* ===================================================================== *)

Lemma set_status_same (j : BatchJob) : set_status (status j) j = j.
Proof. by destruct j. Qed.

Lemma create_batch_add_job_fresh new_id request st resp job_id st' :
  create_batch_add_job new_id request st = (Ok (resp, job_id), st') →
  ∃ row, batch_jobs st' !! job_id = Some row ∧ fresh_row row
         ∧ status row = PENDING ∧ job_type row = ADD.
Proof.
  unfold create_batch_add_job, add_job.
  case_bool_decide; [done|].
  destruct (batch_jobs st !! new_id) eqn:Hid; [done|].
  intros [= <- <- <-]. eexists. split; [apply lookup_insert_eq|done].
Qed.

Lemma create_batch_delete_job_fresh new_id request st resp job_id st' :
  create_batch_delete_job new_id request st = (Ok (resp, job_id), st') →
  ∃ row, batch_jobs st' !! job_id = Some row ∧ fresh_row row
         ∧ status row = PENDING ∧ job_type row = DELETE.
Proof.
  unfold create_batch_delete_job, add_job.
  case_bool_decide; [done|].
  destruct (batch_jobs st !! new_id) eqn:Hid; [done|].
  intros [= <- <- <-]. eexists. split; [apply lookup_insert_eq|done].
Qed.

(** C1, as stated, fails: an ADD submission whose source and target are the
    same existing collection is accepted, and its job row is created. *)
Lemma create_batch_add_job_same_collection_accepted :
  let request :=
    {| add_source_collection_id := 1%N; add_target_collection_id := 1%N;
       add_company_ids := [10] |} in
  add_source_collection_id request = add_target_collection_id request
  ∧ ∃ resp st',
      create_batch_add_job 7%N request example_store = (Ok (resp, 7%N), st')
      ∧ batch_jobs example_store !! 7%N = None
      ∧ batch_jobs st' !! 7%N = Some (new_BatchJob ADD 1%N (Some 1%N) 1 [10]).
Proof. split; [done|]. do 2 eexists. by vm_compute. Qed.

(** C1 (amended): existence of the two collections is the only validation
    of an ADD submission.  A submission that names a source or a target
    collection the store does not have fails synchronously with the
    validation error "Collection not found" (HTTP 404) and leaves the store
    as it was, so no job row is created.  Every submission whose source and
    target collections both exist is accepted, whether or not the two are
    the same collection, when the id drawn for the job row is not in use:
    the reply is the PENDING descriptor, the row is created with the
    requested source, target and ids, and no other job row changes. *)
Theorem create_batch_add_job_validation new_id request st :
  (company_collections st !! add_source_collection_id request = None
   ∨ company_collections st !! add_target_collection_id request = None →
   create_batch_add_job new_id request st
   = (HTTPException 404 "Collection not found", st))
  ∧ (is_Some (company_collections st !! add_source_collection_id request) →
     is_Some (company_collections st !! add_target_collection_id request) →
     batch_jobs st !! new_id = None →
     ∃ resp st',
       create_batch_add_job new_id request st = (Ok (resp, new_id), st')
       ∧ resp_status resp = PENDING
       ∧ batch_jobs st' !! new_id
         = Some (new_BatchJob ADD
                   (add_source_collection_id request)
                   (Some (add_target_collection_id request))
                   (Z.of_nat (length (add_company_ids request)))
                   (add_company_ids request))
       ∧ (∀ other, other ≠ new_id →
            batch_jobs st' !! other = batch_jobs st !! other)
       ∧ associations st' = associations st
       ∧ company_collections st' = company_collections st).
Proof.
  split.
  - intros Hmissing. unfold create_batch_add_job.
    by rewrite bool_decide_eq_true_2.
  - intros [source Hsource] [target Htarget] Hfresh.
    unfold create_batch_add_job, add_job.
    rewrite bool_decide_eq_false_2
      by (rewrite Hsource, Htarget; intros [?|?]; discriminate).
    rewrite Hfresh. do 2 eexists. split; [done|]. split; [done|]. simpl.
    split; [apply lookup_insert_eq|]. split; [|done].
    intros other Hother. by apply lookup_insert_ne.
Qed.

Lemma create_batch_add_job_validation_witness :
  create_batch_add_job 7%N
    {| add_source_collection_id := 1%N; add_target_collection_id := 3%N;
       add_company_ids := [10] |} example_store
  = (HTTPException 404 "Collection not found", example_store)
  ∧ ∃ resp st',
      create_batch_add_job 7%N
        {| add_source_collection_id := 1%N; add_target_collection_id := 1%N;
           add_company_ids := [10] |} example_store
      = (Ok (resp, 7%N), st')
      ∧ resp_status resp = PENDING
      ∧ batch_jobs st' !! 7%N = Some (new_BatchJob ADD 1%N (Some 1%N) 1 [10])
      ∧ (∀ other, other ≠ 7%N →
           batch_jobs st' !! other = batch_jobs example_store !! other)
      ∧ associations st' = associations example_store
      ∧ company_collections st' = company_collections example_store.
Proof.
  split.
  - apply (proj1 (create_batch_add_job_validation 7%N
                    {| add_source_collection_id := 1%N;
                       add_target_collection_id := 3%N;
                       add_company_ids := [10] |} example_store)).
    right. reflexivity.
  - apply (proj2 (create_batch_add_job_validation 7%N
                    {| add_source_collection_id := 1%N;
                       add_target_collection_id := 1%N;
                       add_company_ids := [10] |} example_store)).
    + eexists. reflexivity.
    + eexists. reflexivity.
    + reflexivity.
Defined.

(** C5: a cancel request for a job in status COMPLETED, FAILED or CANCELLED
    fails with the conflict error of the handler (HTTP 400, "Job cannot be
    cancelled in current status") and the store, hence every field of the
    job row, is unchanged; a request for an unknown job id fails with
    "Job not found" (HTTP 404), store unchanged. *)
Theorem cancel_batch_job_rejected job_id st :
  (∀ job, batch_jobs st !! job_id = Some job →
          status job = COMPLETED ∨ status job = FAILED ∨ status job = CANCELLED →
          cancel_batch_job job_id st
          = (HTTPException 400 "Job cannot be cancelled in current status", st))
  ∧ (batch_jobs st !! job_id = None →
     cancel_batch_job job_id st = (HTTPException 404 "Job not found", st)).
Proof.
  unfold cancel_batch_job. split.
  - intros job -> Hterminal. rewrite bool_decide_eq_true_2; [done|].
    destruct Hterminal as [-> | [-> | ->]]; repeat constructor.
  - by intros ->.
Qed.

Lemma cancel_batch_job_rejected_witness :
  cancel_batch_job 7%N finished_store
  = (HTTPException 400 "Job cannot be cancelled in current status", finished_store)
  ∧ cancel_batch_job 8%N finished_store
    = (HTTPException 404 "Job not found", finished_store).
Proof.
  split.
  - eapply (proj1 (cancel_batch_job_rejected 7%N finished_store)).
    + reflexivity.
    + left. reflexivity.
  - apply (proj2 (cancel_batch_job_rejected 8%N finished_store)). reflexivity.
Defined.

(** C10: a cancel request for an existing job in status PENDING or
    IN_PROGRESS succeeds; the row of the job afterwards is the old row with
    status CANCELLED, so job_type, source_collection_id,
    target_collection_id, total_count, processed_count, the identifier list
    and error_message are as before; the rows of all other jobs, the
    association table and the collection table are untouched. *)
Theorem cancel_batch_job_frame job_id st job :
  batch_jobs st !! job_id = Some job →
  status job = PENDING ∨ status job = IN_PROGRESS →
  ∃ st' job',
    cancel_batch_job job_id st = (Ok "Job cancelled successfully", st')
    ∧ batch_jobs st' !! job_id = Some job'
    ∧ status job' = CANCELLED
    ∧ job_type job' = job_type job
    ∧ source_collection_id job' = source_collection_id job
    ∧ target_collection_id job' = target_collection_id job
    ∧ total_count job' = total_count job
    ∧ processed_count job' = processed_count job
    ∧ company_ids_json job' = company_ids_json job
    ∧ error_message job' = error_message job
    ∧ (∀ other, other ≠ job_id → batch_jobs st' !! other = batch_jobs st !! other)
    ∧ associations st' = associations st
    ∧ company_collections st' = company_collections st.
Proof.
  intros Hjob Hlive. unfold cancel_batch_job. rewrite Hjob.
  rewrite bool_decide_eq_false_2.
  - do 2 eexists. split; [done|]. split; [apply lookup_insert_eq|].
    repeat split; try done.
    intros other Hne. simpl. by rewrite lookup_insert_ne.
  - intros Hin.
    repeat (apply elem_of_cons in Hin as [Hin | Hin];
            [destruct Hlive; congruence|]).
    by apply elem_of_nil in Hin.
Qed.

Lemma cancel_batch_job_frame_witness :
  ∃ st' job',
    cancel_batch_job 7%N pending_store = (Ok "Job cancelled successfully", st')
    ∧ batch_jobs st' !! 7%N = Some job'
    ∧ status job' = CANCELLED
    ∧ job_type job' = ADD
    ∧ source_collection_id job' = 1%N
    ∧ target_collection_id job' = Some 2%N
    ∧ total_count job' = 3
    ∧ processed_count job' = 0
    ∧ company_ids_json job' = [10; 11; 12]
    ∧ error_message job' = None
    ∧ (∀ other, other ≠ 7%N →
         batch_jobs st' !! other = batch_jobs pending_store !! other)
    ∧ associations st' = associations pending_store
    ∧ company_collections st' = company_collections pending_store.
Proof.
  apply (cancel_batch_job_frame 7%N pending_store
           (new_BatchJob ADD 1%N (Some 2%N) 3 [10; 11; 12])).
  - reflexivity.
  - left. reflexivity.
Defined.

(* ===================================================================== *)
(** * 5. The executor: what the other handlers and one chunk can change *)
(* ===================================================================== *)

Lemma row_drift_refl o : row_drift o o.
Proof.
  destruct o as [r|]; simpl; [|done].
  exists (status r). by rewrite set_status_same.
Qed.

Lemma row_drift_trans o1 o2 o3 :
  row_drift o1 o2 → row_drift o2 o3 → row_drift o1 o3.
Proof.
  destruct o1 as [r|]; simpl.
  - intros (s & -> & Hs). simpl. intros (s' & -> & Hs').
    exists s'. split; [done|]. intros Hc. apply Hs'. simpl. by apply Hs.
  - by intros ->.
Qed.

Lemma store_drift_refl st : store_drift st st.
Proof. repeat split. intros k. apply row_drift_refl. Qed.

Lemma store_drift_trans st1 st2 st3 :
  store_drift st1 st2 → store_drift st2 st3 → store_drift st1 st3.
Proof.
  intros (Ha & Hc & Hr) (Ha' & Hc' & Hr'). repeat split; [congruence..|].
  intros k. eapply row_drift_trans; [apply Hr | apply Hr'].
Qed.

Lemma cancel_batch_job_drift job_id st :
  store_drift st (cancel_batch_job job_id st).2.
Proof.
  unfold cancel_batch_job.
  destruct (batch_jobs st !! job_id) as [job|] eqn:Hjob;
    [|apply store_drift_refl].
  case_bool_decide as Hterm; [apply store_drift_refl|].
  repeat split. intros k. simpl.
  destruct (decide (k = job_id)) as [->|Hne].
  - rewrite Hjob, lookup_insert_eq. simpl. by exists CANCELLED.
  - rewrite lookup_insert_ne by done. apply row_drift_refl.
Qed.

Lemma cancel_batch_job_other job_id st k :
  k ≠ job_id →
  batch_jobs (cancel_batch_job job_id st).2 !! k = batch_jobs st !! k.
Proof.
  intros Hne. unfold cancel_batch_job.
  destruct (batch_jobs st !! job_id) as [job|]; [|done].
  case_bool_decide; [done|]. simpl. by rewrite lookup_insert_ne.
Qed.

Lemma serve_cancels_drift requests st :
  store_drift st (serve_cancels requests st).
Proof.
  unfold serve_cancels. revert st.
  induction requests as [|job_id requests IH]; intros st; simpl.
  - apply store_drift_refl.
  - eapply store_drift_trans; [apply cancel_batch_job_drift | apply IH].
Qed.

Lemma serve_cancels_other requests st k :
  k ∉ requests →
  batch_jobs (serve_cancels requests st) !! k = batch_jobs st !! k.
Proof.
  unfold serve_cancels. revert st.
  induction requests as [|job_id requests IH]; intros st Hk; simpl; [done|].
  apply not_elem_of_cons in Hk as [Hne Hk].
  rewrite IH by done. by apply cancel_batch_job_other.
Qed.

Lemma store_drift_cancelled st st' k row :
  store_drift st st' → batch_jobs st !! k = Some row → status row = CANCELLED →
  batch_jobs st' !! k = Some row.
Proof.
  intros (_ & _ & Hrows) Hrow Hc. specialize (Hrows k). rewrite Hrow in Hrows.
  destruct Hrows as (s & -> & Hs). rewrite Hs by done.
  by rewrite <- Hc, set_status_same.
Qed.

Section Frames.

Variable E : Env.

Lemma undisturbed_refl w : undisturbed E w w.
Proof.
  refine (conj _ (conj _ (conj _ (conj _ (conj _ _))))); try done.
  apply store_drift_refl.
Qed.

Lemma undisturbed_trans w1 w2 w3 :
  undisturbed E w1 w2 → undisturbed E w2 w3 → undisturbed E w1 w3.
Proof.
  intros (?&?&?&?&?&Hk) (?&?&?&?&?&Hk').
  refine (conj _ (conj _ (conj _ (conj _ (conj _ _))))); [congruence..| |].
  - by eapply store_drift_trans.
  - intros k Hquiet. by rewrite Hk', Hk.
Qed.

Lemma arrive_undisturbed w : undisturbed E w (arrive E w).
Proof.
  refine (conj _ (conj _ (conj _ (conj _ (conj _ _))))); try done.
  - apply serve_cancels_drift.
  - intros k Hquiet. simpl. by apply serve_cancels_other.
Qed.

Lemma set_pending_undisturbed wrs w : undisturbed E w (set_pending wrs w).
Proof.
  refine (conj _ (conj _ (conj _ (conj _ (conj _ _))))); try done.
  apply store_drift_refl.
Qed.

(** An operation either raises at its site, leaving only the traces of the
    other handlers, or runs. *)
Lemma db_op_cases {A : Type} site (f : Exec A) w :
  (∃ msg, fault E (clock w) = Some msg
          ∧ db_op E site f w
            = (Abort (Raised {| raised_at := site; description := msg |}),
               arrive E w))
  ∨ (fault E (clock w) = None ∧ db_op E site f w = f (arrive E w)).
Proof.
  unfold db_op. destruct (fault E (clock w)) as [msg|]; [left|right]; eauto.
Qed.

Lemma stage_additions_frame target batch_ids acc w r w' :
  stage_additions E target batch_ids acc w = (r, w') →
  undisturbed E w w' ∧ pending w' = pending w
  ∧ match r with
    | Normal _ => True
    | Abort (Raised e) => raised_by_fault E AtQueryAssociation e
    | Abort Returned => False
    end.
Proof.
  revert acc w. induction batch_ids as [|company_id rest IH]; intros acc w; simpl.
  - intros [= <- <-]. split; [apply undisturbed_refl|done].
  - unfold exec_bind, query_association.
    destruct (db_op_cases AtQueryAssociation
      (λ w0, (Normal (existsb (matches company_id target) (view w0)), w0)) w)
      as [(msg & Hf & ->) | [_ ->]].
    + intros [= <- <-]. split; [apply arrive_undisturbed|].
      split; [done|]. split; [done|]. by exists (clock w).
    + intros Hrest. apply IH in Hrest as (Hu & Hp & Hr).
      split; [|done].
      eapply undisturbed_trans; [apply arrive_undisturbed | done].
Qed.

Lemma delete_each_frame source batch_ids w r w' :
  delete_each E source batch_ids w = (r, w') →
  undisturbed E w w'
  ∧ match r with
    | Normal _ => True
    | Abort (Raised e) => raised_by_fault E AtDelete e
    | Abort Returned => False
    end.
Proof.
  revert w. induction batch_ids as [|company_id rest IH]; intros w; simpl.
  - intros [= <- <-]. split; [apply undisturbed_refl|done].
  - unfold exec_bind, delete_where.
    destruct (db_op_cases AtDelete
      (λ w0, (Normal tt,
              set_pending (pending w0 ++ [DeleteWhere company_id source]) w0)) w)
      as [(msg & Hf & ->) | [_ ->]].
    + intros [= <- <-]. split; [apply arrive_undisturbed|].
      split; [done|]. by exists (clock w).
    + intros Hrest. apply IH in Hrest as (Hu & Hr).
      split; [|done].
      eapply undisturbed_trans; [apply arrive_undisturbed|].
      eapply undisturbed_trans; [apply set_pending_undisturbed | exact Hu].
Qed.

(** One chunk: either nothing was committed and the session is as before
    (an ADD chunk with nothing to insert), or everything up to one commit
    at line 112 or 123 was undisturbed, or the chunk raised at one of its
    own sites before committing. *)
Lemma process_batch_frame job batch_ids w r w' :
  process_batch E job batch_ids w = (r, w') →
  ∃ w1, undisturbed E w w1
    ∧ match r with
      | Normal _ =>
          (w' = w1 ∧ pending w1 = pending w)
          ∨ (∃ site, (site = AtCommitAdd ∨ site = AtCommitDelete)
                     ∧ w' = committed site w1)
      | Abort (Raised e) =>
          w' = w1 ∧ is_chunk_site (raised_at e) = true
          ∧ ∃ t, fault E t = Some (description e)
      | Abort Returned => False
      end.
Proof.
  unfold process_batch. destruct (job_type job).
  - unfold exec_bind at 1.
    destruct (stage_additions E (target_collection_id job) batch_ids [] w)
      as [[to_add|x] w1] eqn:Hstage;
      apply stage_additions_frame in Hstage as (Hu & Hp & Hr).
    + destruct to_add as [|row to_add].
      * intros [= <- <-]. exists w1. split; [done|]. by left.
      * unfold exec_bind, bulk_save_objects.
        destruct (db_op_cases AtBulkSave
          (λ w0, (Normal tt,
                  set_pending (pending w0 ++ (Insert <$> row :: to_add)) w0)) w1)
          as [(msg & Hf & ->) | [_ ->]].
        { intros [= <- <-]. exists (arrive E w1). split.
          - eapply undisturbed_trans; [done | apply arrive_undisturbed].
          - split; [done|]. split; [done|]. by exists (clock w1). }
        unfold commit.
        match goal with |- context [db_op E AtCommitAdd ?f ?w2] =>
          assert (undisturbed E w (arrive E w2)) as Hu2
            by (eapply undisturbed_trans; [exact Hu|];
                eapply undisturbed_trans; [apply arrive_undisturbed|];
                eapply undisturbed_trans; [apply set_pending_undisturbed|];
                apply arrive_undisturbed);
          destruct (db_op_cases AtCommitAdd f w2) as [(msg & Hf & ->) | [_ ->]];
          intros [= <- <-]; exists (arrive E w2); (split; [exact Hu2|])
        end.
        { split; [done|]. split; [done|]. eexists. exact Hf. }
        { right. eauto. }
    + intros [= <- <-]. exists w1. split; [done|].
      destruct x as [|e]; [done|]. destruct Hr as [Hsite Hr].
      split; [done|]. by rewrite Hsite.
  - unfold exec_bind at 1.
    destruct (delete_each E (Some (source_collection_id job)) batch_ids w)
      as [[[]|x] w1] eqn:Hdel;
      apply delete_each_frame in Hdel as (Hu & Hr).
    + unfold commit.
      destruct (db_op_cases AtCommitDelete
        (λ w0, (Normal tt, committed AtCommitDelete w0)) w1)
        as [(msg & Hf & ->) | [_ ->]];
        intros [= <- <-]; exists (arrive E w1);
        (split; [eapply undisturbed_trans; [done | apply arrive_undisturbed]|]).
      * split; [done|]. split; [done|]. eexists. exact Hf.
      * right. eauto.
    + intros [= <- <-]. exists w1. split; [done|].
      destruct x as [|e]; [done|]. destruct Hr as [Hsite Hr].
      split; [done|]. by rewrite Hsite.
Qed.

(** The shape of what the remaining operations return. *)
Lemma commit_cases site w :
  (∃ msg, fault E (clock w) = Some msg
          ∧ commit E site w
            = (Abort (Raised {| raised_at := site; description := msg |}),
               arrive E w))
  ∨ (fault E (clock w) = None
     ∧ commit E site w = (Normal tt, committed site (arrive E w))).
Proof. unfold commit. apply db_op_cases. Qed.

Lemma refresh_cases job_id w :
  (∃ e, refresh E job_id w = (Abort (Raised e), arrive E w)
        ∧ raised_at e = AtRefresh)
  ∨ (∃ row, fault E (clock w) = None
            ∧ batch_jobs (db (arrive E w)) !! job_id = Some row
            ∧ refresh E job_id w
              = (Normal (job_id, row),
                 set_dirty clean (set_job_var (Some (job_id, row)) (arrive E w)))).
Proof.
  unfold refresh.
  match goal with |- context [db_op E AtRefresh ?f w] =>
    destruct (db_op_cases AtRefresh f w) as [(msg & _ & ->) | [Hf ->]]
  end.
  - left. eexists. by split.
  - destruct (batch_jobs (db (arrive E w)) !! job_id) as [row|] eqn:Hrow.
    + right. by exists row.
    + left. eexists. by split.
Qed.

End Frames.

(* ===================================================================== *)
(** * 6. The executor: cancellation, failure and completion *)
(* ===================================================================== *)

Lemma flush_job_clean r : flush_job clean r = r.
Proof. by destruct r. Qed.

Lemma same_but_progress_set_status row0 r s :
  same_but_progress row0 r → same_but_progress row0 (set_status s r).
Proof. done. Qed.

Lemma same_but_progress_flush row0 r d :
  d_error_message d = None →
  same_but_progress row0 r → same_but_progress row0 (flush_job d r).
Proof. intros Hd (?&?&?&?&?&?). repeat split; simpl; try done. by rewrite Hd. Qed.

Lemma committed_commits_nonempty site w : commits (committed site w) ≠ [].
Proof. simpl. by destruct (commits w). Qed.

Lemma flushed_lookup w job_id loaded r :
  job_var w = Some (job_id, loaded) → batch_jobs (db w) !! job_id = Some r →
  batch_jobs (flushed w) !! job_id = Some (flush_job (dirty w) r).
Proof.
  intros Hvar Hrow. unfold flushed. simpl.
  by rewrite Hvar, lookup_alter_eq, Hrow.
Qed.

Section Sync.

Variable E : Env.
Variable job_id : uuid.
Variable row0 : BatchJob.

Lemma in_sync_tracked w : in_sync job_id row0 w → tracked job_id row0 w.
Proof.
  intros (Hjob & _ & site & s & r & st & _ & _ & Hsame & _ & Hrow).
  split; [done|]. eexists. split; [done|].
  by apply same_but_progress_set_status.
Qed.

Lemma tracked_undisturbed w w1 :
  undisturbed E w w1 → tracked job_id row0 w → tracked job_id row0 w1.
Proof.
  intros (Hjob & _ & _ & _ & (_ & _ & Hrows) & _) ([loaded Hvar] & r & Hrow & Hsame).
  split; [exists loaded; congruence|].
  specialize (Hrows job_id). rewrite Hrow in Hrows.
  destruct Hrows as (s & Hrow1 & _). eexists. split; [done|].
  by apply same_but_progress_set_status.
Qed.

Lemma in_sync_undisturbed w w1 :
  undisturbed E w w1 → in_sync job_id row0 w → in_sync job_id row0 w1.
Proof.
  intros (Hjob & Hdirty & Hcommits & _ & (Hassoc & _ & Hrows) & _)
         ([loaded Hvar] & Hclean & site & s & r & st & Hlast & Hs & Hsame & Ha & Hrow).
  split; [exists loaded; congruence|]. split; [congruence|].
  specialize (Hrows job_id). rewrite Hrow in Hrows.
  destruct Hrows as (st1 & Hrow1 & _).
  exists site, s, r, st1. rewrite Hcommits, Hassoc. done.
Qed.

(** Every commit of a tracked job that carries no error message puts the
    run in sync. *)
Lemma tracked_committed site w :
  tracked job_id row0 w → d_error_message (dirty w) = None →
  in_sync job_id row0 (committed site w) ∧ pending (committed site w) = [].
Proof.
  intros ([loaded Hvar] & r & Hrow & Hsame) Hd. split; [|done].
  pose proof (flushed_lookup _ _ _ _ Hvar Hrow) as Hflushed.
  split; [by exists loaded|]. split; [done|].
  exists site, (flushed w), (flush_job (dirty w) r), (status (flush_job (dirty w) r)).
  rewrite set_status_same.
  split; [apply last_snoc|]. split; [exact Hflushed|].
  split; [by apply same_but_progress_flush|]. split; [done|]. exact Hflushed.
Qed.

Lemma tracked_set_dirty d w :
  tracked job_id row0 w → tracked job_id row0 (set_dirty d w).
Proof. done. Qed.

Lemma refresh_in_sync row w :
  in_sync job_id row0 w →
  in_sync job_id row0 (set_dirty clean (set_job_var (Some (job_id, row)) w)).
Proof.
  intros (_ & _ & Hrest). split; [by eexists|]. split; [done|]. exact Hrest.
Qed.

(** The loop, seen from the last commit: it leaves through [return] only
    after reading CANCELLED with nothing written since the last commit; an
    exception raised by a chunk finds nothing waiting to be flushed. *)
Lemma process_batches_sync company_ids batch_size starts :
  ∀ processed w r w',
    in_sync job_id row0 w → pending w = [] →
    process_batches E job_id company_ids batch_size starts processed w = (r, w') →
    match r with
    | Normal processed' =>
        in_sync job_id row0 w' ∧ pending w' = []
        ∧ processed' = processed + attempted company_ids batch_size starts
        ∧ stdout w' = stdout w
    | Abort Returned =>
        in_sync job_id row0 w' ∧ pending w' = []
        ∧ (∃ row, batch_jobs (db w') !! job_id = Some row ∧ status row = CANCELLED)
        ∧ stdout w' = stdout w ++ [CancelledByUser job_id]
    | Abort (Raised e) =>
        is_chunk_site (raised_at e) = true → in_sync job_id row0 w'
    end.
Proof.
  induction starts as [|i rest IH]; intros processed w r w' Hsync Hpend; simpl.
  - intros [= <- <-]. split; [done|]. split; [done|]. split; [lia|done].
  - unfold exec_bind at 1.
    destruct (refresh_cases E job_id w)
      as [(e & -> & Hsite) | (row & Hf & Hrow & ->)].
    { intros [= <- <-]. by rewrite Hsite. }
    set (w1 := set_dirty clean (set_job_var (Some (job_id, row)) (arrive E w))).
    assert (in_sync job_id row0 w1) as Hsync1.
    { apply refresh_in_sync.
      eapply in_sync_undisturbed; [apply arrive_undisturbed | done]. }
    assert (pending w1 = []) as Hpend1 by done.
    assert (stdout w1 = stdout w) as Hout1 by done.
    simpl. case_decide as Hcancelled.
    { unfold exec_bind, print, return_. intros [= <- <-].
      split; [exact Hsync1|]. split; [done|]. split; [|done].
      exists row. by split. }
    unfold exec_bind at 1.
    destruct (process_batch E row (slice company_ids i (i + batch_size)) w1)
      as [[[]|x] w2] eqn:Hbatch;
      apply process_batch_frame in Hbatch as (w1' & Hu & Hshape).
    + assert (in_sync job_id row0 w2 ∧ pending w2 = [] ∧ stdout w2 = stdout w)
        as (Hsync2 & Hpend2 & Hout2).
      { pose proof (in_sync_undisturbed _ _ Hu Hsync1) as Hsync1'.
        destruct Hu as (_ & _ & _ & Hout & _).
        destruct Hshape as [[-> Hp] | (site & _ & ->)].
        - split; [done|]. split; congruence.
        - destruct (tracked_committed site w1') as [? ?].
          + by apply in_sync_tracked.
          + by destruct Hsync1' as (_ & -> & _).
          + split; [done|]. split; [done|]. simpl. congruence. }
      unfold exec_bind at 1. unfold assign_processed_count, assign.
      destruct Hsync2 as ([loaded Hvar] & Hclean & Hrest). rewrite Hvar.
      unfold exec_bind at 1.
      match goal with |- context [commit E AtCommitProgress ?w3] =>
        destruct (commit_cases E AtCommitProgress w3)
          as [(msg & _ & ->) | [_ ->]];
        [by intros [= <- <-]|];
        destruct (tracked_committed AtCommitProgress (arrive E w3)) as [Hsync4 Hpend4]
      end.
      { eapply tracked_undisturbed; [apply arrive_undisturbed|].
        apply tracked_set_dirty, in_sync_tracked.
        split; [by exists loaded|]. by split. }
      { simpl. by rewrite Hclean. }
      intros Hrest'. apply (IH _ _ _ _ Hsync4 Hpend4) in Hrest'.
      destruct r as [processed'|[|e]]; [| |done].
      * destruct Hrest' as (? & ? & -> & Hout). simpl in Hout.
        split; [done|]. split; [done|]. split; [lia|congruence].
      * destruct Hrest' as (? & ? & ? & Hout). simpl in Hout.
        split; [done|]. split; [done|]. split; [done|congruence].
    + intros [= <- <-]. destruct x as [|e]; [done|].
      destruct Hshape as (-> & _ & _). intros _.
      by eapply in_sync_undisturbed.
Qed.

End Sync.

Lemma slice_length {A : Type} (l : list A) (i b : nat) :
  length (slice l i (i + b)) = (b `min` (length l - i))%nat.
Proof.
  unfold slice. rewrite length_take, length_drop.
  replace (i + b - i)%nat with b by lia. done.
Qed.

Lemma attempted_range_from company_ids b fuel i :
  (0 < b)%nat → (length company_ids - i ≤ fuel)%nat →
  attempted company_ids b (range_from fuel i (length company_ids) b)
  = Z.of_nat (length company_ids - i).
Proof.
  intros Hb. revert i. induction fuel as [|fuel IH]; intros i Hfuel; simpl.
  - lia.
  - case_decide as Hlt; simpl; [|lia].
    rewrite IH by lia. rewrite slice_length. lia.
Qed.

(** The chunks of [range(0, len(company_ids), batch_size)] hold every id
    once. *)
Lemma attempted_all company_ids :
  let n := length company_ids in
  attempted company_ids (batch_size_for n) (py_range n (batch_size_for n))
  = Z.of_nat n.
Proof.
  intros n. unfold py_range. subst n.
  rewrite attempted_range_from; [lia| |lia].
  unfold batch_size_for. case_decide; lia.
Qed.

Section Runs.

Variable E : Env.
Variable job_id : uuid.

Lemma arrive_lookup w r :
  batch_jobs (db w) !! job_id = Some r →
  ∃ s, batch_jobs (db (arrive E w)) !! job_id = Some (set_status s r)
       ∧ (status r = CANCELLED → s = CANCELLED).
Proof.
  intros Hrow. destruct (arrive_undisturbed E w) as (_&_&_&_&(_&_&Hrows)&_).
  specialize (Hrows job_id). by rewrite Hrow in Hrows.
Qed.

(** What the row of the job is after [job.<attributes> = ...; db.commit()]. *)
Lemma commit_after_assign d site w loaded r :
  job_var w = Some (job_id, loaded) → batch_jobs (db w) !! job_id = Some r →
  ∃ s, batch_jobs (db (committed site (arrive E (set_dirty d w)))) !! job_id
       = Some (flush_job d (set_status s r)).
Proof.
  intros Hvar Hrow.
  destruct (arrive_lookup (set_dirty d w) r Hrow) as (s & Hrow' & _).
  exists s.
  exact (flushed_lookup (arrive E (set_dirty d w)) job_id loaded _ Hvar Hrow').
Qed.

(** The [try] block of a run on a store that has the job. *)
Lemma try_block_sync st row0 r w' :
  batch_jobs st !! job_id = Some row0 →
  try_block E job_id (new_session st) = (r, w') →
  match r with
  | Normal _ =>
      ∃ log row,
        commits w' = log ++ [(AtCommitCompleted, db w')]
        ∧ batch_jobs (db w') !! job_id = Some row
        ∧ status row = COMPLETED
        ∧ processed_count row = Z.of_nat (length (company_ids_json row0))
        ∧ same_but_progress row0 row
  | Abort Returned =>
      (commits w' = [] ∧ stdout w' = [CancelledBeforeStart job_id])
      ∨ (in_sync job_id row0 w' ∧ pending w' = []
         ∧ (∃ row, batch_jobs (db w') !! job_id = Some row ∧ status row = CANCELLED)
         ∧ stdout w' = [CancelledByUser job_id])
  | Abort (Raised e) =>
      is_chunk_site (raised_at e) = true → in_sync job_id row0 w'
  end.
Proof.
  intros Hrow0. unfold try_block, exec_bind at 1, query_job.
  match goal with |- context [db_op E AtQueryJob ?f ?w] =>
    destruct (db_op_cases E AtQueryJob f w) as [(msg & _ & ->) | [_ ->]]
  end; [by intros [= <- <-]|].
  destruct (arrive_lookup (new_session st) row0 Hrow0) as (s1 & Hrow1 & _).
  rewrite Hrow1. cbn [fmap option_fmap option_map]. cbv iota beta.
  case_decide as Hcancelled.
  { unfold exec_bind, print, return_. intros [= <- <-]. by left. }
  unfold exec_bind at 1, assign_status at 1, assign at 1. simpl job_var.
  cbv iota beta. unfold exec_bind at 1.
  match goal with |- context [commit E AtCommitStart ?w1] =>
    destruct (commit_cases E AtCommitStart w1) as [(msg & _ & ->) | [_ ->]];
    [by intros [= <- <-]|];
    destruct (tracked_committed job_id row0 AtCommitStart (arrive E w1))
      as [Hsync2 Hpend2]
  end.
  { eapply tracked_undisturbed; [apply arrive_undisturbed|].
    split; [by eexists|]. eexists. split; [exact Hrow1|done]. }
  { done. }
  unfold exec_bind at 1.
  match goal with |- context [process_batches E job_id ?ids ?b ?starts 0 ?w2] =>
    destruct (process_batches E job_id ids b starts 0 w2) as [[processed|x] w3]
      eqn:Hloop;
    apply (process_batches_sync E job_id row0 _ _ _ _ _ _ _ Hsync2 Hpend2) in Hloop
  end.
  2:{ intros [= <- <-]. destruct x as [|e]; [|done]. right.
      destruct Hloop as (? & ? & ? & Hout). done. }
  destruct Hloop as (Hsync3 & Hpend3 & Hprocessed & _).
  simpl company_ids_json in Hprocessed. rewrite attempted_all in Hprocessed.
  destruct (in_sync_tracked _ _ _ Hsync3) as ([loaded Hvar3] & r3 & Hrow3 & Hsame3).
  assert (dirty w3 = clean) as Hclean3 by (by destruct Hsync3 as (_ & ? & _)).
  unfold exec_bind at 1, assign_processed_count at 1, assign at 1.
  rewrite Hvar3, Hclean3. simpl d_status. simpl d_error_message.
  unfold exec_bind at 1.
  match goal with |- context [commit E AtCommitFinalProgress (set_dirty ?d w3)] =>
    destruct (commit_cases E AtCommitFinalProgress (set_dirty d w3))
      as [(msg & _ & ->) | [_ ->]];
    [by intros [= <- <-]|];
    destruct (commit_after_assign d AtCommitFinalProgress w3 loaded r3 Hvar3 Hrow3)
      as (s4 & Hrow4)
  end.
  unfold exec_bind at 1, assign_status at 1, assign at 1. simpl job_var.
  rewrite Hvar3.
  match goal with |- context [commit E AtCommitCompleted (set_dirty ?d ?w4)] =>
    destruct (commit_cases E AtCommitCompleted (set_dirty d w4))
      as [(msg & _ & ->) | [_ ->]];
    [by intros [= <- <-]|];
    destruct (commit_after_assign d AtCommitCompleted w4 loaded _ Hvar3 Hrow4)
      as (s5 & Hrow5)
  end.
  intros [= <- <-]. eexists _, _. split; [reflexivity|].
  split; [exact Hrow5|]. split; [reflexivity|]. split; [simpl; lia|].
  destruct Hsame3 as (?&?&?&?&?&?). by repeat split.
Qed.

End Runs.

(** C6: when the row of the job already has status CANCELLED at pickup, the
    run commits nothing and leaves the row (status, processed_count and all
    other fields), the association table and the collection table as they
    were; unless the first query itself raises, the task returns through
    the [return] of line 58. *)
Theorem process_batch_job_cancelled_before_start E job_id st row :
  batch_jobs st !! job_id = Some row → status row = CANCELLED →
  let result := process_batch_job E job_id st in
  commits result.2 = []
  ∧ batch_jobs (db result.2) !! job_id = Some row
  ∧ associations (db result.2) = associations st
  ∧ company_collections (db result.2) = company_collections st
  ∧ (fault E 0%nat = None →
     result.1 = EarlyReturn ∧ stdout result.2 = [CancelledBeforeStart job_id]).
Proof.
  intros Hrow Hcancelled.
  pose proof (serve_cancels_drift (interference E 0%nat) st) as Hdrift.
  pose proof (store_drift_cancelled _ _ _ _ Hdrift Hrow Hcancelled) as Hrow'.
  destruct Hdrift as (Hassoc & Hcoll & _).
  destruct (process_batch_job E job_id st) as [outcome w'] eqn:Hrun.
  revert Hrun. simpl.
  unfold process_batch_job, try_block, exec_bind at 1, query_job.
  match goal with |- context [db_op E AtQueryJob ?f ?w] =>
    destruct (db_op_cases E AtQueryJob f w) as [(msg & Hf & ->) | [Hf ->]]
  end.
  - simpl. intros [= <- <-]. simpl. rewrite Hrow', Hassoc, Hcoll.
    simpl in Hf. by rewrite Hf.
  - change (db (arrive E (new_session st)))
      with (serve_cancels (interference E 0%nat) st).
    rewrite Hrow'. cbn [fmap option_fmap option_map].
    cbv iota beta. rewrite decide_True by done.
    simpl. intros [= <- <-]. simpl. by rewrite Hrow', Hassoc, Hcoll.
Qed.

Lemma process_batch_job_cancelled_before_start_witness :
  let result := process_batch_job quiet 7%N cancelled_store in
  commits result.2 = []
  ∧ batch_jobs (db result.2) !! 7%N
    = Some (set_status CANCELLED (new_BatchJob ADD 1%N (Some 2%N) 3 [10; 11; 12]))
  ∧ associations (db result.2) = associations cancelled_store
  ∧ company_collections (db result.2) = company_collections cancelled_store
  ∧ (fault quiet 0%nat = None →
     result.1 = EarlyReturn ∧ stdout result.2 = [CancelledBeforeStart 7%N]).
Proof.
  apply (process_batch_job_cancelled_before_start quiet 7%N cancelled_store).
  - reflexivity.
  - reflexivity.
Defined.

Lemma exec_bind_normal {A B : Type} (m : Exec A) (k : A → Exec B) w a w1 :
  m w = (Normal a, w1) → exec_bind m k w = k a w1.
Proof. intros Hm. unfold exec_bind. by rewrite Hm. Qed.













(** C4: when a run falls off the end of the [try] block, that is, every
    chunk ran, no refresh read CANCELLED and nothing raised, its last commit
    is the one of line 136, and in that state, which is the final one, the
    row of the job has status COMPLETED and processed_count = total_count
    (for a job whose total_count is the number of its ids, as the submission
    handlers create it). *)
Theorem process_batch_job_completes E job_id st row0 w' :
  batch_jobs st !! job_id = Some row0 →
  total_count row0 = Z.of_nat (length (company_ids_json row0)) →
  process_batch_job E job_id st = (Completed, w') →
  ∃ log row,
    commits w' = log ++ [(AtCommitCompleted, db w')]
    ∧ batch_jobs (db w') !! job_id = Some row
    ∧ status row = COMPLETED
    ∧ processed_count row = total_count row.
Proof.
  intros Hrow0 Htotal. unfold process_batch_job.
  destruct (try_block E job_id (new_session st)) as [[[]|[|e]] w1] eqn:Htry.
  - apply (try_block_sync E job_id st row0 _ _ Hrow0) in Htry.
    destruct Htry as (log & row & Hlog & Hrow & Hstatus & Hcount & Hsame).
    intros [= <-]. exists log, row. simpl.
    destruct Hsame as (_&_&_&Ht&_). split; [done|]. split; [done|].
    split; [done|]. congruence.
  - done.
  - destruct (except_block E e w1) as [[[]|[|e']] w2]; done.
Qed.

Lemma process_batch_job_completes_witness :
  let w' := (process_batch_job quiet 7%N pending_store).2 in
  ∃ log row,
    commits w' = log ++ [(AtCommitCompleted, db w')]
    ∧ batch_jobs (db w') !! 7%N = Some row
    ∧ status row = COMPLETED
    ∧ processed_count row = total_count row.
Proof.
  apply (process_batch_job_completes quiet 7%N pending_store
           (new_BatchJob ADD 1%N (Some 2%N) 3 [10; 11; 12])).
  - reflexivity.
  - reflexivity.
  - vm_compute. reflexivity.
Defined.

(* ===================================================================== *)
(** * 7. The executor: progress accounting *)
(* ===================================================================== *)

Lemma nondecreasing_nil : nondecreasing [].
Proof. intros i j x y _ Hx. by rewrite lookup_nil in Hx. Qed.

Lemma nondecreasing_snoc l x :
  nondecreasing l → Forall (λ y, y ≤ x) l → nondecreasing (l ++ [x]).
Proof.
  intros Hl Hx i j a b Hij Ha Hb.
  apply lookup_snoc_Some in Ha as [[Hi Ha] | [-> <-]];
    apply lookup_snoc_Some in Hb as [[Hj Hb] | [-> <-]].
  - exact (Hl i j a b Hij Ha Hb).
  - rewrite Forall_lookup in Hx. exact (Hx i a Ha).
  - lia.
  - lia.
Qed.

Lemma log_ok_snoc n top rows r :
  log_ok n top rows → total_count r = n → 0 ≤ processed_count r →
  top ≤ processed_count r → (rows = [] → processed_count r = 0) →
  log_ok n (processed_count r) (rows ++ [r]).
Proof.
  intros (Hall & Hmono & Hhead) Htotal H0 Htop Hfirst. split; [|split].
  - apply Forall_app. split.
    + eapply Forall_impl; [exact Hall|]. simpl. intros r' [? ?]. split; [done|lia].
    + apply Forall_singleton. split; [done|lia].
  - rewrite fmap_app. apply nondecreasing_snoc; [done|].
    apply Forall_fmap. eapply Forall_impl; [exact Hall|]. simpl. lia.
  - destruct rows as [|r1 rows]; simpl.
    + intros x [= <-]. by apply Hfirst.
    + intros x Hx. by apply Hhead.
Qed.

Lemma attempted_nonneg company_ids b starts :
  0 ≤ attempted company_ids b starts.
Proof. induction starts as [|i rest IH]; simpl; lia. Qed.

Section Progress.

Variable E : Env.
Variable job_id : uuid.
Variable n : Z.

Lemma bounded_undisturbed w w1 :
  undisturbed E w w1 → bounded job_id n w → bounded job_id n w1.
Proof.
  intros (Hjob & Hdirty & Hcommits & _ & (_ & _ & Hrows) & _)
         (loaded & r & Hvar & Hrow & Htotal & Hpc & Hd & Hlog & Hlen & Hempty).
  specialize (Hrows job_id). rewrite Hrow in Hrows.
  destruct Hrows as (s & Hrow1 & _).
  exists loaded, (set_status s r). unfold committed_rows in *.
  rewrite Hjob, Hdirty, Hcommits. done.
Qed.

Lemma pc_le_undisturbed p w w1 :
  undisturbed E w w1 → (∃ r, batch_jobs (db w) !! job_id = Some r) →
  pc_le job_id p w → pc_le job_id p w1.
Proof.
  intros (_ & _ & _ & _ & (_ & _ & Hrows) & _) [r Hrow] Hle r1 Hrow1.
  specialize (Hrows job_id). rewrite Hrow in Hrows.
  destruct Hrows as (s & Hrow1' & _). rewrite Hrow1' in Hrow1.
  injection Hrow1 as <-. simpl. by apply Hle.
Qed.

Lemma committed_rows_committed site w loaded r :
  job_var w = Some (job_id, loaded) → batch_jobs (db w) !! job_id = Some r →
  committed_rows job_id (committed site w)
  = committed_rows job_id w ++ [flush_job (dirty w) r].
Proof.
  intros Hvar Hrow. unfold committed_rows.
  change (commits (committed site w)) with (commits w ++ [(site, flushed w)]).
  rewrite omap_app. f_equal.
  change (omap (λ c : Site * Store, batch_jobs c.2 !! job_id) [(site, flushed w)])
    with (match batch_jobs (flushed w) !! job_id with
          | Some r' => [r']
          | None => []
          end).
  by rewrite (flushed_lookup _ _ _ _ Hvar Hrow).
Qed.

Lemma bounded_committed site w :
  bounded job_id n w → bounded job_id n (committed site w).
Proof.
  intros (loaded & r & Hvar & Hrow & Htotal & Hpc & Hd & Hlog & Hlen & Hempty).
  pose proof (flushed_lookup _ _ _ _ Hvar Hrow) as Hflushed.
  assert (processed_count r ≤ processed_count (flush_job (dirty w) r) ≤ n) as Hnew.
  { simpl. destruct (d_processed_count (dirty w)) as [v|]; simpl; [by apply Hd|lia]. }
  exists loaded, (flush_job (dirty w) r).
  split; [done|]. split; [exact Hflushed|]. split; [done|]. split; [lia|].
  split; [done|].
  rewrite (committed_rows_committed site w loaded r) by done.
  split; [|split].
  - apply (log_ok_snoc n (processed_count r)); [done|done|lia|lia|].
    intros Hnil. rewrite Hnil in Hlen. simpl in Hlen.
    destruct (commits w); [|done].
    destruct Hempty as [H0 Hnone]; [done|]. simpl. by rewrite Hnone.
  - rewrite length_app. simpl commits. rewrite length_app. simpl. lia.
  - simpl commits. intros Hnil. by destruct (commits w).
Qed.

Lemma pc_le_committed site w loaded r :
  job_var w = Some (job_id, loaded) → batch_jobs (db w) !! job_id = Some r →
  pc_le job_id (default (processed_count r) (d_processed_count (dirty w)))
        (committed site w).
Proof.
  intros Hvar Hrow r' Hrow'.
  change (db (committed site w)) with (flushed w) in Hrow'.
  rewrite (flushed_lookup _ _ _ _ Hvar Hrow) in Hrow'.
  injection Hrow' as <-. done.
Qed.

(** Assigning an attribute other than processed_count. *)
Lemma bounded_set_dirty_other d w :
  d_processed_count d = d_processed_count (dirty w) →
  bounded job_id n w → bounded job_id n (set_dirty d w).
Proof.
  intros Hd (loaded & r & Hvar & Hrow & Htotal & Hpc & Hdirty & Hlog & Hlen & Hempty).
  exists loaded, r. simpl. rewrite Hd. done.
Qed.

(** [job.processed_count = v] once something was committed. *)
Lemma bounded_set_processed_count d v w :
  d_processed_count d = Some v → commits w ≠ [] →
  pc_le job_id v w → v ≤ n →
  bounded job_id n w → bounded job_id n (set_dirty d w).
Proof.
  intros Hd Hne Hle Hv
    (loaded & r & Hvar & Hrow & Htotal & Hpc & Hdirty & Hlog & Hlen & Hempty).
  exists loaded, r. simpl. rewrite Hd.
  split; [done|]. split; [done|]. split; [done|]. split; [done|].
  split; [|done]. intros v' [= <-]. split; [by apply Hle|done].
Qed.

Lemma bounded_refresh row w :
  bounded job_id n w →
  bounded job_id n (set_dirty clean (set_job_var (Some (job_id, row)) w)).
Proof.
  intros (loaded & r & Hvar & Hrow & Htotal & Hpc & Hdirty & Hlog & Hlen & Hempty).
  exists row, r. simpl.
  split; [done|]. split; [done|]. split; [done|]. split; [done|].
  split; [done|]. split; [done|]. split; [done|].
  intros Hnil. split; [|done]. by apply Hempty.
Qed.

Lemma bounded_close w : bounded job_id n w → bounded job_id n (close w).
Proof.
  intros (loaded & r & Hvar & Hrow & Htotal & Hpc & Hdirty & Hlog & Hlen & Hempty).
  exists loaded, r. simpl.
  split; [done|]. split; [done|]. split; [done|]. split; [done|].
  split; [done|]. split; [done|]. split; [done|].
  intros Hnil. split; [|done]. by apply Hempty.
Qed.

Lemma process_batches_bounded company_ids batch_size starts :
  ∀ processed w r w',
    bounded job_id n w → commits w ≠ [] → pc_le job_id processed w →
    processed + attempted company_ids batch_size starts ≤ n →
    process_batches E job_id company_ids batch_size starts processed w = (r, w') →
    bounded job_id n w'
    ∧ match r with
      | Normal processed' =>
          commits w' ≠ [] ∧ pc_le job_id processed' w' ∧ processed' ≤ n
      | Abort _ => True
      end.
Proof.
  induction starts as [|i rest IH]; intros processed w r w' Hb Hne Hle Hn; simpl.
  - intros [= <- <-]. simpl in Hn. split; [done|]. split; [done|]. split; [done|lia].
  - simpl in Hn. pose proof (attempted_nonneg company_ids batch_size rest) as Hrest.
    unfold exec_bind at 1.
    destruct (refresh_cases E job_id w)
      as [(e & -> & Hsite) | (row & Hf & Hrow & ->)].
    { intros [= <- <-]. split; [|done].
      eapply bounded_undisturbed; [apply arrive_undisturbed | done]. }
    set (w1 := set_dirty clean (set_job_var (Some (job_id, row)) (arrive E w))).
    assert (bounded job_id n w1) as Hb1.
    { apply bounded_refresh.
      eapply bounded_undisturbed; [apply arrive_undisturbed | done]. }
    assert (pc_le job_id processed w1) as Hle1.
    { destruct Hb as (_ & r0 & _ & Hr0 & _).
      change (pc_le job_id processed (arrive E w)).
      apply (pc_le_undisturbed processed w); [|by exists r0|done].
      apply arrive_undisturbed. }
    assert (commits w1 ≠ []) as Hne1 by done.
    assert (dirty w1 = clean) as Hclean1 by done.
    simpl. case_decide as Hcancelled.
    { unfold exec_bind, print, return_. intros [= <- <-]. split; [|done].
      destruct Hb1 as (loaded & r1 & ?). by exists loaded, r1. }
    unfold exec_bind at 1.
    destruct (process_batch E row (slice company_ids i (i + batch_size)) w1)
      as [[[]|x] w2] eqn:Hbatch;
      apply process_batch_frame in Hbatch as (w1' & Hu & Hshape).
    2:{ intros [= <- <-]. split; [|done]. destruct x as [|e]; [done|].
        destruct Hshape as (-> & _). by eapply bounded_undisturbed. }
    assert (bounded job_id n w2 ∧ commits w2 ≠ [] ∧ pc_le job_id processed w2)
      as (Hb2 & Hne2 & Hle2).
    { pose proof (bounded_undisturbed _ _ Hu Hb1) as Hb1'.
      assert (pc_le job_id processed w1') as Hle1'.
      { destruct Hb1 as (_ & r1 & _ & Hr1 & _).
        apply (pc_le_undisturbed processed w1); [done|by exists r1|done]. }
      destruct Hu as (_ & Hdirty & Hcommits & _).
      destruct Hshape as [[-> _] | (site & _ & ->)].
      - split; [done|]. split; [congruence|done].
      - split; [by apply bounded_committed|].
        split; [apply committed_commits_nonempty|].
        destruct Hb1' as (loaded & r1' & Hvar & Hr1' & _).
        pose proof (pc_le_committed site w1' loaded r1' Hvar Hr1') as Hc.
        rewrite Hdirty, Hclean1 in Hc. simpl in Hc.
        intros r' Hr'. specialize (Hc r' Hr'). specialize (Hle1' r1' Hr1'). lia. }
    unfold exec_bind at 1. unfold assign_processed_count, assign.
    destruct Hb2 as (loaded & r2 & Hvar2 & Hrow2 & Hb2). rewrite Hvar2.
    unfold exec_bind at 1.
    match goal with |- context [commit E AtCommitProgress (set_dirty ?d w2)] =>
      assert (bounded job_id n (arrive E (set_dirty d w2))) as Hb3;
      [| destruct (commit_cases E AtCommitProgress (set_dirty d w2))
           as [(msg & _ & ->) | [_ ->]];
         [by intros [= <- <-]|] ]
    end.
    { eapply bounded_undisturbed; [apply arrive_undisturbed|].
      eapply (bounded_set_processed_count _ _ w2); [done|done| |lia|].
      - intros r' Hr'. specialize (Hle2 r' Hr'). lia.
      - by exists loaded, r2. }
    intros Hrun. eapply IH in Hrun; [exact Hrun| | | |].
    + by apply bounded_committed.
    + apply committed_commits_nonempty.
    + destruct Hb3 as (loaded3 & r3 & Hvar3 & Hrow3 & _).
      pose proof (pc_le_committed AtCommitProgress _ loaded3 r3 Hvar3 Hrow3) as Hc.
      exact Hc.
    + lia.
Qed.

End Progress.

Section ProgressRuns.

Variable E : Env.
Variable job_id : uuid.

Lemma commit_bounded n site w r w' :
  bounded job_id n w → commit E site w = (r, w') → bounded job_id n w'.
Proof.
  intros Hb.
  assert (bounded job_id n (arrive E w)) as Hb'
    by (eapply bounded_undisturbed; [apply arrive_undisturbed | done]).
  destruct (commit_cases E site w) as [(msg & _ & ->) | [_ ->]];
    intros [= <- <-]; [done|]. by apply bounded_committed.
Qed.

Lemma except_block_bounded n e w r w' :
  bounded job_id n w → except_block E e w = (r, w') → bounded job_id n w'.
Proof.
  intros Hb. pose proof Hb as (loaded & r0 & Hvar & _).
  unfold except_block, exec_bind at 1, assign_status at 1, assign at 1.
  rewrite Hvar.
  unfold exec_bind at 1, assign_error_message at 1, assign at 1.
  simpl job_var. rewrite Hvar.
  apply commit_bounded.
  apply bounded_set_dirty_other; [done|].
  by apply bounded_set_dirty_other.
Qed.

Lemma try_block_bounded st row0 r w' :
  batch_jobs st !! job_id = Some row0 → fresh_row row0 →
  try_block E job_id (new_session st) = (r, w') →
  (job_var w' = None ∧ commits w' = []) ∨ bounded job_id (total_count row0) w'.
Proof.
  intros Hrow0 [Hzero Htotal]. unfold try_block, exec_bind at 1, query_job.
  match goal with |- context [db_op E AtQueryJob ?f ?w] =>
    destruct (db_op_cases E AtQueryJob f w) as [(msg & _ & ->) | [_ ->]]
  end; [intros [= <- <-]; by left|].
  destruct (arrive_lookup E job_id (new_session st) row0 Hrow0) as (s1 & Hrow1 & _).
  rewrite Hrow1. cbn [fmap option_fmap option_map]. cbv iota beta.
  set (w1 := set_job_var (Some (job_id, set_status s1 row0))
               (arrive E (new_session st))).
  assert (bounded job_id (total_count row0) w1) as Hb1.
  { exists (set_status s1 row0), (set_status s1 row0).
    split; [done|]. split; [exact Hrow1|]. split; [done|].
    simpl. rewrite Hzero. split; [lia|]. split; [done|].
    split; [|done]. split; [apply Forall_nil_2|]. split; [|done].
    apply nondecreasing_nil. }
  intros Hrun. right. revert Hrun.
  case_decide as Hcancelled.
  { unfold exec_bind, print, return_. intros [= <- <-].
    destruct Hb1 as (loaded & r1 & ?). by exists loaded, r1. }
  unfold exec_bind at 1, assign_status at 1, assign at 1. simpl job_var.
  cbv iota beta. unfold exec_bind at 1.
  match goal with |- context [commit E AtCommitStart (set_dirty ?d w1)] =>
    assert (bounded job_id (total_count row0) (arrive E (set_dirty d w1))) as Hb2;
    [ eapply bounded_undisturbed; [apply arrive_undisturbed|];
      by apply bounded_set_dirty_other
    | destruct (commit_cases E AtCommitStart (set_dirty d w1))
        as [(msg & _ & ->) | [_ ->]];
      [by intros [= <- <-]|] ]
  end.
  unfold exec_bind at 1.
  match goal with |- context [process_batches E job_id ?ids ?b ?starts 0 ?w3] =>
    assert (bounded job_id (total_count row0) w3) as Hb3
      by (by apply bounded_committed);
    assert (commits w3 ≠ []) as Hne3 by apply committed_commits_nonempty;
    assert (pc_le job_id 0 w3) as Hle3;
    [| assert (0 + attempted ids b starts ≤ total_count row0) as Hn3
         by (simpl company_ids_json; rewrite attempted_all; lia);
       destruct (process_batches E job_id ids b starts 0 w3) as [[processed|x] w4]
         eqn:Hloop;
       apply (process_batches_bounded E job_id (total_count row0)
                _ _ _ _ _ _ _ Hb3 Hne3 Hle3 Hn3) in Hloop ]
  end.
  - destruct Hb2 as (loaded2 & r2 & Hvar2 & Hrow2 & _ & _ & _ & _ & _ & Hempty).
    destruct Hempty as [Hzero2 Hnone2]; [done|].
    pose proof (pc_le_committed job_id AtCommitStart _ loaded2 r2 Hvar2 Hrow2) as Hc.
    rewrite Hnone2, Hzero2 in Hc. exact Hc.
  - destruct Hloop as (Hb4 & Hne4 & Hle4 & Hn4).
    pose proof Hb4 as (loaded4 & r4 & Hvar4 & _).
    unfold exec_bind at 1, assign_processed_count at 1, assign at 1.
    rewrite Hvar4. unfold exec_bind at 1.
    match goal with |- context [commit E AtCommitFinalProgress ?w5] =>
      assert (bounded job_id (total_count row0) w5) as Hb5
        by (eapply bounded_set_processed_count;
            [reflexivity | exact Hne4 | exact Hle4 | exact Hn4 | exact Hb4]);
      destruct (commit E AtCommitFinalProgress w5) as [[[]|x] w6] eqn:Hcommit;
      apply (commit_bounded _ _ _ _ _ Hb5) in Hcommit
    end; [|by intros [= <- <-]].
    pose proof Hcommit as (loaded6 & r6 & Hvar6 & _).
    unfold exec_bind at 1, assign_status at 1, assign at 1.
    rewrite Hvar6. apply commit_bounded.
    by apply bounded_set_dirty_other.
  - intros [= <- <-]. by destruct Hloop as [? _].
Qed.

End ProgressRuns.

(** C2: for a job as the submission handlers create it (processed_count 0,
    total_count the number of ids), whatever the other handlers do and
    whatever fails, the states a run commits all hold the row of the job,
    the first of them has processed_count = 0, the values of
    processed_count never decrease from one committed state to the next,
    and each satisfies 0 <= processed_count <= total_count. *)
Theorem processed_count_monotone_bounded E job_id st row0 :
  batch_jobs st !! job_id = Some row0 → fresh_row row0 →
  let w' := (process_batch_job E job_id st).2 in
  let rows := committed_rows job_id w' in
  length rows = length (commits w')
  ∧ (∀ x, head (processed_count <$> rows) = Some x → x = 0)
  ∧ nondecreasing (processed_count <$> rows)
  ∧ Forall (λ r, 0 ≤ processed_count r ≤ total_count r) rows.
Proof.
  intros Hrow0 Hfresh.
  assert ((job_var (process_batch_job E job_id st).2 = None
           ∧ commits (process_batch_job E job_id st).2 = [])
          ∨ bounded job_id (total_count row0) (process_batch_job E job_id st).2)
    as Hfinal.
  { unfold process_batch_job.
    destruct (try_block E job_id (new_session st)) as [[[]|[|e]] w1] eqn:Htry;
      apply (try_block_bounded E job_id st row0 _ _ Hrow0 Hfresh) in Htry.
    - destruct Htry as [[? ?] | Hb]; [by left|right].
      by apply bounded_close.
    - destruct Htry as [[? ?] | Hb]; [by left|right].
      by apply bounded_close.
    - destruct Htry as [[Hvar Hnil] | Hb].
      + left. unfold except_block, exec_bind, assign_status, assign.
        rewrite Hvar. done.
      + right. destruct (except_block E e w1) as [c w2] eqn:Hexcept.
        apply (except_block_bounded E job_id _ _ _ _ _ Hb) in Hexcept.
        apply bounded_close in Hexcept.
        by destruct c as [[]|[|e']]. }
  intros w' rows. subst w' rows.
  destruct Hfinal as [[_ Hnil] | Hb].
  - unfold committed_rows. rewrite Hnil. simpl.
    split; [done|]. split; [done|]. split; [|done].
    apply nondecreasing_nil.
  - destruct Hb as (_ & r & _ & _ & Htotal & Hpc & _ & (Hall & Hmono & Hhead) & Hlen & _).
    split; [done|]. split; [done|]. split; [done|].
    eapply Forall_impl; [exact Hall|]. simpl. intros r' [-> ?]. lia.
Qed.

Lemma processed_count_monotone_bounded_witness :
  let w' := (process_batch_job fail_at_second_chunk 7%N pending_store).2 in
  let rows := committed_rows 7%N w' in
  length rows = length (commits w')
  ∧ (∀ x, head (processed_count <$> rows) = Some x → x = 0)
  ∧ nondecreasing (processed_count <$> rows)
  ∧ Forall (λ r, 0 ≤ processed_count r ≤ total_count r) rows.
Proof.
  apply (processed_count_monotone_bounded fail_at_second_chunk 7%N pending_store
           (new_BatchJob ADD 1%N (Some 2%N) 3 [10; 11; 12])).
  - reflexivity.
  - split; reflexivity.
Defined.

(* ===================================================================== *)
(** * 8. The executor when nothing fails and nobody cancels the job *)
(* ===================================================================== *)

Lemma running_totals_range_from company_ids b fuel i :
  (0 < b)%nat →
  running_totals company_ids b (Z.of_nat i)
    (range_from fuel i (length company_ids) b)
  = (λ j, Z.of_nat ((j + b) `min` length company_ids))
      <$> range_from fuel i (length company_ids) b.
Proof.
  intros Hb. revert i. induction fuel as [|fuel IH]; intros i; simpl; [done|].
  case_decide as Hlt; [|done]. simpl. rewrite slice_length.
  replace (Z.of_nat i + Z.of_nat (b `min` (length company_ids - i)))
    with (Z.of_nat ((i + b) `min` length company_ids)) by lia.
  f_equal.
  destruct (decide (i + b < length company_ids)%nat) as [Hmore|Hlast].
  - replace ((i + b) `min` length company_ids)%nat with (i + b)%nat by lia.
    apply IH.
  - destruct fuel as [|fuel']; simpl; [done|].
    by rewrite decide_False by lia.
Qed.

Lemma progress_sequence_commits job_id w w1 :
  commits w1 = commits w →
  progress_sequence job_id w1 = progress_sequence job_id w.
Proof. intros Hcommits. unfold progress_sequence. by rewrite Hcommits. Qed.

Lemma progress_sequence_committed job_id site w :
  site ≠ AtCommitProgress →
  progress_sequence job_id (committed site w) = progress_sequence job_id w.
Proof.
  intros Hsite. unfold progress_sequence.
  change (commits (committed site w)) with (commits w ++ [(site, flushed w)]).
  rewrite omap_app. simpl. rewrite decide_False by done. simpl.
  by rewrite app_nil_r.
Qed.

Lemma progress_sequence_progress job_id w loaded r :
  job_var w = Some (job_id, loaded) → batch_jobs (db w) !! job_id = Some r →
  progress_sequence job_id (committed AtCommitProgress w)
  = progress_sequence job_id w ++ [processed_count (flush_job (dirty w) r)].
Proof.
  intros Hvar Hrow. unfold progress_sequence.
  change (commits (committed AtCommitProgress w))
    with (commits w ++ [(AtCommitProgress, flushed w)]).
  rewrite omap_app, fmap_app. f_equal.
  change (omap (λ c : Site * Store,
                  if decide (c.1 = AtCommitProgress) then batch_jobs c.2 !! job_id
                  else None)
               [(AtCommitProgress, flushed w)])
    with (match batch_jobs (flushed w) !! job_id with
          | Some r' => [r']
          | None => []
          end).
  by rewrite (flushed_lookup _ _ _ _ Hvar Hrow).
Qed.

Lemma assign_ok f w job_id loaded :
  job_var w = Some (job_id, loaded) →
  assign f w = (Normal tt, set_dirty (f (dirty w)) w).
Proof. intros Hvar. unfold assign. by rewrite Hvar. Qed.

Lemma assign_status_ok s w job_id loaded :
  job_var w = Some (job_id, loaded) →
  ∃ d, assign_status s w = (Normal tt, set_dirty d w)
       ∧ d_processed_count d = d_processed_count (dirty w).
Proof. intros Hvar. eexists. split; [by eapply assign_ok|done]. Qed.

Lemma assign_ok_status s w d :
  assign_status s w = (Normal tt, set_dirty d w) → d_status d = Some s.
Proof.
  unfold assign_status, assign. destruct (job_var w); [|done].
  intros [= Hd]. by rewrite <- Hd.
Qed.

Lemma assign_processed_count_ok p w job_id loaded :
  job_var w = Some (job_id, loaded) →
  ∃ d, assign_processed_count p w = (Normal tt, set_dirty d w)
       ∧ d_processed_count d = Some p.
Proof. intros Hvar. eexists. split; [by eapply assign_ok|done]. Qed.

Section Quiet.

Variable E : Env.
Variable job_id : uuid.
Hypothesis no_fault : ∀ t, fault E t = None.
Hypothesis no_cancel : ∀ t, job_id ∉ interference E t.

Lemma arrive_quiet w :
  batch_jobs (db (arrive E w)) !! job_id = batch_jobs (db w) !! job_id.
Proof. destruct (arrive_undisturbed E w) as (_&_&_&_&_&Hk). by apply Hk. Qed.

Lemma live_undisturbed w w1 : undisturbed E w w1 → live job_id w → live job_id w1.
Proof.
  intros (Hvar & Hdirty & _ & _ & _ & Hk) ([loaded Hl] & Hclean & r & Hrow & Hs).
  split; [exists loaded; congruence|]. split; [congruence|].
  exists r. rewrite Hk by done. done.
Qed.

Lemma live_committed site w : live job_id w → live job_id (committed site w).
Proof.
  intros ([loaded Hl] & Hclean & r & Hrow & Hs).
  split; [by exists loaded|]. split; [done|]. exists r. split; [|done].
  change (db (committed site w)) with (flushed w).
  rewrite (flushed_lookup _ _ _ _ Hl Hrow), Hclean. by rewrite flush_job_clean.
Qed.

Lemma commit_ok site w :
  commit E site w = (Normal tt, committed site (arrive E w)).
Proof.
  destruct (commit_cases E site w) as [(msg & Hf & _) | [_ ->]]; [|done].
  by rewrite no_fault in Hf.
Qed.

Lemma process_batch_ok row batch_ids w :
  live job_id w →
  ∃ w', process_batch E row batch_ids w = (Normal tt, w')
        ∧ live job_id w'
        ∧ progress_sequence job_id w' = progress_sequence job_id w.
Proof.
  intros Hlive.
  destruct (process_batch E row batch_ids w) as [[[]|x] w'] eqn:Hbatch;
    apply process_batch_frame in Hbatch as (w1 & Hu & Hshape).
  - exists w'. split; [done|].
    pose proof (live_undisturbed _ _ Hu Hlive) as Hlive1.
    assert (progress_sequence job_id w1 = progress_sequence job_id w) as Hseq.
    { destruct Hu as (_ & _ & Hcommits & _). unfold progress_sequence.
      by rewrite Hcommits. }
    destruct Hshape as [[-> _] | (site & Hsite & ->)]; [done|].
    split; [by apply live_committed|].
    rewrite progress_sequence_committed; [done|].
    by destruct Hsite as [-> | ->].
  - destruct x as [|e]; [done|]. destruct Hshape as (_ & _ & t & Hf).
    by rewrite no_fault in Hf.
Qed.

(** Without faults and cancellation the loop runs every chunk; the k-th
    progress commit writes the number of ids of the first k chunks. *)
Lemma process_batches_quiet company_ids batch_size starts :
  ∀ processed w,
    live job_id w →
    ∃ w',
      process_batches E job_id company_ids batch_size starts processed w
      = (Normal (processed + attempted company_ids batch_size starts), w')
      ∧ live job_id w'
      ∧ progress_sequence job_id w'
        = progress_sequence job_id w
          ++ running_totals company_ids batch_size processed starts.
Proof.
  induction starts as [|i rest IH]; intros processed w Hlive; simpl.
  - exists w. split; [unfold exec_ret; do 2 f_equal; lia|].
    split; [done|]. by rewrite app_nil_r.
  - destruct Hlive as ([loaded Hvar] & Hclean & r & Hrow & Hstatus).
    unfold exec_bind at 1, refresh, db_op. rewrite no_fault, arrive_quiet, Hrow.
    set (w1 := set_dirty clean (set_job_var (Some (job_id, r)) (arrive E w))).
    assert (live job_id w1) as Hlive1.
    { split; [by eexists|]. split; [done|]. exists r.
      split; [|done]. change (db w1) with (db (arrive E w)).
      by rewrite arrive_quiet. }
    simpl. rewrite decide_False by done.
    destruct (process_batch_ok r (slice company_ids i (i + batch_size)) w1 Hlive1)
      as (w2 & Hbatch & Hlive2 & Hseq2).
    unfold exec_bind at 1. rewrite Hbatch.
    destruct Hlive2 as ([loaded2 Hvar2] & Hclean2 & r2 & Hrow2 & Hstatus2).
    unfold exec_bind at 1, assign_processed_count, assign. rewrite Hvar2, Hclean2.
    unfold exec_bind at 1. rewrite commit_ok.
    match goal with |- context [committed AtCommitProgress (arrive E ?w3)] =>
      set (w4 := committed AtCommitProgress (arrive E w3));
      assert (batch_jobs (db (arrive E w3)) !! job_id = Some r2) as Hrow3
        by (by rewrite arrive_quiet);
      assert (job_var (arrive E w3) = Some (job_id, loaded2)) as Hvar3
        by exact Hvar2
    end.
    assert (live job_id w4) as Hlive4.
    { split; [by exists loaded2|]. split; [done|]. eexists. split.
      - exact (flushed_lookup _ _ _ _ Hvar3 Hrow3).
      - done. }
    destruct (IH (processed + Z.of_nat (length (slice company_ids i (i + batch_size))))
                w4 Hlive4) as (w' & Hrun & Hlive' & Hseq').
    exists w'. split; [rewrite Hrun; do 2 f_equal; lia|]. split; [done|].
    rewrite Hseq'. unfold w4.
    rewrite (progress_sequence_progress job_id _ loaded2 r2 Hvar3 Hrow3).
    simpl. rewrite <- app_assoc. simpl. f_equal.
    exact Hseq2.
Qed.

Lemma query_job_ok w row :
  batch_jobs (db w) !! job_id = Some row →
  query_job E job_id w
  = (Normal (Some (job_id, row)),
     set_job_var (Some (job_id, row)) (arrive E w)).
Proof.
  intros Hrow. unfold query_job, db_op.
  by rewrite no_fault, arrive_quiet, Hrow.
Qed.

Lemma try_block_quiet st row0 :
  batch_jobs st !! job_id = Some row0 → status row0 ≠ CANCELLED →
  let company_ids := company_ids_json row0 in
  let batch_size := batch_size_for (length company_ids) in
  ∃ w',
    try_block E job_id (new_session st) = (Normal tt, w')
    ∧ progress_sequence job_id w'
      = running_totals company_ids batch_size 0
          (py_range (length company_ids) batch_size).
Proof.
  intros Hrow0 Hstatus company_ids batch_size. unfold try_block.
  rewrite (exec_bind_normal _ _ _ _ _ (query_job_ok (new_session st) row0 Hrow0)).
  rewrite decide_False by done.
  set (w1 := set_job_var (Some (job_id, row0)) (arrive E (new_session st))).
  assert (batch_jobs (db w1) !! job_id = Some row0) as Hrow1
    by (change (db w1) with (db (arrive E (new_session st)));
        by rewrite arrive_quiet).
  destruct (assign_status_ok IN_PROGRESS w1 job_id row0 eq_refl) as (d1 & Ha1 & _).
  rewrite (exec_bind_normal _ _ _ _ _ Ha1).
  rewrite (exec_bind_normal _ _ _ _ _ (commit_ok AtCommitStart _)).
  set (w2 := committed AtCommitStart (arrive E (set_dirty d1 w1))).
  assert (live job_id w2) as Hlive2.
  { split; [by exists row0|]. split; [done|]. eexists. split.
    - refine (flushed_lookup (arrive E (set_dirty d1 w1)) _ row0 row0 _ _); [done|].
      by rewrite arrive_quiet.
    - apply assign_ok_status in Ha1. simpl. by rewrite Ha1. }
  assert (progress_sequence job_id w2 = []) as Hseq2 by done.
  destruct (process_batches_quiet company_ids batch_size
              (py_range (length company_ids) batch_size) 0 w2 Hlive2)
    as (w3 & Hloop & Hlive3 & Hseq3).
  fold company_ids. fold batch_size.
  rewrite (exec_bind_normal _ _ _ _ _ Hloop).
  destruct Hlive3 as ([loaded3 Hvar3] & Hclean3 & r3 & Hrow3 & Hstatus3).
  destruct (assign_processed_count_ok
              (0 + attempted company_ids batch_size
                     (py_range (length company_ids) batch_size))
              w3 job_id loaded3 Hvar3) as (d3 & Ha3 & _).
  rewrite (exec_bind_normal _ _ _ _ _ Ha3).
  rewrite (exec_bind_normal _ _ _ _ _ (commit_ok AtCommitFinalProgress _)).
  set (w4 := committed AtCommitFinalProgress (arrive E (set_dirty d3 w3))).
  destruct (assign_status_ok COMPLETED w4 job_id loaded3 Hvar3) as (d4 & Ha4 & _).
  rewrite (exec_bind_normal _ _ _ _ _ Ha4).
  rewrite commit_ok.
  eexists. split; [done|].
  rewrite progress_sequence_committed by done.
  rewrite (progress_sequence_commits job_id w4) by done.
  unfold w4. rewrite progress_sequence_committed by done.
  rewrite (progress_sequence_commits job_id w3) by done.
  rewrite Hseq3, Hseq2. done.
Qed.

End Quiet.

(** C3: for a job with [total_count = n] ids that nothing cancels and where
    nothing fails, the run completes, and with chunk_size = 1 when n <= 100
    and chunk_size = 5 otherwise, the progress commit of the chunk starting
    at index i writes processed_count = min (i + chunk_size) n, for i over
    range(0, n, chunk_size); for n = 50 the committed sequence is
    1, 2, ..., 50 and for n = 250 it is 5, 10, ..., 250. *)
Theorem chunk_size_and_progress E job_id st row0 :
  (∀ t, fault E t = None) → (∀ t, job_id ∉ interference E t) →
  batch_jobs st !! job_id = Some row0 → status row0 ≠ CANCELLED →
  total_count row0 = Z.of_nat (length (company_ids_json row0)) →
  let n := Z.to_nat (total_count row0) in
  let chunk_size := if decide (n ≤ 100)%nat then 1%nat else 5%nat in
  let result := process_batch_job E job_id st in
  result.1 = Completed
  ∧ progress_sequence job_id result.2
    = (λ i, Z.of_nat ((i + chunk_size) `min` n)) <$> py_range n chunk_size
  ∧ (total_count row0 = 50 →
     progress_sequence job_id result.2 = Z.of_nat <$> seq 1 50)
  ∧ (total_count row0 = 250 →
     progress_sequence job_id result.2 = (λ k, 5 * Z.of_nat k) <$> seq 1 50).
Proof.
  intros Hfault Hcancel Hrow0 Hstatus Htotal n chunk_size result.
  destruct (try_block_quiet E job_id Hfault Hcancel st row0 Hrow0 Hstatus)
    as (w' & Htry & Hseq).
  assert (n = length (company_ids_json row0)) as Hn by (subst n; lia).
  assert (result = (Completed, close w')) as ->
    by (subst result; unfold process_batch_job; by rewrite Htry).
  assert (progress_sequence job_id (Completed, close w').2
          = (λ i, Z.of_nat ((i + chunk_size) `min` n)) <$> py_range n chunk_size)
    as Hclosed.
  { simpl. rewrite (progress_sequence_commits job_id w') by done.
    rewrite Hseq. unfold py_range.
    rewrite (running_totals_range_from _ _ _ 0%nat).
    - unfold batch_size_for. subst chunk_size. by rewrite <- Hn.
    - unfold batch_size_for. case_decide; lia. }
  split; [done|]. split; [exact Hclosed|].
  rewrite Hclosed. subst chunk_size n.
  split; intros ->; vm_compute; reflexivity.
Qed.

Lemma chunk_size_and_progress_witness :
  (process_batch_job quiet 9%N fifty_store).1 = Completed
  ∧ progress_sequence 9%N (process_batch_job quiet 9%N fifty_store).2
    = Z.of_nat <$> seq 1 50.
Proof.
  pose proof (chunk_size_and_progress quiet 9%N fifty_store
                (new_BatchJob ADD 1%N (Some 2%N) 50 (Z.of_nat <$> seq 1 50))) as H.
  simpl in H.
  destruct H as (Hdone & _ & H50 & _).
  - intros t. reflexivity.
  - intros t. apply not_elem_of_nil.
  - reflexivity.
  - discriminate.
  - reflexivity.
  - split; [exact Hdone|]. apply H50. reflexivity.
Defined.

(* ===================================================================== *)
(** * 9. ADD over ids that are all in the target collection *)
(* ===================================================================== *)

Lemma elem_of_slice {A : Type} (l : list A) (i j : nat) (x : A) :
  x ∈ slice l i j → x ∈ l.
Proof.
  unfold slice. intros Hx. apply (subseteq_drop i l). by apply (subseteq_take (j - i)).
Qed.

Lemma existsb_matches company collection rows :
  (∃ row, row ∈ rows ∧ company_id row = company ∧ collection_id row = collection) →
  existsb (matches company collection) rows = true.
Proof.
  intros (row & Hin & Hc & Hk).
  induction rows as [|row' rows IH]; [by apply elem_of_nil in Hin|].
  simpl. apply elem_of_cons in Hin as [<- | Hin].
  - unfold matches at 1. rewrite bool_decide_eq_true_2; done.
  - rewrite IH by done. by destruct (matches company collection row').
Qed.

Section Untouched.

Variable E : Env.
Variable job_id : uuid.
Variable row0 : BatchJob.
Variable A0 : list CompanyCollectionAssociation.

Hypothesis job_is_add : job_type row0 = ADD.
Hypothesis all_present :
  ∀ id, id ∈ company_ids_json row0 →
        existsb (matches id (target_collection_id row0)) A0 = true.

Lemma untouched_undisturbed w w1 :
  undisturbed E w w1 → pending w1 = pending w → untouched A0 w → untouched A0 w1.
Proof.
  intros (_ & _ & _ & _ & (Ha & _) & _) Hp [Hpend Hassoc].
  split; congruence.
Qed.

Lemma untouched_arrive w : untouched A0 w → untouched A0 (arrive E w).
Proof. apply untouched_undisturbed; [apply arrive_undisturbed | done]. Qed.

Lemma untouched_committed site w : untouched A0 w → untouched A0 (committed site w).
Proof.
  intros [Hpend Hassoc]. split; [done|]. simpl. unfold view.
  by rewrite Hpend.
Qed.

Lemma commit_untouched site w r w' :
  untouched A0 w → commit E site w = (r, w') → untouched A0 w'.
Proof.
  intros Hu. apply untouched_arrive in Hu.
  destruct (commit_cases E site w) as [(msg & _ & ->) | [_ ->]];
    intros [= <- <-]; [done|]. by apply untouched_committed.
Qed.

Lemma assign_untouched f w r w' :
  untouched A0 w → assign f w = (r, w') → untouched A0 w'.
Proof. intros Hu. unfold assign. destruct (job_var w); by intros [= <- <-]. Qed.

Lemma stage_additions_present batch_ids acc w r w' :
  untouched A0 w →
  (∀ id, id ∈ batch_ids → id ∈ company_ids_json row0) →
  stage_additions E (target_collection_id row0) batch_ids acc w = (r, w') →
  match r with
  | Normal associations_to_add => associations_to_add = acc
  | Abort _ => True
  end.
Proof.
  revert acc w. induction batch_ids as [|company_id rest IH];
    intros acc w Hu Hids; simpl.
  - by intros [= <- <-].
  - unfold exec_bind, query_association.
    match goal with |- context [db_op E AtQueryAssociation ?f w] =>
      destruct (db_op_cases E AtQueryAssociation f w) as [(msg & _ & ->) | [_ ->]]
    end; [by intros [= <- <-]|].
    pose proof (untouched_arrive w Hu) as [Hpend Hassoc].
    unfold view. rewrite Hpend, Hassoc. simpl apply_writes.
    rewrite all_present by (apply Hids; by left).
    apply IH; [by split|]. intros id Hid. apply Hids. by right.
Qed.

Lemma process_batch_untouched row batch_ids w r w' :
  same_but_progress row0 row → untouched A0 w →
  (∀ id, id ∈ batch_ids → id ∈ company_ids_json row0) →
  process_batch E row batch_ids w = (r, w') →
  undisturbed E w w' ∧ untouched A0 w'.
Proof.
  intros (Htype & _ & Htarget & _) Hu Hids. unfold process_batch.
  rewrite Htype, job_is_add, Htarget. unfold exec_bind.
  destruct (stage_additions E (target_collection_id row0) batch_ids [] w)
    as [[to_add|x] w1] eqn:Hstage.
  - pose proof (stage_additions_present _ _ _ _ _ Hu Hids Hstage) as ->.
    apply stage_additions_frame in Hstage as (Hund & Hp & _).
    intros [= <- <-]. split; [done|]. by eapply untouched_undisturbed.
  - apply stage_additions_frame in Hstage as (Hund & Hp & _).
    intros [= <- <-]. split; [done|]. by eapply untouched_undisturbed.
Qed.

Lemma process_batches_untouched batch_size starts :
  ∀ processed w r w',
    tracked job_id row0 w → untouched A0 w →
    process_batches E job_id (company_ids_json row0) batch_size starts processed w
    = (r, w') →
    untouched A0 w'.
Proof.
  induction starts as [|i rest IH]; intros processed w r w' Ht Hu; simpl.
  - by intros [= <- <-].
  - unfold exec_bind at 1.
    destruct (refresh_cases E job_id w)
      as [(e & -> & Hsite) | (row & Hf & Hrow & ->)].
    { intros [= <- <-]. by apply untouched_arrive. }
    set (w1 := set_dirty clean (set_job_var (Some (job_id, row)) (arrive E w))).
    pose proof (tracked_undisturbed E job_id row0 _ _ (arrive_undisturbed E w) Ht)
      as (_ & r1 & Hr1 & Hsame).
    rewrite Hrow in Hr1. injection Hr1 as <-.
    assert (tracked job_id row0 w1) as Ht1.
    { split; [by eexists|]. by exists row. }
    assert (untouched A0 w1) as Hu1 by (by apply untouched_arrive in Hu).
    simpl. case_decide as Hcancelled.
    { unfold exec_bind, print, return_. by intros [= <- <-]. }
    unfold exec_bind at 1.
    destruct (process_batch E row (slice (company_ids_json row0) i (i + batch_size)) w1)
      as [[[]|x] w2] eqn:Hbatch;
      apply process_batch_untouched in Hbatch as (Hund & Hu2);
      try done; try (intros id; apply elem_of_slice).
    2:{ by intros [= <- <-]. }
    pose proof (tracked_undisturbed E job_id row0 _ _ Hund Ht1) as Ht2.
    assert (dirty w2 = clean) as Hclean2 by (by destruct Hund as (_ & -> & _)).
    destruct Ht2 as ([loaded2 Hvar2] & Hrest2).
    unfold exec_bind at 1, assign_processed_count, assign. rewrite Hvar2, Hclean2.
    unfold exec_bind at 1.
    match goal with |- context [commit E AtCommitProgress ?w3] =>
      destruct (commit_cases E AtCommitProgress w3) as [(msg & _ & ->) | [_ ->]];
      [intros [= <- <-]; by apply (untouched_arrive w3)|];
      destruct (tracked_committed job_id row0 AtCommitProgress (arrive E w3))
        as [Hsync4 _];
      [ eapply tracked_undisturbed; [apply arrive_undisturbed|];
        split; [by exists loaded2 | exact Hrest2]
      | done
      | apply IH; [by apply in_sync_tracked|];
        apply untouched_committed; by apply (untouched_arrive w3) ]
    end.
Qed.

Lemma try_block_untouched st r w' :
  batch_jobs st !! job_id = Some row0 → associations st = A0 →
  try_block E job_id (new_session st) = (r, w') → untouched A0 w'.
Proof.
  intros Hrow0 Hassoc.
  assert (untouched A0 (new_session st)) as Hu0 by done.
  unfold try_block, exec_bind at 1, query_job.
  match goal with |- context [db_op E AtQueryJob ?f ?w] =>
    destruct (db_op_cases E AtQueryJob f w) as [(msg & _ & ->) | [_ ->]]
  end; [intros [= <- <-]; by apply untouched_arrive|].
  destruct (arrive_lookup E job_id (new_session st) row0 Hrow0) as (s1 & Hrow1 & _).
  rewrite Hrow1. cbn [fmap option_fmap option_map]. cbv iota beta.
  set (w1 := set_job_var (Some (job_id, set_status s1 row0))
               (arrive E (new_session st))).
  assert (untouched A0 w1) as Hu1 by (by apply untouched_arrive in Hu0).
  assert (tracked job_id row0 w1) as Ht1.
  { split; [by eexists|]. eexists. split; [exact Hrow1|done]. }
  case_decide as Hcancelled.
  { unfold exec_bind, print, return_. by intros [= <- <-]. }
  destruct (assign_status_ok IN_PROGRESS w1 job_id _ eq_refl) as (d1 & Ha1 & _).
  rewrite (exec_bind_normal _ _ _ _ _ Ha1). unfold exec_bind at 1.
  assert (d_error_message d1 = None) as Hd1.
  { revert Ha1. unfold assign_status, assign. simpl. by intros [= <-]. }
  destruct (commit_cases E AtCommitStart (set_dirty d1 w1))
    as [(msg & _ & ->) | [_ ->]];
    [intros [= <- <-]; by apply (untouched_arrive (set_dirty d1 w1))|].
  destruct (tracked_committed job_id row0 AtCommitStart (arrive E (set_dirty d1 w1)))
    as [Hsync2 _].
  { eapply tracked_undisturbed; [apply arrive_undisturbed|]. exact Ht1. }
  { exact Hd1. }
  unfold exec_bind at 1.
  match goal with |- context [process_batches E job_id ?ids ?b ?starts 0 ?w2] =>
    destruct (process_batches E job_id ids b starts 0 w2) as [[processed|x] w3]
      eqn:Hloop;
    apply process_batches_untouched in Hloop;
    [ | by apply in_sync_tracked
      | apply untouched_committed; by apply (untouched_arrive (set_dirty d1 w1))
      | | by apply in_sync_tracked
      | apply untouched_committed; by apply (untouched_arrive (set_dirty d1 w1)) ]
  end.
  2:{ by intros [= <- <-]. }
  unfold exec_bind at 1.
  destruct (assign_processed_count processed w3) as [[[]|x] w4] eqn:Ha4;
    apply (assign_untouched _ _ _ _ Hloop) in Ha4; [|by intros [= <- <-]].
  unfold exec_bind at 1.
  destruct (commit E AtCommitFinalProgress w4) as [[[]|x] w5] eqn:Hc5;
    apply (commit_untouched _ _ _ _ Ha4) in Hc5; [|by intros [= <- <-]].
  unfold exec_bind at 1.
  destruct (assign_status COMPLETED w5) as [[[]|x] w6] eqn:Ha6;
    apply (assign_untouched _ _ _ _ Hc5) in Ha6; [|by intros [= <- <-]].
  by apply commit_untouched.
Qed.

End Untouched.

(** C9: an ADD job all of whose ids already have an association with its
    target collection, run with nothing failing and nobody cancelling it,
    completes: the final row has status COMPLETED and
    processed_count = total_count, and the association table after the run
    is the table before it, row for row. *)
Theorem add_job_all_present E job_id st row0 :
  (∀ t, fault E t = None) → (∀ t, job_id ∉ interference E t) →
  batch_jobs st !! job_id = Some row0 → status row0 ≠ CANCELLED →
  job_type row0 = ADD →
  total_count row0 = Z.of_nat (length (company_ids_json row0)) →
  (∀ id, id ∈ company_ids_json row0 →
     ∃ row, row ∈ associations st ∧ company_id row = id
            ∧ collection_id row = target_collection_id row0) →
  let result := process_batch_job E job_id st in
  result.1 = Completed
  ∧ (∃ row, batch_jobs (db result.2) !! job_id = Some row
            ∧ status row = COMPLETED
            ∧ processed_count row = total_count row)
  ∧ associations (db result.2) = associations st.
Proof.
  intros Hfault Hcancel Hrow0 Hstatus Hadd Htotal Hpresent result.
  destruct (try_block_quiet E job_id Hfault Hcancel st row0 Hrow0 Hstatus)
    as (w' & Htry & _).
  assert (process_batch_job E job_id st = (Completed, close w')) as Hrun
    by (unfold process_batch_job; by rewrite Htry).
  subst result. rewrite Hrun. split; [done|]. split.
  - pose proof (try_block_sync E job_id st row0 _ _ Hrow0 Htry)
      as (log & row & _ & Hrow & Hs & Hp & (_ & _ & _ & Ht & _)).
    exists row. split; [exact Hrow|]. split; [exact Hs|]. congruence.
  - eapply (try_block_untouched E job_id row0 (associations st)) in Htry;
      [by destruct Htry as [_ ?] | done | | done | done].
    intros id Hid. apply existsb_matches. by apply Hpresent.
Qed.

Lemma add_job_all_present_witness :
  let result := process_batch_job quiet 7%N present_store in
  result.1 = Completed
  ∧ (∃ row, batch_jobs (db result.2) !! 7%N = Some row
            ∧ status row = COMPLETED
            ∧ processed_count row = total_count row)
  ∧ associations (db result.2) = associations present_store.
Proof.
  apply (add_job_all_present quiet 7%N present_store
           (new_BatchJob ADD 1%N (Some 2%N) 3 [10; 11; 12])).
  - intros t. reflexivity.
  - intros t. apply not_elem_of_nil.
  - reflexivity.
  - discriminate.
  - reflexivity.
  - reflexivity.
  - intros id Hid.
    exists {| company_id := id; collection_id := Some 2%N |}.
    split; [|split; reflexivity].
    apply elem_of_cons in Hid as [-> | Hid]; [repeat constructor|].
    apply elem_of_cons in Hid as [-> | Hid]; [repeat constructor|].
    apply elem_of_cons in Hid as [-> | Hid]; [repeat constructor|].
    by apply elem_of_nil in Hid.
Defined.

(* ===================================================================== *)
(** * 10. What a job does to the association table: the general rule *)
(* ===================================================================== *)

Lemma slices_range_from {A : Type} (l : list A) b fuel i :
  (0 < b)%nat → (length l - i ≤ fuel)%nat →
  concat ((λ j, slice l j (j + b)) <$> range_from fuel i (length l) b) = drop i l.
Proof.
  intros Hb. revert i. induction fuel as [|fuel IH]; intros i Hfuel; simpl.
  - by rewrite drop_ge by lia.
  - case_decide as Hlt; simpl.
    + rewrite IH by lia. unfold slice.
      replace (i + b - i)%nat with b by lia.
      rewrite <- (take_drop b (drop i l)) at 2. by rewrite drop_drop.
    + by rewrite drop_ge by lia.
Qed.

(** The chunks of [range(0, len(l), b)] are [l], cut in pieces. *)
Lemma slices_cover {A : Type} (l : list A) :
  let b := batch_size_for (length l) in
  concat ((λ j, slice l j (j + b)) <$> py_range (length l) b) = l.
Proof.
  intros b. unfold py_range. rewrite slices_range_from; [done| |lia].
  subst b. unfold batch_size_for. case_decide; lia.
Qed.

Lemma process_batch_tracked E job_id row0 row batch_ids w w' :
  tracked job_id row0 w → dirty w = clean →
  process_batch E row batch_ids w = (Normal tt, w') →
  tracked job_id row0 w' ∧ dirty w' = clean.
Proof.
  intros Ht Hclean Hbatch.
  apply process_batch_frame in Hbatch as (w1 & Hu & Hshape).
  pose proof (tracked_undisturbed E job_id row0 _ _ Hu Ht) as Ht1.
  assert (dirty w1 = clean) as Hclean1 by (destruct Hu as (_ & -> & _); done).
  destruct Hshape as [[-> _] | (site & _ & ->)]; [done|].
  split; [|done]. apply in_sync_tracked.
  apply tracked_committed; [done|]. by rewrite Hclean1.
Qed.

Section AssociationRule.

Variable E : Env.
Variable job_id : uuid.
Variable row0 : BatchJob.

(** [K done] is to hold between chunks, [done] being the ids of the chunks
    run so far; [I] is to hold wherever the run stops. *)
Variable K : list Z → World → Prop.
Variable I : World → Prop.

Hypothesis K_I : ∀ done w, K done w → I w.
Hypothesis K_ext : ∀ done w w1,
  associations (db w1) = associations (db w) → pending w1 = pending w →
  K done w → K done w1.
Hypothesis I_ext : ∀ w w1,
  associations (db w1) = associations (db w) → pending w1 = pending w →
  I w → I w1.
Hypothesis K_commit : ∀ done site w, K done w → K done (committed site w).
Hypothesis I_commit : ∀ site w, I w → I (committed site w).
Hypothesis K_close : ∀ done w, K done w → K done (close w).
Hypothesis I_close : ∀ w, I w → I (close w).
Hypothesis K_batch : ∀ done row batch_ids w r w',
  same_but_progress row0 row →
  (∀ id, id ∈ batch_ids → id ∈ company_ids_json row0) →
  (length batch_ids ≤ batch_size_for (length (company_ids_json row0)))%nat →
  K done w → process_batch E row batch_ids w = (r, w') →
  match r with
  | Normal _ => K (done ++ batch_ids) w'
  | Abort _ => I w'
  end.

Lemma arrive_associations w :
  associations (db (arrive E w)) = associations (db w).
Proof. by destruct (arrive_undisturbed E w) as (_&_&_&_&(?&_)&_). Qed.

Lemma K_arrive done w : K done w → K done (arrive E w).
Proof. apply K_ext; [apply arrive_associations | done]. Qed.

Lemma I_arrive w : I w → I (arrive E w).
Proof. apply I_ext; [apply arrive_associations | done]. Qed.

Lemma commit_rule done site w r w' :
  K done w → commit E site w = (r, w') →
  match r with
  | Normal _ => K done w'
  | Abort _ => I w'
  end.
Proof.
  intros HK. apply K_arrive in HK.
  destruct (commit_cases E site w) as [(msg & _ & ->) | [_ ->]];
    intros [= <- <-]; [by eapply K_I | by apply K_commit].
Qed.

Lemma commit_I site w r w' : I w → commit E site w = (r, w') → I w'.
Proof.
  intros HI. apply I_arrive in HI.
  destruct (commit_cases E site w) as [(msg & _ & ->) | [_ ->]];
    intros [= <- <-]; [done | by apply I_commit].
Qed.

Lemma assign_rule done f w r w' :
  K done w → assign f w = (r, w') →
  match r with
  | Normal _ => K done w'
  | Abort _ => I w'
  end.
Proof.
  intros HK. unfold assign. destruct (job_var w); intros [= <- <-].
  - by apply (K_ext done w).
  - by eapply K_I.
Qed.

Lemma assign_I f w r w' : I w → assign f w = (r, w') → I w'.
Proof.
  intros HI. unfold assign. destruct (job_var w); intros [= <- <-]; [|done].
  by apply (I_ext w).
Qed.

Lemma process_batches_rule starts :
  let company_ids := company_ids_json row0 in
  let b := batch_size_for (length company_ids) in
  ∀ done processed w r w',
    tracked job_id row0 w → K done w →
    process_batches E job_id company_ids b starts processed w = (r, w') →
    match r with
    | Normal _ =>
        K (done ++ concat ((λ i, slice company_ids i (i + b)) <$> starts)) w'
    | Abort _ => I w'
    end.
Proof.
  intros company_ids b.
  induction starts as [|i rest IH]; intros done processed w r w' Ht HK; simpl.
  - intros [= <- <-]. by rewrite app_nil_r.
  - unfold exec_bind at 1.
    destruct (refresh_cases E job_id w)
      as [(e & -> & Hsite) | (row & Hf & Hrow & ->)].
    { intros [= <- <-]. eapply K_I. by apply K_arrive. }
    set (w1 := set_dirty clean (set_job_var (Some (job_id, row)) (arrive E w))).
    pose proof (tracked_undisturbed E job_id row0 _ _ (arrive_undisturbed E w) Ht)
      as (_ & r1 & Hr1 & Hsame).
    rewrite Hrow in Hr1. injection Hr1 as <-.
    assert (tracked job_id row0 w1) as Ht1.
    { split; [by eexists|]. by exists row. }
    assert (K done w1) as HK1.
    { apply (K_ext done (arrive E w)); [done|done|]. by apply K_arrive. }
    simpl. case_decide as Hcancelled.
    { unfold exec_bind, print, return_. intros [= <- <-].
      eapply K_I. by apply (K_ext done w1). }
    unfold exec_bind at 1.
    destruct (process_batch E row (slice company_ids i (i + b)) w1)
      as [[[]|x] w2] eqn:Hbatch.
    2:{ intros [= <- <-].
        eapply (K_batch done row _ w1 (Abort x)); [done| | |done|exact Hbatch].
        - intros id. apply elem_of_slice.
        - rewrite slice_length. unfold b, company_ids. lia. }
    assert (K (done ++ slice company_ids i (i + b)) w2) as HK2.
    { eapply (K_batch done row _ w1 (Normal tt)); [done| | |done|exact Hbatch].
      - intros id. apply elem_of_slice.
      - rewrite slice_length. unfold b, company_ids. lia. }
    destruct (process_batch_tracked E job_id row0 _ _ _ _ Ht1 eq_refl Hbatch)
      as [Ht2 Hclean2].
    pose proof Ht2 as ([loaded2 Hvar2] & Hrest2).
    unfold exec_bind at 1, assign_processed_count, assign. rewrite Hvar2, Hclean2.
    unfold exec_bind at 1.
    match goal with |- context [commit E AtCommitProgress ?w3] =>
      assert (K (done ++ slice company_ids i (i + b)) w3) as HK3
        by (by apply (K_ext _ w2));
      destruct (commit_cases E AtCommitProgress w3) as [(msg & _ & ->) | [_ ->]];
      [intros [= <- <-]; eapply K_I; by apply K_arrive|];
      destruct (tracked_committed job_id row0 AtCommitProgress (arrive E w3))
        as [Hsync4 _];
      [ eapply tracked_undisturbed; [apply arrive_undisturbed|];
        split; [by exists loaded2 | exact Hrest2]
      | done
      | ]
    end.
    intros Hrun.
    eapply (IH (done ++ slice company_ids i (i + b))) in Hrun.
    + destruct r; [|done]. by rewrite <- app_assoc in Hrun.
    + by apply in_sync_tracked.
    + apply K_commit. by apply K_arrive.
Qed.

Lemma try_block_rule st r w' :
  batch_jobs st !! job_id = Some row0 → K [] (new_session st) →
  try_block E job_id (new_session st) = (r, w') →
  match r with
  | Normal _ => K (company_ids_json row0) w'
  | Abort _ => I w'
  end.
Proof.
  intros Hrow0 HK0.
  unfold try_block, exec_bind at 1, query_job.
  match goal with |- context [db_op E AtQueryJob ?f ?w] =>
    destruct (db_op_cases E AtQueryJob f w) as [(msg & _ & ->) | [_ ->]]
  end; [intros [= <- <-]; eapply K_I; by apply K_arrive|].
  destruct (arrive_lookup E job_id (new_session st) row0 Hrow0) as (s1 & Hrow1 & _).
  rewrite Hrow1. cbn [fmap option_fmap option_map]. cbv iota beta.
  set (w1 := set_job_var (Some (job_id, set_status s1 row0))
               (arrive E (new_session st))).
  assert (K [] w1) as HK1.
  { apply (K_ext [] (arrive E (new_session st))); [done|done|]. by apply K_arrive. }
  assert (tracked job_id row0 w1) as Ht1.
  { split; [by eexists|]. eexists. split; [exact Hrow1|done]. }
  case_decide as Hcancelled.
  { unfold exec_bind, print, return_. intros [= <- <-].
    eapply K_I. by apply (K_ext [] w1). }
  destruct (assign_status_ok IN_PROGRESS w1 job_id _ eq_refl) as (d1 & Ha1 & _).
  rewrite (exec_bind_normal _ _ _ _ _ Ha1). unfold exec_bind at 1.
  assert (d_error_message d1 = None) as Hd1.
  { revert Ha1. unfold assign_status, assign. simpl. by intros [= <-]. }
  assert (K [] (set_dirty d1 w1)) as HK1' by (by apply (K_ext [] w1)).
  destruct (commit_cases E AtCommitStart (set_dirty d1 w1))
    as [(msg & _ & ->) | [_ ->]];
    [intros [= <- <-]; eapply K_I; by apply K_arrive|].
  destruct (tracked_committed job_id row0 AtCommitStart (arrive E (set_dirty d1 w1)))
    as [Hsync2 _].
  { eapply tracked_undisturbed; [apply arrive_undisturbed|]. exact Ht1. }
  { exact Hd1. }
  unfold exec_bind at 1.
  match goal with |- context [process_batches E job_id ?ids ?b ?starts 0 ?w2] =>
    destruct (process_batches E job_id ids b starts 0 w2) as [[processed|x] w3]
      eqn:Hloop;
    apply (process_batches_rule _ []) in Hloop;
    [ | by apply in_sync_tracked | apply K_commit; by apply K_arrive
      | | by apply in_sync_tracked | apply K_commit; by apply K_arrive ]
  end.
  2:{ by intros [= <- <-]. }
  simpl app in Hloop. simpl company_ids_json in Hloop.
  rewrite slices_cover in Hloop.
  unfold exec_bind at 1.
  destruct (assign_processed_count processed w3) as [[[]|x] w4] eqn:Ha4;
    apply (assign_rule _ _ _ _ _ Hloop) in Ha4; [|by intros [= <- <-]].
  unfold exec_bind at 1.
  destruct (commit E AtCommitFinalProgress w4) as [[[]|x] w5] eqn:Hc5;
    apply (commit_rule _ _ _ _ _ Ha4) in Hc5; [|by intros [= <- <-]].
  unfold exec_bind at 1.
  destruct (assign_status COMPLETED w5) as [[[]|x] w6] eqn:Ha6;
    apply (assign_rule _ _ _ _ _ Hc5) in Ha6; [|by intros [= <- <-]].
  intros Hc7. by apply (commit_rule _ _ _ _ _ Ha6) in Hc7.
Qed.

(** The rule: whatever the environment does, a run ends in [I]; a run that
    completes ends in [K] of all the ids of the job. *)
Lemma process_batch_job_rule st :
  batch_jobs st !! job_id = Some row0 → K [] (new_session st) →
  I (process_batch_job E job_id st).2
  ∧ ((process_batch_job E job_id st).1 = Completed →
     K (company_ids_json row0) (process_batch_job E job_id st).2).
Proof.
  intros Hrow0 HK0. unfold process_batch_job.
  destruct (try_block E job_id (new_session st)) as [[[]|[|e]] w1] eqn:Htry;
    apply (try_block_rule st _ _ Hrow0 HK0) in Htry; simpl in Htry.
  - simpl. split; [apply I_close; by eapply K_I | intros _; by apply K_close].
  - simpl. split; [by apply I_close | done].
  - destruct (except_block E e w1) as [c w2] eqn:Hexcept.
    assert (I w2) as HI2.
    { revert Hexcept. unfold except_block, exec_bind at 1.
      destruct (assign_status FAILED w1) as [[[]|x] w1a] eqn:Ha;
        apply (assign_I _ _ _ _ Htry) in Ha; [|by intros [= <- <-]].
      unfold exec_bind at 1.
      destruct (assign_error_message (description e) w1a) as [[[]|x] w1b] eqn:Hb;
        apply (assign_I _ _ _ _ Ha) in Hb; [|by intros [= <- <-]].
      by apply commit_I. }
    apply I_close in HI2. by destruct c as [[]|[|e']]; simpl.
Qed.

End AssociationRule.

(* ===================================================================== *)
(** * 11. ADD jobs and the association table *)
(* ===================================================================== *)

Lemma apply_writes_inserts rows staged :
  apply_writes (Insert <$> staged) rows = rows ++ staged.
Proof.
  unfold apply_writes. revert rows.
  induction staged as [|row staged IH]; intros rows; simpl.
  - by rewrite app_nil_r.
  - rewrite IH. by rewrite <- app_assoc.
Qed.

Lemma existsb_matches_inv company collection rows :
  existsb (matches company collection) rows = true →
  ∃ row, row ∈ rows ∧ company_id row = company ∧ collection_id row = collection.
Proof.
  induction rows as [|row rows IH]; simpl; [done|].
  destruct (matches company collection row) eqn:Hm; simpl.
  - intros _. exists row. split; [by left|].
    unfold matches in Hm. by apply bool_decide_eq_true_1 in Hm.
  - intros Hrest. destruct (IH Hrest) as (row' & Hin & Hrow').
    exists row'. split; [by right | done].
Qed.

Lemma matches_self row :
  matches (company_id row) (collection_id row) row = true.
Proof. unfold matches. by apply bool_decide_eq_true_2. Qed.

Section Additions.

Variable E : Env.
Variable job_id : uuid.
Variable row0 : BatchJob.
Variable A0 : list CompanyCollectionAssociation.

Hypothesis job_is_add : job_type row0 = ADD.

Let target := target_collection_id row0.
Let company_ids := company_ids_json row0.

Lemma grown_view w added staged :
  associations (db w) = A0 ++ added → pending w = Insert <$> staged →
  view w = A0 ++ added ++ staged.
Proof.
  intros Ha Hp. unfold view. rewrite Ha, Hp, apply_writes_inserts.
  by rewrite <- app_assoc.
Qed.

Lemma grown_ext w w1 :
  associations (db w1) = associations (db w) → pending w1 = pending w →
  grown target company_ids A0 w → grown target company_ids A0 w1.
Proof.
  intros Ha Hp (added & staged & Hassoc & Hpend & Hok).
  exists added, staged. split; [congruence|]. split; [congruence|done].
Qed.

Lemma grown_commit site w :
  grown target company_ids A0 w → grown target company_ids A0 (committed site w).
Proof.
  intros (added & staged & Hassoc & Hpend & Hok).
  exists (added ++ staged), []. split.
  - change (associations (db (committed site w))) with (view w).
    by apply grown_view.
  - split; [done|]. by rewrite app_nil_r.
Qed.

Lemma grown_close w :
  grown target company_ids A0 w → grown target company_ids A0 (close w).
Proof.
  intros (added & staged & Hassoc & Hpend & Hok).
  exists added, []. split; [done|]. split; [done|].
  rewrite app_nil_r. by apply Forall_app in Hok as [? _].
Qed.

Lemma grown_arrive w :
  grown target company_ids A0 w → grown target company_ids A0 (arrive E w).
Proof. apply grown_ext; [apply arrive_associations | done]. Qed.

(** Whatever [stage_additions] stages is an addition of the job. *)
Lemma stage_additions_grown batch_ids :
  ∀ acc w r w',
    grown target company_ids A0 w →
    Forall (addition_of target company_ids A0) acc →
    (∀ id, id ∈ batch_ids → id ∈ company_ids) →
    stage_additions E target batch_ids acc w = (r, w') →
    grown target company_ids A0 w'
    ∧ match r with
      | Normal associations_to_add =>
          Forall (addition_of target company_ids A0) associations_to_add
      | Abort _ => True
      end.
Proof.
  induction batch_ids as [|company_id rest IH]; intros acc w r w' Hg Hacc Hids; simpl.
  - by intros [= <- <-].
  - unfold exec_bind, query_association.
    match goal with |- context [db_op E AtQueryAssociation ?f w] =>
      destruct (db_op_cases E AtQueryAssociation f w) as [(msg & _ & ->) | [_ ->]]
    end; [intros [= <- <-]; split; [by apply grown_arrive | done]|].
    apply IH; [by apply grown_arrive| |intros id Hid; apply Hids; by right].
    destruct (existsb (matches company_id target) (view (arrive E w))) eqn:Hex;
      [done|].
    apply Forall_app. split; [done|]. apply Forall_singleton.
    split; [done|]. split; [apply Hids; by left|]. simpl.
    pose proof (grown_arrive w Hg) as (added & staged & Ha & Hp & _).
    rewrite (grown_view _ _ _ Ha Hp), existsb_app in Hex.
    by apply orb_false_elim in Hex as [? _].
Qed.

Lemma process_batch_grown row batch_ids w r w' :
  same_but_progress row0 row →
  (∀ id, id ∈ batch_ids → id ∈ company_ids) →
  grown target company_ids A0 w →
  process_batch E row batch_ids w = (r, w') →
  grown target company_ids A0 w'.
Proof.
  intros (Htype & _ & Htarget & _) Hids Hg. unfold process_batch.
  rewrite Htype, job_is_add, Htarget. unfold exec_bind at 1.
  destruct (stage_additions E (target_collection_id row0) batch_ids [] w)
    as [[to_add|x] w1] eqn:Hstage;
    apply (stage_additions_grown _ _ _ _ _ Hg (Forall_nil_2 _) Hids) in Hstage
      as [Hg1 Hadd]; [|by intros [= <- <-]].
  destruct to_add as [|row1 to_add]; [by intros [= <- <-]|].
  unfold exec_bind, bulk_save_objects.
  match goal with |- context [db_op E AtBulkSave ?f w1] =>
    destruct (db_op_cases E AtBulkSave f w1) as [(msg & _ & ->) | [_ ->]]
  end; [intros [= <- <-]; by apply grown_arrive|].
  match goal with |- commit E AtCommitAdd ?w2 = _ → _ =>
    assert (grown target company_ids A0 w2) as Hg2
  end.
  { destruct (grown_arrive w1 Hg1) as (added & staged & Ha & Hp & Hok).
    exists added, (staged ++ row1 :: to_add). split; [exact Ha|]. split.
    - change (pending (arrive E w1)) with (pending w1) in Hp.
      simpl. rewrite Hp. by rewrite fmap_app.
    - rewrite app_assoc. apply Forall_app. by split. }
  match goal with |- commit E AtCommitAdd ?w2 = _ → _ =>
    destruct (commit_cases E AtCommitAdd w2) as [(msg & _ & ->) | [_ ->]]
  end; intros [= <- <-].
  - by apply grown_arrive.
  - apply grown_commit. by apply grown_arrive.
Qed.

(** At a chunk boundary, one chunk more: every staged row goes in, and
    every id of the chunk has its row afterwards. *)
Lemma stage_additions_covers batch_ids :
  ∀ acc w associations_to_add w',
    pending w = [] →
    stage_additions E target batch_ids acc w = (Normal associations_to_add, w') →
    ∃ more,
      associations_to_add = acc ++ more
      ∧ ∀ id, id ∈ batch_ids →
              existsb (matches id target) (associations (db w) ++ more) = true.
Proof.
  induction batch_ids as [|cid rest IH]; intros acc w to_add w' Hp; simpl.
  - intros [= <- <-]. exists []. split; [by rewrite app_nil_r|].
    intros id Hid. by apply elem_of_nil in Hid.
  - unfold exec_bind, query_association.
    match goal with |- context [db_op E AtQueryAssociation ?f w] =>
      destruct (db_op_cases E AtQueryAssociation f w) as [(msg & _ & ->) | [_ ->]]
    end; [done|].
    assert (view (arrive E w) = associations (db w)) as Hview.
    { unfold view. simpl pending. rewrite Hp. simpl.
      apply (arrive_associations E w). }
    rewrite Hview. intros Hrest.
    apply IH in Hrest as (more & -> & Hcov); [|done].
    rewrite (arrive_associations E w) in Hcov.
    destruct (existsb (matches cid target) (associations (db w))) eqn:Hex.
    + exists more. split; [done|]. intros id [-> | Hid]%elem_of_cons.
      * by rewrite existsb_app, Hex.
      * by apply Hcov.
    + exists ({| company_id := cid; collection_id := target |} :: more).
      split; [by rewrite <- app_assoc|].
      intros id [-> | Hid]%elem_of_cons.
      * rewrite existsb_app. simpl.
        pose proof (matches_self {| company_id := cid; collection_id := target |})
          as Hself.
        simpl in Hself. rewrite Hself. by rewrite orb_true_r.
      * specialize (Hcov id Hid). rewrite existsb_app in *. simpl.
        apply orb_true_iff in Hcov as [-> | ->]; [done|].
        by rewrite !orb_true_r.
Qed.

Lemma covered_ext done w w1 :
  associations (db w1) = associations (db w) → pending w1 = pending w →
  covered target done w → covered target done w1.
Proof. intros Ha Hp [Hpend Hcov]. split; [congruence|]. by rewrite Ha. Qed.

Lemma covered_commit done site w :
  covered target done w → covered target done (committed site w).
Proof.
  intros [Hpend Hcov]. split; [done|].
  change (associations (db (committed site w))) with (view w).
  unfold view. by rewrite Hpend.
Qed.

Lemma process_batch_covered done row batch_ids w w' :
  same_but_progress row0 row →
  covered target done w →
  process_batch E row batch_ids w = (Normal tt, w') →
  covered target (done ++ batch_ids) w'.
Proof.
  intros (Htype & _ & Htarget & _) [Hpend Hcov]. unfold process_batch.
  rewrite Htype, job_is_add, Htarget. unfold exec_bind at 1.
  destruct (stage_additions E (target_collection_id row0) batch_ids [] w)
    as [[to_add|x] w1] eqn:Hstage; [|done].
  pose proof (stage_additions_covers _ _ _ _ _ Hpend Hstage) as (more & -> & Hbatch).
  apply stage_additions_frame in Hstage as ((_&_&_&_&(Ha1&_)&_) & Hp1 & _).
  destruct more as [|row1 more]; cbn [app].
  - intros [= <-]. split; [congruence|]. rewrite Ha1.
    intros id [Hid | Hid]%elem_of_app; [by apply Hcov|].
    specialize (Hbatch id Hid). by rewrite app_nil_r in Hbatch.
  - unfold exec_bind, bulk_save_objects.
    match goal with |- context [db_op E AtBulkSave ?f w1] =>
      destruct (db_op_cases E AtBulkSave f w1) as [(msg & _ & ->) | [_ ->]]
    end; [done|].
    match goal with |- commit E AtCommitAdd ?w2 = _ → _ => set (w3 := w2) end.
    destruct (commit_cases E AtCommitAdd w3) as [(msg & _ & ->) | [_ ->]];
      [done|].
    assert (view (arrive E w3) = associations (db w) ++ row1 :: more) as Hview.
    { unfold view. simpl pending. rewrite Hp1, Hpend. simpl app.
      etrans; [apply (apply_writes_inserts _ (row1 :: more))|]. f_equal.
      rewrite (arrive_associations E).
      change (associations (db (arrive E w1)) = associations (db w)).
      rewrite (arrive_associations E). exact Ha1. }
    intros [= <-]. split; [done|]. intros id Hid.
    change (existsb (matches id target) (view (arrive E w3)) = true).
    rewrite Hview. apply elem_of_app in Hid as [Hid | Hid]; [|by apply Hbatch].
    rewrite existsb_app, (Hcov id Hid). done.
Qed.

End Additions.

(** An ADD job never removes or rewrites a row: whatever the other handlers
    do, whatever fails and however the run ends, the association table after
    the run is the table before it followed by rows the job inserted, each
    of which links an id of the job to its target collection and links an
    id that had no row for the target before. *)
Theorem add_job_only_appends E job_id st row0 :
  batch_jobs st !! job_id = Some row0 → job_type row0 = ADD →
  ∃ added,
    associations (db (process_batch_job E job_id st).2) = associations st ++ added
    ∧ Forall (addition_of (target_collection_id row0) (company_ids_json row0)
                          (associations st)) added.
Proof.
  intros Hrow0 Hadd.
  set (G := grown (target_collection_id row0) (company_ids_json row0)
                  (associations st)).
  destruct (process_batch_job_rule E job_id row0 (λ _, G) G) with (st := st)
    as [(added & staged & Ha & _ & Hok) _].
  - done.
  - intros _. apply grown_ext.
  - apply grown_ext.
  - intros _. apply grown_commit.
  - apply grown_commit.
  - intros _. apply grown_close.
  - apply grown_close.
  - intros _ row batch_ids w r w' Hsame Hids _ Hg Hbatch.
    assert (G w') by (by eapply process_batch_grown).
    by destruct r.
  - done.
  - exists [], []. split; [by rewrite app_nil_r|]. split; [done|].
    apply Forall_nil_2.
  - exists added. split; [done|]. by apply Forall_app in Hok as [? _].
Qed.

Lemma add_job_only_appends_witness :
  ∃ added,
    associations (db (process_batch_job fail_at_second_chunk 7%N pending_store).2)
    = associations pending_store ++ added
    ∧ Forall (addition_of (Some 2%N) [10; 11; 12] (associations pending_store))
             added.
Proof.
  apply (add_job_only_appends fail_at_second_chunk 7%N pending_store
           (new_BatchJob ADD 1%N (Some 2%N) 3 [10; 11; 12])).
  - reflexivity.
  - reflexivity.
Defined.

(** When an ADD job completes, every id of the job has a row for the target
    collection in the association table. *)
Theorem add_job_completed_covers E job_id st row0 w' :
  batch_jobs st !! job_id = Some row0 → job_type row0 = ADD →
  process_batch_job E job_id st = (Completed, w') →
  ∀ id, id ∈ company_ids_json row0 →
    ∃ row, row ∈ associations (db w') ∧ company_id row = id
           ∧ collection_id row = target_collection_id row0.
Proof.
  intros Hrow0 Hadd Hrun id Hid.
  destruct (process_batch_job_rule E job_id row0
              (covered (target_collection_id row0)) (λ _, True)) with (st := st)
    as [_ Hcov].
  - done.
  - intros done. apply covered_ext.
  - done.
  - intros done. apply covered_commit.
  - done.
  - intros done w [Hp Hc]. by split.
  - done.
  - intros done row batch_ids w r w1 Hsame _ _ Hc Hbatch.
    destruct r as [[]|]; [|done]. by eapply process_batch_covered.
  - done.
  - split; [done|]. intros id' Hid'. by apply elem_of_nil in Hid'.
  - rewrite Hrun in Hcov. destruct Hcov as [_ Hcov]; [done|].
    apply existsb_matches_inv. by apply Hcov.
Qed.

Lemma add_job_completed_covers_witness :
  Forall (λ id,
            ∃ row, row ∈ associations (db (process_batch_job quiet 7%N pending_store).2)
                   ∧ company_id row = id ∧ collection_id row = Some 2%N)
         [10; 11; 12].
Proof.
  apply Forall_forall.
  apply (add_job_completed_covers quiet 7%N pending_store
           (new_BatchJob ADD 1%N (Some 2%N) 3 [10; 11; 12])).
  - reflexivity.
  - reflexivity.
  - vm_compute. reflexivity.
Defined.

Section SmallAdditions.

Variable E : Env.
Variable job_id : uuid.
Variable row0 : BatchJob.
Variable A0 : list CompanyCollectionAssociation.

Hypothesis job_is_add : job_type row0 = ADD.

Let target := target_collection_id row0.
Let company_ids := company_ids_json row0.

Lemma grown_once_ext w w1 :
  associations (db w1) = associations (db w) → pending w1 = pending w →
  grown_once target company_ids A0 w → grown_once target company_ids A0 w1.
Proof.
  intros Ha Hp (added & staged & Hassoc & Hpend & Hok & Hnd).
  exists added, staged. split; [congruence|]. split; [congruence|done].
Qed.

Lemma grown_once_arrive w :
  grown_once target company_ids A0 w →
  grown_once target company_ids A0 (arrive E w).
Proof. apply grown_once_ext; [apply arrive_associations | done]. Qed.

Lemma grown_once_commit site w :
  grown_once target company_ids A0 w →
  grown_once target company_ids A0 (committed site w).
Proof.
  intros (added & staged & Hassoc & Hpend & Hok & Hnd).
  exists (added ++ staged), []. split.
  - change (associations (db (committed site w))) with (view w).
    by apply grown_view.
  - split; [done|]. by rewrite app_nil_r.
Qed.

Lemma grown_once_close w :
  grown_once target company_ids A0 w →
  grown_once target company_ids A0 (close w).
Proof.
  intros (added & staged & Hassoc & Hpend & Hok & Hnd).
  exists added, []. split; [done|]. split; [done|]. rewrite app_nil_r.
  split; [by apply Forall_app in Hok as [? _] | by apply NoDup_app in Hnd as [? _]].
Qed.

(** With one id per chunk, a row is only inserted when the table the
    transaction sees has no such row. *)
Lemma process_batch_grown_once row batch_ids w r w' :
  same_but_progress row0 row →
  (∀ id, id ∈ batch_ids → id ∈ company_ids) →
  (length batch_ids ≤ 1)%nat →
  grown_once target company_ids A0 w →
  process_batch E row batch_ids w = (r, w') →
  grown_once target company_ids A0 w'.
Proof.
  intros (Htype & _ & Htarget & _) Hids Hlen Hg. unfold process_batch.
  rewrite Htype, job_is_add, Htarget.
  destruct batch_ids as [|cid [|? ?]]; [| |simpl in Hlen; lia].
  { unfold exec_bind. simpl. by intros [= <- <-]. }
  unfold exec_bind at 1. simpl stage_additions.
  unfold exec_bind at 1, query_association.
  match goal with |- context [db_op E AtQueryAssociation ?f w] =>
    destruct (db_op_cases E AtQueryAssociation f w) as [(msg & _ & ->) | [_ ->]]
  end; [intros [= <- <-]; by apply grown_once_arrive|].
  pose proof (grown_once_arrive w Hg) as Hg1.
  destruct (existsb (matches cid (target_collection_id row0)) (view (arrive E w)))
    eqn:Hex; unfold exec_ret; [by intros [= <- <-]|].
  cbn [app]. unfold exec_bind, bulk_save_objects.
  match goal with |- context [db_op E AtBulkSave ?f ?w1] =>
    destruct (db_op_cases E AtBulkSave f w1) as [(msg & _ & ->) | [_ ->]]
  end; [intros [= <- <-]; by apply grown_once_arrive|].
  match goal with |- commit E AtCommitAdd ?w2 = _ → _ => set (w3 := w2) end.
  assert (grown_once target company_ids A0 w3) as Hg3.
  { destruct Hg1 as (added & staged & Ha & Hp & Hok & Hnd).
    rewrite (grown_view _ _ _ _ Ha Hp) in Hex.
    exists added, (staged ++ [{| company_id := cid; collection_id := target |}]).
    split; [change (associations (db (arrive E (arrive E w))) = A0 ++ added);
            by rewrite (arrive_associations E)|].
    split.
    - change (pending (arrive E w)) with (pending w) in Hp.
      simpl. rewrite Hp. by rewrite fmap_app.
    - rewrite app_assoc. split.
      + apply Forall_app. split; [done|]. apply Forall_singleton.
        split; [done|]. split; [apply Hids; by left|]. simpl.
        rewrite existsb_app in Hex. by apply orb_false_elim in Hex as [? _].
      + apply NoDup_app. split; [done|]. split; [|apply NoDup_singleton].
        intros row' Hin ->%list_elem_of_singleton.
        rewrite existsb_app in Hex. apply orb_false_elim in Hex as [_ Hex].
        rewrite existsb_matches in Hex; [done|]. eexists. by split. }
  destruct (commit_cases E AtCommitAdd w3) as [(msg & _ & ->) | [_ ->]];
    intros [= <- <-].
  - by apply grown_once_arrive.
  - apply grown_once_commit. by apply grown_once_arrive.
Qed.

End SmallAdditions.

(** A job of at most 100 ids runs one id per chunk, and then an ADD job
    never inserts the same row twice, even when ids repeat in its list:
    whatever happens during the run, the rows it appended to the table are
    pairwise distinct, and each links an id that had no row for the target
    before. *)
Theorem small_add_job_inserts_once E job_id st row0 :
  batch_jobs st !! job_id = Some row0 → job_type row0 = ADD →
  (length (company_ids_json row0) ≤ 100)%nat →
  ∃ added,
    associations (db (process_batch_job E job_id st).2) = associations st ++ added
    ∧ NoDup added
    ∧ Forall (addition_of (target_collection_id row0) (company_ids_json row0)
                          (associations st)) added.
Proof.
  intros Hrow0 Hadd Hsmall.
  set (G := grown_once (target_collection_id row0) (company_ids_json row0)
                       (associations st)).
  destruct (process_batch_job_rule E job_id row0 (λ _, G) G) with (st := st)
    as [(added & staged & Ha & _ & Hok & Hnd) _].
  - done.
  - intros _. apply grown_once_ext.
  - apply grown_once_ext.
  - intros _. apply grown_once_commit.
  - apply grown_once_commit.
  - intros _. apply grown_once_close.
  - apply grown_once_close.
  - intros _ row batch_ids w r w' Hsame Hids Hlen Hg Hbatch.
    assert (G w').
    { apply (process_batch_grown_once E row0 (associations st) Hadd
               row batch_ids w r w' Hsame Hids); [|exact Hg|exact Hbatch].
      unfold batch_size_for in Hlen. by rewrite decide_True in Hlen. }
    by destruct r.
  - done.
  - exists [], []. split; [by rewrite app_nil_r|]. split; [done|].
    split; [apply Forall_nil_2 | apply NoDup_nil_2].
  - exists added. split; [done|].
    split; [by apply NoDup_app in Hnd as [? _] | by apply Forall_app in Hok as [? _]].
Qed.

Lemma small_add_job_inserts_once_witness :
  ∃ added,
    associations (db (process_batch_job quiet 7%N repeated_store).2)
    = associations repeated_store ++ added
    ∧ NoDup added
    ∧ Forall (addition_of (Some 2%N) [10; 10; 11] (associations repeated_store))
             added.
Proof.
  apply (small_add_job_inserts_once quiet 7%N repeated_store
           (new_BatchJob ADD 1%N (Some 2%N) 3 [10; 10; 11])).
  - reflexivity.
  - reflexivity.
  - simpl. lia.
Defined.

(* ===================================================================== *)
(** * 12. DELETE jobs and the association table *)
(* ===================================================================== *)

Lemma without_nil source rows : without source [] rows = rows.
Proof.
  unfold without. induction rows as [|row rows IH]; [done|].
  rewrite filter_cons_True; [by rewrite IH|].
  intros [Hin _]. by apply elem_of_nil in Hin.
Qed.

Lemma without_without source done1 done2 rows :
  without source done2 (without source done1 rows)
  = without source (done1 ++ done2) rows.
Proof.
  unfold without. rewrite list_filter_filter. apply list_filter_iff.
  intros row. rewrite elem_of_app. tauto.
Qed.

Lemma apply_write_delete source id rows :
  apply_write rows (DeleteWhere id source) = without source [id] rows.
Proof.
  simpl. unfold without. apply list_filter_iff. intros row.
  unfold matches. rewrite list_elem_of_singleton.
  destruct (decide (company_id row = id ∧ collection_id row = source)) as [Hm|Hm].
  - rewrite bool_decide_eq_true_2 by done. split; [done|]. by intros [].
  - by rewrite bool_decide_eq_false_2 by done.
Qed.

Lemma apply_writes_deletes source staged rows :
  apply_writes ((λ id, DeleteWhere id source) <$> staged) rows
  = without source staged rows.
Proof.
  unfold apply_writes. revert rows.
  induction staged as [|id staged IH]; intros rows.
  - by rewrite without_nil.
  - cbn [fmap list_fmap foldl]. rewrite IH, apply_write_delete.
    by rewrite without_without.
Qed.

Section Deletions.

Variable E : Env.
Variable job_id : uuid.
Variable row0 : BatchJob.
Variable A0 : list CompanyCollectionAssociation.

Hypothesis job_is_delete : job_type row0 = DELETE.

Let source := Some (source_collection_id row0).
Let company_ids := company_ids_json row0.

(** [delete_each] issues the deletes of a prefix of its ids, all of them
    when it does not raise. *)
Lemma delete_each_pending batch_ids :
  ∀ w r w',
    delete_each E source batch_ids w = (r, w') →
    associations (db w') = associations (db w)
    ∧ ∃ issued,
        pending w' = pending w ++ ((λ id, DeleteWhere id source) <$> issued)
        ∧ (∀ id, id ∈ issued → id ∈ batch_ids)
        ∧ match r with
          | Normal _ => issued = batch_ids
          | Abort _ => True
          end.
Proof.
  induction batch_ids as [|cid rest IH]; intros w r w'; simpl.
  - intros [= <- <-]. split; [done|]. exists []. simpl.
    split; [by rewrite app_nil_r|]. split; [|done].
    intros id Hid. by apply elem_of_nil in Hid.
  - unfold exec_bind, delete_where.
    match goal with |- context [db_op E AtDelete ?f w] =>
      destruct (db_op_cases E AtDelete f w) as [(msg & _ & ->) | [_ ->]]
    end.
    + intros [= <- <-]. split; [apply arrive_associations|].
      exists []. simpl. split; [by rewrite app_nil_r|]. split; [|done].
      intros id Hid. by apply elem_of_nil in Hid.
    + intros Hrest. apply IH in Hrest as (Ha & issued & Hp & Hsub & Hr).
      split; [rewrite Ha; apply (arrive_associations E w)|].
      exists (cid :: issued). split.
      * rewrite Hp. simpl. by rewrite <- app_assoc.
      * split; [intros id [-> | Hid]%elem_of_cons; [by left | right; by apply Hsub]|].
        destruct r; [by rewrite Hr | done].
Qed.

Lemma shrunk_ext w w1 :
  associations (db w1) = associations (db w) → pending w1 = pending w →
  shrunk source company_ids A0 w → shrunk source company_ids A0 w1.
Proof.
  intros Ha Hp (done & staged & Hsub & Hassoc & Hpend).
  exists done, staged. split; [done|]. split; congruence.
Qed.

Lemma shrunk_arrive w :
  shrunk source company_ids A0 w → shrunk source company_ids A0 (arrive E w).
Proof. apply shrunk_ext; [apply arrive_associations | done]. Qed.

Lemma shrunk_commit site w :
  shrunk source company_ids A0 w → shrunk source company_ids A0 (committed site w).
Proof.
  intros (done & staged & Hsub & Hassoc & Hpend).
  exists (done ++ staged), []. split; [by rewrite app_nil_r|]. split; [|done].
  change (associations (db (committed site w))) with (view w).
  unfold view. by rewrite Hpend, Hassoc, apply_writes_deletes, without_without.
Qed.

Lemma shrunk_close w :
  shrunk source company_ids A0 w → shrunk source company_ids A0 (close w).
Proof.
  intros (done & staged & Hsub & Hassoc & Hpend).
  exists done, []. split; [|done]. rewrite app_nil_r.
  intros id Hid. apply Hsub. apply elem_of_app. by left.
Qed.

Lemma process_batch_shrunk row batch_ids w r w' :
  same_but_progress row0 row →
  (∀ id, id ∈ batch_ids → id ∈ company_ids) →
  shrunk source company_ids A0 w →
  process_batch E row batch_ids w = (r, w') →
  shrunk source company_ids A0 w'.
Proof.
  intros (Htype & Hsource & _) Hids Hs. unfold process_batch.
  rewrite Htype, job_is_delete, Hsource. unfold exec_bind at 1.
  destruct (delete_each E (Some (source_collection_id row0)) batch_ids w)
    as [[[]|x] w1] eqn:Hdel;
    apply delete_each_pending in Hdel as (Ha & issued & Hp & Hsub & _).
  - assert (shrunk source company_ids A0 w1) as Hs1.
    { destruct Hs as (done & staged & Hdone & Hassoc & Hpend).
      exists done, (staged ++ issued). split; [|split].
      - intros id Hid. rewrite app_assoc in Hid.
        apply elem_of_app in Hid as [Hid | Hid]; [by apply Hdone|].
        apply Hids. by apply Hsub.
      - congruence.
      - rewrite Hp, Hpend. by rewrite fmap_app. }
    destruct (commit_cases E AtCommitDelete w1) as [(msg & _ & ->) | [_ ->]];
      intros [= <- <-].
    + by apply shrunk_arrive.
    + apply shrunk_commit. by apply shrunk_arrive.
  - intros [= <- <-].
    destruct Hs as (done & staged & Hdone & Hassoc & Hpend).
    exists done, (staged ++ issued). split; [|split].
    + intros id Hid. rewrite app_assoc in Hid.
      apply elem_of_app in Hid as [Hid | Hid]; [by apply Hdone|].
      apply Hids. by apply Hsub.
    + congruence.
    + rewrite Hp, Hpend. by rewrite fmap_app.
Qed.

Lemma deleted_ext done w w1 :
  associations (db w1) = associations (db w) → pending w1 = pending w →
  deleted source A0 done w → deleted source A0 done w1.
Proof. intros Ha Hp [Hpend Hassoc]. split; congruence. Qed.

Lemma deleted_commit done site w :
  deleted source A0 done w → deleted source A0 done (committed site w).
Proof.
  intros [Hpend Hassoc]. split; [done|].
  change (associations (db (committed site w))) with (view w).
  unfold view. by rewrite Hpend.
Qed.

Lemma process_batch_deleted done row batch_ids w w' :
  same_but_progress row0 row →
  deleted source A0 done w →
  process_batch E row batch_ids w = (Normal tt, w') →
  deleted source A0 (done ++ batch_ids) w'.
Proof.
  intros (Htype & Hsource & _) [Hpend Hassoc]. unfold process_batch.
  rewrite Htype, job_is_delete, Hsource. unfold exec_bind at 1.
  destruct (delete_each E (Some (source_collection_id row0)) batch_ids w)
    as [[[]|x] w1] eqn:Hdel; [|done].
  apply delete_each_pending in Hdel as (Ha & issued & Hp & _ & ->).
  destruct (commit_cases E AtCommitDelete w1) as [(msg & _ & ->) | [_ ->]];
    [done|].
  intros [= <-]. split; [done|].
  change (associations (db (committed AtCommitDelete (arrive E w1))))
    with (view (arrive E w1)).
  unfold view. rewrite (arrive_associations E).
  change (pending (arrive E w1)) with (pending w1).
  rewrite Hp, Hpend, Ha, Hassoc. simpl app.
  by rewrite apply_writes_deletes, without_without.
Qed.

End Deletions.

(** When a DELETE job completes, the association table is the table before
    the run without the rows that link an id of the job to its source
    collection; all other rows are kept, in their order. *)
Theorem delete_job_completed_removes E job_id st row0 w' :
  batch_jobs st !! job_id = Some row0 → job_type row0 = DELETE →
  process_batch_job E job_id st = (Completed, w') →
  associations (db w')
  = without (Some (source_collection_id row0)) (company_ids_json row0)
            (associations st).
Proof.
  intros Hrow0 Hdelete Hrun.
  destruct (process_batch_job_rule E job_id row0
              (deleted (Some (source_collection_id row0)) (associations st))
              (λ _, True)) with (st := st) as [_ Hdone].
  - done.
  - intros done. apply deleted_ext.
  - done.
  - intros done. apply deleted_commit.
  - done.
  - intros done w [Hp Ha]. by split.
  - done.
  - intros done row batch_ids w r w1 Hsame _ _ Hd Hbatch.
    destruct r as [[]|]; [|done]. by eapply process_batch_deleted.
  - done.
  - split; [done|]. by rewrite without_nil.
  - rewrite Hrun in Hdone. by destruct Hdone as [_ ?].
Qed.

(** A DELETE job never inserts a row and never removes a row of another
    collection or of an id it was not given: however the run ends, the
    association table after it is the table before it without the links to
    the source collection of some of the ids of the job. *)
Theorem delete_job_only_removes E job_id st row0 :
  batch_jobs st !! job_id = Some row0 → job_type row0 = DELETE →
  ∃ done,
    (∀ id, id ∈ done → id ∈ company_ids_json row0)
    ∧ associations (db (process_batch_job E job_id st).2)
      = without (Some (source_collection_id row0)) done (associations st).
Proof.
  intros Hrow0 Hdelete.
  set (S := shrunk (Some (source_collection_id row0)) (company_ids_json row0)
                   (associations st)).
  destruct (process_batch_job_rule E job_id row0 (λ _, S) S) with (st := st)
    as [(done & staged & Hsub & Ha & _) _].
  - done.
  - intros _. apply shrunk_ext.
  - apply shrunk_ext.
  - intros _. apply shrunk_commit.
  - apply shrunk_commit.
  - intros _. apply shrunk_close.
  - apply shrunk_close.
  - intros _ row batch_ids w r w' Hsame Hids _ Hs Hbatch.
    assert (S w') by (by eapply process_batch_shrunk).
    by destruct r.
  - done.
  - exists [], []. split; [intros id Hid; by apply elem_of_nil in Hid|].
    split; [by rewrite without_nil | done].
  - exists done. split; [|done].
    intros id Hid. apply Hsub. apply elem_of_app. by left.
Qed.

Lemma delete_job_completed_removes_witness :
  associations (db (process_batch_job quiet 8%N removal_store).2)
  = without (Some 2%N) [11; 12] (associations removal_store).
Proof.
  apply (delete_job_completed_removes quiet 8%N removal_store
           (new_BatchJob DELETE 2%N None 2 [11; 12])).
  - reflexivity.
  - reflexivity.
  - vm_compute. reflexivity.
Defined.

Lemma delete_job_only_removes_witness :
  ∃ done,
    (∀ id, id ∈ done → id ∈ [11; 12])
    ∧ associations (db (process_batch_job fail_at_second_chunk 8%N removal_store).2)
      = without (Some 2%N) done (associations removal_store).
Proof.
  apply (delete_job_only_removes fail_at_second_chunk 8%N removal_store
           (new_BatchJob DELETE 2%N None 2 [11; 12])).
  - reflexivity.
  - reflexivity.
Defined.

(* ===================================================================== *)
(** * 13. Running a job again *)
(* ===================================================================== *)

Lemma untouched_ext A0 w w1 :
  associations (db w1) = associations (db w) → pending w1 = pending w →
  untouched A0 w → untouched A0 w1.
Proof. intros Ha Hp [Hpend Hassoc]. split; congruence. Qed.

Lemma without_subset source done1 done2 rows :
  (∀ id, id ∈ done2 → id ∈ done1) →
  without source done2 (without source done1 rows) = without source done1 rows.
Proof.
  intros Hsub. rewrite without_without. unfold without.
  apply list_filter_iff. intros row. rewrite elem_of_app.
  split; intros Hn [Hin Hc]; apply Hn; (split; [|done]).
  - by left.
  - destruct Hin as [Hin | Hin]; [done | by apply Hsub].
Qed.

(** ADD is idempotent on the association table: once an ADD job has
    completed, any later ADD job to the same target over ids of the first
    job leaves the table exactly as the first job left it, however the later
    run goes. *)
Theorem add_job_rerun_changes_nothing E1 E2 job1 job2 st1 st2 row1 row2 w1 :
  batch_jobs st1 !! job1 = Some row1 → job_type row1 = ADD →
  process_batch_job E1 job1 st1 = (Completed, w1) →
  batch_jobs st2 !! job2 = Some row2 → job_type row2 = ADD →
  target_collection_id row2 = target_collection_id row1 →
  (∀ id, id ∈ company_ids_json row2 → id ∈ company_ids_json row1) →
  associations st2 = associations (db w1) →
  associations (db (process_batch_job E2 job2 st2).2) = associations (db w1).
Proof.
  intros Hrow1 Hadd1 Hrun1 Hrow2 Hadd2 Htarget Hsub Hassoc.
  assert (∀ id, id ∈ company_ids_json row2 →
            existsb (matches id (target_collection_id row2)) (associations st2)
            = true) as Hpresent.
  { destruct (process_batch_job_rule E1 job1 row1
                (covered (target_collection_id row1)) (λ _, True)) with (st := st1)
      as [_ Hcov].
    - done.
    - intros done. apply covered_ext.
    - done.
    - intros done. apply covered_commit.
    - done.
    - intros done w [Hp Hc]. by split.
    - done.
    - intros done row batch_ids w r w' Hsame _ _ Hc Hbatch.
      destruct r as [[]|]; [|done]. by eapply process_batch_covered.
    - done.
    - split; [done|]. intros id' Hid'. by apply elem_of_nil in Hid'.
    - rewrite Hrun1 in Hcov. destruct Hcov as [_ Hcov]; [done|].
      intros id Hid. rewrite Htarget, Hassoc. apply Hcov. by apply Hsub. }
  set (U := untouched (associations st2)).
  destruct (process_batch_job_rule E2 job2 row2 (λ _, U) U) with (st := st2)
    as [[_ Hfinal] _].
  - done.
  - intros _. apply untouched_ext.
  - apply untouched_ext.
  - intros _. apply untouched_committed.
  - apply untouched_committed.
  - intros _ w [Hp Ha]. by split.
  - intros w [Hp Ha]. by split.
  - intros _ row batch_ids w r w' Hsame Hids _ Hu Hbatch.
    assert (U w').
    { by eapply (process_batch_untouched E2 row2 (associations st2) Hadd2 Hpresent). }
    by destruct r.
  - done.
  - done.
  - by rewrite Hfinal.
Qed.

(** DELETE is idempotent on the association table: once a DELETE job has
    completed, any later DELETE job from the same source over ids of the
    first job leaves the table exactly as the first job left it, however the
    later run goes. *)
Theorem delete_job_rerun_changes_nothing E1 E2 job1 job2 st1 st2 row1 row2 w1 :
  batch_jobs st1 !! job1 = Some row1 → job_type row1 = DELETE →
  process_batch_job E1 job1 st1 = (Completed, w1) →
  batch_jobs st2 !! job2 = Some row2 → job_type row2 = DELETE →
  source_collection_id row2 = source_collection_id row1 →
  (∀ id, id ∈ company_ids_json row2 → id ∈ company_ids_json row1) →
  associations st2 = associations (db w1) →
  associations (db (process_batch_job E2 job2 st2).2) = associations (db w1).
Proof.
  intros Hrow1 Hdel1 Hrun1 Hrow2 Hdel2 Hsource Hsub Hassoc.
  assert (associations (db w1)
          = without (Some (source_collection_id row1)) (company_ids_json row1)
                    (associations st1)) as Hfirst.
  { destruct (process_batch_job_rule E1 job1 row1
                (deleted (Some (source_collection_id row1)) (associations st1))
                (λ _, True)) with (st := st1) as [_ Hdone].
    - done.
    - intros done. apply deleted_ext.
    - done.
    - intros done. apply deleted_commit.
    - done.
    - intros done w [Hp Ha]. by split.
    - done.
    - intros done row batch_ids w r w' Hsame _ _ Hd Hbatch.
      destruct r as [[]|]; [|done]. by eapply process_batch_deleted.
    - done.
    - split; [done|]. by rewrite without_nil.
    - rewrite Hrun1 in Hdone. by destruct Hdone as [_ ?]. }
  set (S := shrunk (Some (source_collection_id row2)) (company_ids_json row2)
                   (associations st2)).
  destruct (process_batch_job_rule E2 job2 row2 (λ _, S) S) with (st := st2)
    as [(done & staged & Hdone & Ha & _) _].
  - done.
  - intros _. apply shrunk_ext.
  - apply shrunk_ext.
  - intros _. apply shrunk_commit.
  - apply shrunk_commit.
  - intros _. apply shrunk_close.
  - apply shrunk_close.
  - intros _ row batch_ids w r w' Hsame Hids _ Hs Hbatch.
    assert (S w') by (by eapply process_batch_shrunk).
    by destruct r.
  - done.
  - exists [], []. split; [intros id Hid; by apply elem_of_nil in Hid|].
    split; [by rewrite without_nil | done].
  - rewrite Ha, Hassoc, Hsource, Hfirst. apply without_subset.
    intros id Hid. apply Hsub, Hdone. apply elem_of_app. by left.
Qed.

Lemma add_job_rerun_changes_nothing_witness :
  associations (db (process_batch_job fail_at_second_chunk 9%N resubmitted_add_store).2)
  = associations (db (process_batch_job quiet 7%N pending_store).2).
Proof.
  apply (add_job_rerun_changes_nothing quiet fail_at_second_chunk 7%N 9%N
           pending_store resubmitted_add_store
           (new_BatchJob ADD 1%N (Some 2%N) 3 [10; 11; 12])
           (new_BatchJob ADD 1%N (Some 2%N) 3 [10; 11; 12])).
  - reflexivity.
  - reflexivity.
  - vm_compute. reflexivity.
  - vm_compute. reflexivity.
  - reflexivity.
  - reflexivity.
  - intros id Hid. exact Hid.
  - vm_compute. reflexivity.
Defined.

Lemma delete_job_rerun_changes_nothing_witness :
  associations (db (process_batch_job fail_at_second_chunk 9%N resubmitted_delete_store).2)
  = associations (db (process_batch_job quiet 8%N removal_store).2).
Proof.
  apply (delete_job_rerun_changes_nothing quiet fail_at_second_chunk 8%N 9%N
           removal_store resubmitted_delete_store
           (new_BatchJob DELETE 2%N None 2 [11; 12])
           (new_BatchJob DELETE 2%N None 2 [11; 12])).
  - reflexivity.
  - reflexivity.
  - vm_compute. reflexivity.
  - vm_compute. reflexivity.
  - reflexivity.
  - reflexivity.
  - intros id Hid. exact Hid.
  - vm_compute. reflexivity.
Defined.

(* ===================================================================== *)
(** * 14. Edge cases of a run, and the handlers together *)
(* ===================================================================== *)

Lemma serve_cancels_associations requests st :
  associations (serve_cancels requests st) = associations st.
Proof. by destruct (serve_cancels_drift requests st) as (? & _). Qed.

Lemma committed_arrive_associations E site w :
  pending w = [] →
  associations (db (committed site (arrive E w))) = associations (db w).
Proof.
  intros Hp. change (associations (db (committed site (arrive E w))))
    with (view (arrive E w)).
  unfold view. change (pending (arrive E w)) with (pending w). rewrite Hp.
  apply serve_cancels_associations.
Qed.

(** A job without ids has no chunk, hence no cancellation check after
    pickup: if nothing fails and the job is not cancelled when it is picked
    up, the run commits exactly three times (status IN_PROGRESS, final
    progress, status COMPLETED) and ends COMPLETED with processed_count 0 and
    the association table unchanged, even when cancel requests for the job
    are served while it runs. *)
Theorem empty_job_completes E job_id st row0 :
  (∀ t, fault E t = None) → job_id ∉ interference E 0%nat →
  batch_jobs st !! job_id = Some row0 → status row0 ≠ CANCELLED →
  company_ids_json row0 = [] →
  let result := process_batch_job E job_id st in
  result.1 = Completed
  ∧ (fst <$> commits result.2)
    = [AtCommitStart; AtCommitFinalProgress; AtCommitCompleted]
  ∧ (∃ row, batch_jobs (db result.2) !! job_id = Some row
            ∧ status row = COMPLETED ∧ processed_count row = 0)
  ∧ associations (db result.2) = associations st.
Proof.
  intros Hfault Hquiet Hrow0 Hstatus Hempty result.
  assert (∀ site w, commit E site w = (Normal tt, committed site (arrive E w)))
    as Hcommit.
  { intros site w. destruct (commit_cases E site w) as [(msg & Hf & _) | [_ ->]];
      [by rewrite Hfault in Hf | done]. }
  assert (∃ w', try_block E job_id (new_session st) = (Normal tt, w')
                ∧ (fst <$> commits w')
                  = [AtCommitStart; AtCommitFinalProgress; AtCommitCompleted]
                ∧ associations (db w') = associations st)
    as (w' & Htry & Hsites & Hassoc).
  { unfold try_block.
    assert (query_job E job_id (new_session st)
            = (Normal (Some (job_id, row0)),
               set_job_var (Some (job_id, row0)) (arrive E (new_session st))))
      as Hquery.
    { unfold query_job, db_op. rewrite Hfault. simpl.
      by rewrite (serve_cancels_other _ _ _ Hquiet), Hrow0. }
    rewrite (exec_bind_normal _ _ _ _ _ Hquery).
    rewrite decide_False by done. rewrite Hempty.
    set (w1 := set_job_var (Some (job_id, row0)) (arrive E (new_session st))).
    destruct (assign_status_ok IN_PROGRESS w1 job_id row0 eq_refl) as (d1 & Ha1 & _).
    rewrite (exec_bind_normal _ _ _ _ _ Ha1).
    rewrite (exec_bind_normal _ _ _ _ _ (Hcommit AtCommitStart _)).
    set (w2 := committed AtCommitStart (arrive E (set_dirty d1 w1))).
    change (process_batches E job_id [] (batch_size_for (length (@nil Z)))
              (py_range (length (@nil Z)) (batch_size_for (length (@nil Z)))) 0)
      with (@exec_ret Z 0).
    rewrite (exec_bind_normal _ _ w2 0 w2 eq_refl).
    destruct (assign_processed_count_ok 0 w2 job_id row0 eq_refl) as (d3 & Ha3 & _).
    rewrite (exec_bind_normal _ _ _ _ _ Ha3).
    rewrite (exec_bind_normal _ _ _ _ _ (Hcommit AtCommitFinalProgress _)).
    set (w4 := committed AtCommitFinalProgress (arrive E (set_dirty d3 w2))).
    destruct (assign_status_ok COMPLETED w4 job_id row0 eq_refl) as (d5 & Ha5 & _).
    rewrite (exec_bind_normal _ _ _ _ _ Ha5).
    rewrite Hcommit. eexists. split; [done|]. split; [done|].
    rewrite (committed_arrive_associations E _ (set_dirty d5 w4)) by done.
    change (associations (db (set_dirty d5 w4))) with (associations (db w4)).
    unfold w4.
    rewrite (committed_arrive_associations E _ (set_dirty d3 w2)) by done.
    change (associations (db (set_dirty d3 w2))) with (associations (db w2)).
    unfold w2.
    rewrite (committed_arrive_associations E _ (set_dirty d1 w1)) by done.
    change (associations (db (set_dirty d1 w1)))
      with (associations (db (arrive E (new_session st)))).
    apply serve_cancels_associations. }
  assert (result = (Completed, close w')) as ->
    by (subst result; unfold process_batch_job; by rewrite Htry).
  split; [done|]. split; [done|]. split; [|done].
  pose proof (try_block_sync E job_id st row0 _ _ Hrow0 Htry)
    as (log & row & _ & Hrow & Hs & Hp & _).
  exists row. split; [done|]. split; [done|]. by rewrite Hempty in Hp.
Qed.

Lemma empty_job_completes_witness :
  let result := process_batch_job cancel_while_running 5%N empty_store in
  result.1 = Completed
  ∧ (fst <$> commits result.2)
    = [AtCommitStart; AtCommitFinalProgress; AtCommitCompleted]
  ∧ (∃ row, batch_jobs (db result.2) !! 5%N = Some row
            ∧ status row = COMPLETED ∧ processed_count row = 0)
  ∧ associations (db result.2) = associations empty_store.
Proof.
  apply (empty_job_completes cancel_while_running 5%N empty_store
           (new_BatchJob DELETE 2%N None 0 [])).
  - intros t. reflexivity.
  - apply not_elem_of_nil.
  - reflexivity.
  - discriminate.
  - reflexivity.
Defined.

(** A submitted job is reported as submitted: after a successful ADD or
    DELETE submission the status query for the returned job id answers with
    the descriptor the submission returned (status PENDING, the job type,
    total_count the number of ids, processed_count 0, no error); the
    submission leaves the association table and all other job rows as they
    were. *)
Theorem submitted_job_is_reported new_id st :
  (∀ request resp job_id st',
     create_batch_add_job new_id request st = (Ok (resp, job_id), st') →
     get_batch_job_status job_id st' = Ok resp
     ∧ resp = {| resp_job_id := new_id; resp_status := PENDING;
                 resp_job_type := ADD;
                 resp_total_count := Z.of_nat (length (add_company_ids request));
                 resp_processed_count := 0; resp_error_message := None |}
     ∧ job_id = new_id
     ∧ associations st' = associations st
     ∧ ∀ other, other ≠ job_id → batch_jobs st' !! other = batch_jobs st !! other)
  ∧ (∀ request resp job_id st',
       create_batch_delete_job new_id request st = (Ok (resp, job_id), st') →
       get_batch_job_status job_id st' = Ok resp
       ∧ resp = {| resp_job_id := new_id; resp_status := PENDING;
                   resp_job_type := DELETE;
                   resp_total_count := Z.of_nat (length (del_company_ids request));
                   resp_processed_count := 0; resp_error_message := None |}
       ∧ job_id = new_id
       ∧ associations st' = associations st
       ∧ ∀ other, other ≠ job_id → batch_jobs st' !! other = batch_jobs st !! other).
Proof.
  split; intros request resp job_id st'.
  - unfold create_batch_add_job, add_job. case_bool_decide; [done|].
    destruct (batch_jobs st !! new_id) eqn:Hid; [done|].
    intros [= <- <- <-]. unfold get_batch_job_status. simpl.
    rewrite lookup_insert_eq. repeat split; try done.
    intros other Hother. by rewrite lookup_insert_ne.
  - unfold create_batch_delete_job, add_job. case_bool_decide; [done|].
    destruct (batch_jobs st !! new_id) eqn:Hid; [done|].
    intros [= <- <- <-]. unfold get_batch_job_status. simpl.
    rewrite lookup_insert_eq. repeat split; try done.
    intros other Hother. by rewrite lookup_insert_ne.
Qed.

Lemma submitted_job_is_reported_witness :
  get_batch_job_status 7%N
    (create_batch_delete_job 7%N
       {| del_collection_id := 2%N; del_company_ids := [10; 11] |}
       example_store).2
  = Ok {| resp_job_id := 7%N; resp_status := PENDING; resp_job_type := DELETE;
          resp_total_count := 2; resp_processed_count := 0;
          resp_error_message := None |}.
Proof.
  destruct (proj2 (submitted_job_is_reported 7%N example_store)
              {| del_collection_id := 2%N; del_company_ids := [10; 11] |}
              {| resp_job_id := 7%N; resp_status := PENDING; resp_job_type := DELETE;
                 resp_total_count := 2; resp_processed_count := 0;
                 resp_error_message := None |}
              7%N
              (create_batch_delete_job 7%N
                 {| del_collection_id := 2%N; del_company_ids := [10; 11] |}
                 example_store).2) as [Hstatus _].
  - reflexivity.
  - exact Hstatus.
Defined.

(** Cancelling is not repeatable: after a cancel request succeeded, the
    status query reports CANCELLED with processed_count unchanged, and a
    second cancel request for the same job is rejected ("Job cannot be
    cancelled in current status") without changing the store. *)
Theorem cancel_batch_job_once job_id st msg st' :
  cancel_batch_job job_id st = (Ok msg, st') →
  cancel_batch_job job_id st'
  = (HTTPException 400 "Job cannot be cancelled in current status", st')
  ∧ ∃ job resp,
      batch_jobs st !! job_id = Some job
      ∧ get_batch_job_status job_id st' = Ok resp
      ∧ resp_status resp = CANCELLED
      ∧ resp_processed_count resp = processed_count job
      ∧ resp_total_count resp = total_count job.
Proof.
  unfold cancel_batch_job at 1.
  destruct (batch_jobs st !! job_id) as [job|] eqn:Hjob; [|done].
  case_bool_decide as Hterminal; [done|]. intros [= <- <-].
  unfold cancel_batch_job, get_batch_job_status. simpl.
  rewrite lookup_insert_eq. simpl. split.
  - done.
  - by exists job, (response_of job_id (set_status CANCELLED job)).
Qed.

Lemma cancel_batch_job_once_witness :
  cancel_batch_job 7%N cancelled_store
  = (HTTPException 400 "Job cannot be cancelled in current status", cancelled_store)
  ∧ ∃ job resp,
      batch_jobs pending_store !! 7%N = Some job
      ∧ get_batch_job_status 7%N cancelled_store = Ok resp
      ∧ resp_status resp = CANCELLED
      ∧ resp_processed_count resp = processed_count job
      ∧ resp_total_count resp = total_count job.
Proof.
  apply (cancel_batch_job_once 7%N pending_store "Job cancelled successfully").
  reflexivity.
Defined.

(** What the task does when it finds the row CANCELLED at pickup. *)
Lemma pickup_cancelled E job_id st row :
  batch_jobs st !! job_id = Some row → status row = CANCELLED →
  commits (process_batch_job E job_id st).2 = []
  ∧ batch_jobs (db (process_batch_job E job_id st).2) !! job_id = Some row
  ∧ associations (db (process_batch_job E job_id st).2) = associations st.
Proof.
  intros Hrow Hcancelled.
  pose proof (serve_cancels_drift (interference E 0%nat) st) as Hdrift.
  pose proof (store_drift_cancelled _ _ _ _ Hdrift Hrow Hcancelled) as Hrow'.
  destruct Hdrift as (Hassoc & _ & _).
  destruct (process_batch_job E job_id st) as [outcome w'] eqn:Hrun.
  revert Hrun. simpl.
  unfold process_batch_job, try_block, exec_bind at 1, query_job.
  match goal with |- context [db_op E AtQueryJob ?f ?w] =>
    destruct (db_op_cases E AtQueryJob f w) as [(msg & Hf & ->) | [Hf ->]]
  end.
  - simpl. intros [= <- <-]. simpl. by rewrite Hrow', Hassoc.
  - change (db (arrive E (new_session st)))
      with (serve_cancels (interference E 0%nat) st).
    rewrite Hrow'. cbn [fmap option_fmap option_map].
    cbv iota beta. rewrite decide_True by done.
    simpl. intros [= <- <-]. simpl. by rewrite Hrow', Hassoc.
Qed.

(** A job cancelled before the task picks it up is never run: after a
    successful cancel request, the task, whenever it starts and whatever
    else happens, commits nothing, leaves the association table as it was
    and leaves the row with status CANCELLED and the processed_count it
    had. *)
Theorem cancelled_job_is_never_run E job_id st msg st' :
  cancel_batch_job job_id st = (Ok msg, st') →
  let result := process_batch_job E job_id st' in
  commits result.2 = []
  ∧ associations (db result.2) = associations st
  ∧ ∃ job, batch_jobs st !! job_id = Some job
           ∧ batch_jobs (db result.2) !! job_id = Some (set_status CANCELLED job).
Proof.
  unfold cancel_batch_job.
  destruct (batch_jobs st !! job_id) as [job|] eqn:Hjob; [|done].
  case_bool_decide as Hterminal; [done|]. intros [= <- <-].
  destruct (pickup_cancelled E job_id
              (with_batch_jobs (<[job_id := set_status CANCELLED job]> (batch_jobs st)) st)
              (set_status CANCELLED job)) as (Hcommits & Hrow & Hassoc).
  - simpl. apply lookup_insert_eq.
  - done.
  - split; [done|]. split; [done|]. by exists job.
Qed.

Lemma cancelled_job_is_never_run_witness :
  let result := process_batch_job fail_at_second_chunk 7%N cancelled_store in
  commits result.2 = []
  ∧ associations (db result.2) = associations pending_store
  ∧ ∃ job, batch_jobs pending_store !! 7%N = Some job
           ∧ batch_jobs (db result.2) !! 7%N = Some (set_status CANCELLED job).
Proof.
  apply (cancelled_job_is_never_run fail_at_second_chunk 7%N pending_store
           "Job cancelled successfully").
  reflexivity.
Defined.

(* ===================================================================== *)
(** * 15. Collections: creation and deletion *)
(* ===================================================================== *)

Lemma name_exists_spec name st :
  name_exists name st = true ↔ ∃ i, company_collections st !! i = Some name.
Proof.
  unfold name_exists. rewrite existsb_exists. split.
  - intros ([i n] & Hin & Hn).
    apply list_elem_of_In, elem_of_map_to_list in Hin.
    apply bool_decide_eq_true in Hn. simpl in Hn. subst. by exists i.
  - intros (i & Hi). exists (i, name). split.
    + by apply list_elem_of_In, elem_of_map_to_list.
    + by apply bool_decide_eq_true.
Qed.

Lemma NoDup_fmap_elem_inj {A B : Type} (f : A → B) (l : list A) x y :
  NoDup (f <$> l) → x ∈ l → y ∈ l → f x = f y → x = y.
Proof.
  induction l as [|a l IH]; csimpl.
  - intros _ Hx. by apply elem_of_nil in Hx.
  - intros [Ha Hnd]%NoDup_cons [->|Hx]%elem_of_cons [->|Hy]%elem_of_cons Hf.
    + done.
    + destruct Ha. rewrite Hf. by apply list_elem_of_fmap_2.
    + destruct Ha. rewrite <- Hf. by apply list_elem_of_fmap_2.
    + by apply IH.
Qed.

Lemma names_unique_check st :
  NoDup (snd <$> map_to_list (company_collections st)) → names_unique st.
Proof.
  intros Hnd i j name Hi Hj.
  apply elem_of_map_to_list in Hi, Hj.
  by injection (NoDup_fmap_elem_inj snd _ (i, name) (j, name) Hnd Hi Hj eq_refl).
Qed.

(** [create_collection] keeps collection names unique: if no two
    collections of the store share a name, none do after the call, whatever
    it answers. *)
Theorem create_collection_keeps_names_unique new_id name st :
  names_unique st → names_unique (create_collection new_id name st).2.
Proof.
  intros Huniq. unfold create_collection.
  destruct (name_exists name st) eqn:Hexists; [done|].
  destruct (company_collections st !! new_id) eqn:Hid; [done|].
  assert (∀ k, company_collections st !! k ≠ Some name) as Hfresh.
  { intros k Hk.
    assert (name_exists name st = true) by (apply name_exists_spec; eauto).
    congruence. }
  intros i j n. simpl.
  destruct (decide (i = new_id)) as [->|Hi], (decide (j = new_id)) as [->|Hj].
  - done.
  - rewrite lookup_insert_eq, lookup_insert_ne by done.
    intros [= <-] Hj'. by destruct (Hfresh j).
  - rewrite lookup_insert_eq, lookup_insert_ne by done.
    intros Hi' [= <-]. by destruct (Hfresh i).
  - rewrite !lookup_insert_ne by done. apply Huniq.
Qed.

Lemma create_collection_keeps_names_unique_witness :
  names_unique (create_collection 4%N "Shortlist" library_store).2.
Proof.
  apply (create_collection_keeps_names_unique 4%N "Shortlist" library_store).
  apply names_unique_check. refine (bool_decide_unpack _ _). vm_compute. exact I.
Defined.

(** A name can be taken once: after [create_collection] succeeded, the
    collection is stored under the returned id with the requested name, the
    other collections, the association table and the jobs are as before, and
    a further request for the same name is rejected with 400, whatever id it
    would get, and changes nothing. *)
Theorem create_collection_name_taken new_id name st resp st' other_id :
  create_collection new_id name st = (Ok resp, st') →
  create_collection other_id name st'
  = (HTTPException 400 "Collection name already exists", st')
  ∧ created_id resp = new_id ∧ created_collection_name resp = name
  ∧ company_collections st !! new_id = None
  ∧ company_collections st' !! new_id = Some name
  ∧ (∀ i, i ≠ new_id → company_collections st' !! i = company_collections st !! i)
  ∧ associations st' = associations st
  ∧ batch_jobs st' = batch_jobs st.
Proof.
  unfold create_collection at 1.
  destruct (name_exists name st) eqn:Hexists; [done|].
  destruct (company_collections st !! new_id) eqn:Hid; [done|].
  intros [= <- <-]. simpl.
  assert (name_exists name
            (with_company_collections (<[new_id:=name]> (company_collections st)) st)
          = true) as Htaken.
  { apply name_exists_spec. exists new_id. simpl. apply lookup_insert_eq. }
  unfold create_collection. rewrite Htaken.
  split; [done|]. split; [done|]. split; [done|]. split; [done|].
  split; [apply lookup_insert_eq|]. split; [|done].
  intros i Hi. by apply lookup_insert_ne.
Qed.

Lemma create_collection_name_taken_witness :
  create_collection 9%N "Shortlist"
    (create_collection 4%N "Shortlist" library_store).2
  = (HTTPException 400 "Collection name already exists",
     (create_collection 4%N "Shortlist" library_store).2).
Proof.
  apply (create_collection_name_taken 4%N "Shortlist" library_store
           {| created_id := 4%N; created_collection_name := "Shortlist";
              created_message := "Collection created successfully" |}
           (create_collection 4%N "Shortlist" library_store).2 9%N).
  vm_compute. reflexivity.
Defined.

(** After [delete_collection] succeeded nothing refers to the collection:
    it is not in the collections table, no association row links a company
    to it, no job has it as source or target, and the id listing for it
    answers 404. *)
Theorem delete_collection_leaves_no_reference c st msg st' :
  delete_collection c st = (Ok msg, st') →
  company_collections st' !! c = None
  ∧ (∀ row, row ∈ associations st' → collection_id row ≠ Some c)
  ∧ (∀ j job, batch_jobs st' !! j = Some job →
       source_collection_id job ≠ c ∧ target_collection_id job ≠ Some c)
  ∧ get_all_company_ids_in_collection c st'
    = HTTPException 404 "Collection not found".
Proof.
  unfold delete_collection.
  destruct (company_collections st !! c) as [name|] eqn:Hc; [|done].
  case_bool_decide; [done|]. intros [= <- <-].
  unfold get_all_company_ids_in_collection. simpl. rewrite lookup_delete_eq.
  split; [done|]. split; [|split; [|done]].
  - intros row Hrow. apply list_elem_of_filter in Hrow. by destruct Hrow.
  - intros j job Hjob. apply map_lookup_filter_Some in Hjob as [_ Hno].
    simpl in Hno. unfold refers_to in Hno. split; intros ?; apply Hno; auto.
Qed.

Lemma delete_collection_leaves_no_reference_witness :
  let st' := (delete_collection 2%N library_store).2 in
  company_collections st' !! 2%N = None
  ∧ (∀ row, row ∈ associations st' → collection_id row ≠ Some 2%N)
  ∧ (∀ j job, batch_jobs st' !! j = Some job →
       source_collection_id job ≠ 2%N ∧ target_collection_id job ≠ Some 2%N)
  ∧ get_all_company_ids_in_collection 2%N st'
    = HTTPException 404 "Collection not found".
Proof.
  apply (delete_collection_leaves_no_reference 2%N library_store
           "Collection 'Liked' deleted successfully").
  vm_compute. reflexivity.
Defined.

(** [delete_collection] removes nothing else: after a successful call every
    other collection is as before, every association row of another
    collection is kept, every job that does not refer to the collection is
    kept unchanged, and the id listing of every other collection answers as
    before.  The collection deleted was not named "My List". *)
Theorem delete_collection_keeps_the_rest c st msg st' :
  delete_collection c st = (Ok msg, st') →
  (∀ d, d ≠ c → company_collections st' !! d = company_collections st !! d)
  ∧ (∀ row, collection_id row ≠ Some c →
       row ∈ associations st' ↔ row ∈ associations st)
  ∧ (∀ j job, ¬ refers_to c job →
       batch_jobs st' !! j = Some job ↔ batch_jobs st !! j = Some job)
  ∧ (∀ d, d ≠ c →
       get_all_company_ids_in_collection d st'
       = get_all_company_ids_in_collection d st)
  ∧ ∃ name, company_collections st !! c = Some name
            ∧ name ≠ "My List"%string
            ∧ msg = ("Collection '" +:+ name +:+ "' deleted successfully").
Proof.
  unfold delete_collection.
  destruct (company_collections st !! c) as [name|] eqn:Hc; [|done].
  case_bool_decide as Hname; [done|]. intros [= <- <-]. simpl.
  split; [|split; [|split; [|split]]].
  - intros d Hd. by apply lookup_delete_ne.
  - intros row Hrow. rewrite list_elem_of_filter. unfold in_collection. tauto.
  - intros j job Hjob. rewrite map_lookup_filter_Some. simpl. tauto.
  - intros d Hd. unfold get_all_company_ids_in_collection. simpl.
    rewrite lookup_delete_ne by done.
    rewrite list_filter_filter_l; [done|].
    unfold in_collection. intros row Hd' Hc'. congruence.
  - by exists name.
Qed.

Lemma delete_collection_keeps_the_rest_witness :
  get_all_company_ids_in_collection 3%N (delete_collection 2%N library_store).2
  = get_all_company_ids_in_collection 3%N library_store.
Proof.
  destruct (delete_collection_keeps_the_rest 2%N library_store
              "Collection 'Liked' deleted successfully"
              (delete_collection 2%N library_store).2)
    as (_ & _ & _ & Hlisting & _).
  - vm_compute. reflexivity.
  - apply Hlisting. discriminate.
Defined.

(** The collection named "My List" cannot be deleted: whatever collection
    a [delete_collection] request names and whatever it answers, a
    collection named "My List" is still there afterwards, with all its
    association rows; a request that names it is rejected with 400 and
    changes nothing. *)
Theorem my_list_is_never_deleted c st i :
  company_collections st !! i = Some "My List"%string →
  company_collections (delete_collection c st).2 !! i = Some "My List"%string
  ∧ (∀ row, collection_id row = Some i →
       row ∈ associations (delete_collection c st).2 ↔ row ∈ associations st)
  ∧ delete_collection i st
    = (HTTPException 400 "Cannot delete the 'My List' collection", st).
Proof.
  intros Hi. split; [|split].
  - unfold delete_collection.
    destruct (company_collections st !! c) as [name|] eqn:Hc; [|done].
    case_bool_decide as Hname; [done|]. simpl.
    rewrite lookup_delete_ne; [done|]. intros ->. congruence.
  - intros row Hrow. unfold delete_collection.
    destruct (company_collections st !! c) as [name|] eqn:Hc; [|done].
    case_bool_decide as Hname; [done|]. simpl.
    rewrite list_elem_of_filter. unfold in_collection.
    assert (collection_id row ≠ Some c) by (rewrite Hrow; intros [= ->]; congruence).
    tauto.
  - unfold delete_collection. rewrite Hi. by rewrite bool_decide_eq_true_2.
Qed.

Lemma my_list_is_never_deleted_witness :
  company_collections (delete_collection 2%N library_store).2 !! 1%N
  = Some "My List"%string
  ∧ (∀ row, collection_id row = Some 1%N →
       row ∈ associations (delete_collection 2%N library_store).2
       ↔ row ∈ associations library_store)
  ∧ delete_collection 1%N library_store
    = (HTTPException 400 "Cannot delete the 'My List' collection", library_store).
Proof.
  apply (my_list_is_never_deleted 2%N library_store 1%N).
  reflexivity.
Defined.

(* ===================================================================== *)
(** * 16. The id listing of a collection *)
(* ===================================================================== *)

Lemma collection_ids_elem c rows id :
  id ∈ merge_sort Z.le (company_id <$> filter (in_collection c) rows)
  ↔ {| company_id := id; collection_id := Some c |} ∈ rows.
Proof.
  rewrite merge_sort_Permutation, list_elem_of_fmap. split.
  - intros (row & -> & Hrow). apply list_elem_of_filter in Hrow as [Hc Hin].
    destruct row as [cid col]. unfold in_collection in Hc. simpl in *. by subst.
  - intros Hin. eexists. split; [|apply list_elem_of_filter; split; [|exact Hin]];
      done.
Qed.

(** For a collection that exists, [get_all_company_ids_in_collection]
    answers with the company ids of the association rows of that collection,
    one per row, in ascending order; an id is listed exactly when a row links
    it to the collection, and total_count is the number of those rows. *)
Theorem all_company_ids_sorted_complete c st name :
  company_collections st !! c = Some name →
  ∃ r, get_all_company_ids_in_collection c st = Ok r
       ∧ Sorted Z.le (all_company_ids r)
       ∧ all_company_ids r
         ≡ₚ company_id <$> filter (in_collection c) (associations st)
       ∧ (∀ id, id ∈ all_company_ids r
                ↔ {| company_id := id; collection_id := Some c |} ∈ associations st)
       ∧ all_total_count r
         = Z.of_nat (length (filter (in_collection c) (associations st))).
Proof.
  intros Hc. unfold get_all_company_ids_in_collection. rewrite Hc.
  eexists. split; [done|]. simpl. split; [|split; [|split]].
  - apply Sorted_merge_sort; apply _.
  - apply merge_sort_Permutation.
  - intros id. apply collection_ids_elem.
  - by rewrite merge_sort_Permutation, length_fmap.
Qed.

Lemma all_company_ids_sorted_complete_witness :
  ∃ r, get_all_company_ids_in_collection 2%N library_store = Ok r
       ∧ Sorted Z.le (all_company_ids r)
       ∧ all_company_ids r
         ≡ₚ company_id <$> filter (in_collection 2%N) (associations library_store)
       ∧ (∀ id, id ∈ all_company_ids r
                ↔ {| company_id := id; collection_id := Some 2%N |}
                  ∈ associations library_store)
       ∧ all_total_count r
         = Z.of_nat (length (filter (in_collection 2%N) (associations library_store))).
Proof.
  apply (all_company_ids_sorted_complete 2%N library_store "Liked").
  reflexivity.
Defined.

(** When an ADD job completes and its target collection exists, the id
    listing of the target collection contains every id of the job. *)
Theorem completed_add_job_is_listed E job_id st row0 w' target name :
  batch_jobs st !! job_id = Some row0 → job_type row0 = ADD →
  target_collection_id row0 = Some target →
  process_batch_job E job_id st = (Completed, w') →
  company_collections (db w') !! target = Some name →
  ∃ r, get_all_company_ids_in_collection target (db w') = Ok r
       ∧ ∀ id, id ∈ company_ids_json row0 → id ∈ all_company_ids r.
Proof.
  intros Hrow0 Hadd Htarget Hrun Hexists.
  unfold get_all_company_ids_in_collection. rewrite Hexists.
  eexists. split; [done|]. intros id Hid. simpl. apply collection_ids_elem.
  destruct (process_batch_job_rule E job_id row0
              (covered (target_collection_id row0)) (λ _, True)) with (st := st)
    as [_ Hcov].
  - done.
  - intros done. apply covered_ext.
  - done.
  - intros done. apply covered_commit.
  - done.
  - intros done w [Hp Hc]. by split.
  - done.
  - intros done row batch_ids w r w1 Hsame _ _ Hc Hbatch.
    destruct r as [[]|]; [|done]. by eapply process_batch_covered.
  - done.
  - split; [done|]. intros id' Hid'. by apply elem_of_nil in Hid'.
  - rewrite Hrun in Hcov. destruct Hcov as [_ Hcov]; [done|].
    apply Hcov, existsb_matches_inv in Hid as ([cid col] & Hin & Hcid & Hcol).
    simpl in *. by rewrite <- Hcid, <- Htarget, <- Hcol.
Qed.

Lemma completed_add_job_is_listed_witness :
  ∃ r, get_all_company_ids_in_collection 2%N
         (db (process_batch_job quiet 7%N pending_store).2) = Ok r
       ∧ ∀ id, id ∈ [10; 11; 12] → id ∈ all_company_ids r.
Proof.
  apply (completed_add_job_is_listed quiet 7%N pending_store
           (new_BatchJob ADD 1%N (Some 2%N) 3 [10; 11; 12])
           (process_batch_job quiet 7%N pending_store).2 2%N "target").
  - reflexivity.
  - reflexivity.
  - reflexivity.
  - vm_compute. reflexivity.
  - vm_compute. reflexivity.
Defined.

(** When a DELETE job completes and its source collection exists, the id
    listing of the source collection contains none of the ids of the job,
    and every other id exactly when it was linked to the collection before
    the run. *)
Theorem completed_delete_job_is_unlisted E job_id st row0 w' name :
  batch_jobs st !! job_id = Some row0 → job_type row0 = DELETE →
  process_batch_job E job_id st = (Completed, w') →
  company_collections (db w') !! source_collection_id row0 = Some name →
  ∃ r, get_all_company_ids_in_collection (source_collection_id row0) (db w') = Ok r
       ∧ ∀ id, id ∈ all_company_ids r
               ↔ ((id ∉ company_ids_json row0)
                  ∧ {| company_id := id;
                       collection_id := Some (source_collection_id row0) |}
                    ∈ associations st).
Proof.
  intros Hrow0 Hdelete Hrun Hexists.
  unfold get_all_company_ids_in_collection. rewrite Hexists.
  eexists. split; [done|]. intros id. simpl. rewrite collection_ids_elem.
  destruct (process_batch_job_rule E job_id row0
              (deleted (Some (source_collection_id row0)) (associations st))
              (λ _, True)) with (st := st) as [_ Hdone].
  - done.
  - intros done. apply deleted_ext.
  - done.
  - intros done. apply deleted_commit.
  - done.
  - intros done w [Hp Ha]. by split.
  - done.
  - intros done row batch_ids w r w1 Hsame _ _ Hd Hbatch.
    destruct r as [[]|]; [|done]. by eapply process_batch_deleted.
  - done.
  - split; [done|]. by rewrite without_nil.
  - rewrite Hrun in Hdone. destruct Hdone as [_ Hdone]; [done|].
    simpl in Hdone. rewrite Hdone.
    unfold without. rewrite list_elem_of_filter. simpl. tauto.
Qed.

Lemma completed_delete_job_is_unlisted_witness :
  ∃ r, get_all_company_ids_in_collection 2%N
         (db (process_batch_job quiet 8%N removal_store).2) = Ok r
       ∧ ∀ id, id ∈ all_company_ids r
               ↔ ((id ∉ [11; 12])
                  ∧ {| company_id := id; collection_id := Some 2%N |}
                    ∈ associations removal_store).
Proof.
  apply (completed_delete_job_is_unlisted quiet 8%N removal_store
           (new_BatchJob DELETE 2%N None 2 [11; 12])
           (process_batch_job quiet 8%N removal_store).2 "target").
  - reflexivity.
  - reflexivity.
  - vm_compute. reflexivity.
  - vm_compute. reflexivity.
Defined.

(* ===================================================================== *)
(** * 17. Cursor pagination *)
(* ===================================================================== *)

Lemma page_cut {A : Type} (query : list A) (limit : nat) :
  (if bool_decide (limit < length (take (limit + 1) query))%nat
   then take limit (take (limit + 1) query) else take (limit + 1) query)
  = take limit query
  ∧ bool_decide (limit < length (take (limit + 1) query))%nat
    = bool_decide (limit < length query)%nat.
Proof.
  assert ((limit < length (take (limit + 1) query))%nat
          ↔ (limit < length query)%nat) as Hmore
    by (rewrite length_take; lia).
  split; [|by apply bool_decide_ext].
  case_bool_decide as Hlen.
  - rewrite take_take. f_equal. lia.
  - rewrite Hmore in Hlen. rewrite !take_ge by lia. done.
Qed.

Lemma filter_none {A : Type} (P : A → Prop) `{!∀ x, Decision (P x)} (l : list A) :
  (∀ x, x ∈ l → ¬ P x) → filter P l = [].
Proof.
  induction l as [|a l IH]; [done|]. intros Hl.
  rewrite filter_cons_False by (apply Hl; left).
  apply IH. intros x Hx. apply Hl. by right.
Qed.

Lemma filter_all {A : Type} (P : A → Prop) `{!∀ x, Decision (P x)} (l : list A) :
  (∀ x, x ∈ l → P x) → filter P l = l.
Proof.
  induction l as [|a l IH]; [done|]. intros Hl.
  rewrite filter_cons_True by (apply Hl; left).
  f_equal. apply IH. intros x Hx. apply Hl. by right.
Qed.

(** In an ascending list without repetition, what follows the first [n]
    elements is what is greater than the [n]-th. *)
Lemma sorted_drop_filter (l : list Z) (n : nat) (x : Z) :
  StronglySorted Z.le l → NoDup l → last (take n l) = Some x →
  drop n l = filter (λ id, x < id) l.
Proof.
  intros Hsorted Hnd Hlast. apply last_Some in Hlast as [front Hfront].
  rewrite <- (take_drop n l) in Hsorted, Hnd. rewrite Hfront in Hsorted, Hnd.
  rewrite <- (take_drop n l) at 2. rewrite Hfront.
  apply StronglySorted_app in Hsorted as (Hcross & Hhead & _).
  apply StronglySorted_app in Hhead as (Hfront_le & _ & _).
  apply NoDup_app in Hnd as (_ & Hdisjoint & _).
  rewrite !filter_app.
  rewrite (filter_none _ front), (filter_none _ [x]), (filter_all _ (drop n l)).
  - done.
  - intros z Hz.
    assert (x ≤ z) by (apply Hcross; [apply elem_of_app; right; by left | done]).
    assert (x ≠ z).
    { intros ->. apply (Hdisjoint z); [apply elem_of_app; right; by left | done]. }
    lia.
  - intros z Hz. apply list_elem_of_singleton in Hz as ->. lia.
  - intros z Hz. assert (z ≤ x) by (apply Hfront_le; [done | by left]). lia.
Qed.

Lemma linked_ids_elem c (rows : list CompanyCollectionAssociation) id :
  id ∈ company_id <$> filter (in_collection c) rows
  ↔ {| company_id := id; collection_id := Some c |} ∈ rows.
Proof. by rewrite <- collection_ids_elem, merge_sort_Permutation. Qed.

Lemma cursor_query_sorted companies c st cursor_id :
  StronglySorted Z.le (cursor_query companies c st cursor_id).
Proof. apply StronglySorted_merge_sort; apply _. Qed.

Lemma cursor_query_elem companies c st cursor_id id :
  id ∈ cursor_query companies c st cursor_id
  ↔ {| company_id := id; collection_id := Some c |} ∈ associations st
    ∧ id ∈ companies ∧ after_cursor cursor_id id.
Proof.
  unfold cursor_query, joined_ids. rewrite merge_sort_Permutation.
  destruct cursor_id as [x|]; simpl;
    rewrite !list_elem_of_filter, linked_ids_elem; tauto.
Qed.

Lemma cursor_query_step companies c st cursor_id n x :
  NoDup (joined_ids companies c st) →
  last (take n (cursor_query companies c st cursor_id)) = Some x →
  cursor_query companies c st (Some x)
  = drop n (cursor_query companies c st cursor_id).
Proof.
  intros Hnd Hlast.
  assert (NoDup (cursor_query companies c st cursor_id)) as Hnd_query.
  { unfold cursor_query. rewrite merge_sort_Permutation.
    destruct cursor_id; [by apply NoDup_filter | done]. }
  assert (after_cursor cursor_id x) as Hafter.
  { apply last_Some_elem_of in Hlast. apply elem_of_take in Hlast as (i & Hi & _).
    apply list_elem_of_lookup_2 in Hi. by apply cursor_query_elem in Hi as (_ & _ & ?). }
  pose proof (sorted_drop_filter _ n x (cursor_query_sorted companies c st cursor_id)
                Hnd_query Hlast) as Hdrop.
  apply StronglySorted_unique with (R := Z.le); try apply _.
  - apply cursor_query_sorted.
  - pose proof (cursor_query_sorted companies c st cursor_id) as Hsorted.
    rewrite <- (take_drop n (cursor_query companies c st cursor_id)) in Hsorted.
    by apply StronglySorted_app_1_r in Hsorted.
  - rewrite Hdrop. unfold cursor_query at 1. rewrite merge_sort_Permutation.
    unfold cursor_query. rewrite merge_sort_Permutation.
    destruct cursor_id as [y|]; [|done].
    rewrite list_filter_filter_l; [done|]. simpl in Hafter. intros id ?. lia.
Qed.

Lemma get_collection_companies_cursor_page py_int py_str companies c cursor
    limit st name cursor_id :
  company_collections st !! c = Some name →
  read_cursor py_int cursor = Some cursor_id →
  get_collection_companies_cursor py_int py_str companies c cursor limit st
  = Ok {| page_company_ids := take limit (cursor_query companies c st cursor_id);
          next_cursor :=
            if bool_decide (limit < length (cursor_query companies c st cursor_id))%nat
            then py_str <$> last (take limit (cursor_query companies c st cursor_id))
            else None;
          has_more :=
            bool_decide (limit < length (cursor_query companies c st cursor_id))%nat;
          page_total_count :=
            Z.of_nat (length (filter (in_collection c) (associations st))) |}.
Proof.
  intros Hc Hcur. unfold get_collection_companies_cursor. rewrite Hc, Hcur.
  cbv zeta.
  destruct (page_cut (cursor_query companies c st cursor_id) limit) as [Hcut Hmore].
  by rewrite Hcut, Hmore.
Qed.

(** A page of [get_collection_companies_cursor], for a collection that
    exists and a cursor that is absent, empty or parses: it has at most
    [limit] ids, in ascending order, each the id of a company linked to the
    collection and greater than the cursor; when has_more is set the page is
    full, and when it is not the page holds every such id and there is no
    next cursor. *)
Theorem cursor_page_is_sound py_int py_str companies c cursor limit st name
    cursor_id :
  company_collections st !! c = Some name →
  read_cursor py_int cursor = Some cursor_id →
  ∃ page,
    get_collection_companies_cursor py_int py_str companies c cursor limit st
    = Ok page
    ∧ (length (page_company_ids page) ≤ limit)%nat
    ∧ StronglySorted Z.le (page_company_ids page)
    ∧ (∀ id, id ∈ page_company_ids page →
         {| company_id := id; collection_id := Some c |} ∈ associations st
         ∧ id ∈ companies ∧ after_cursor cursor_id id)
    ∧ (has_more page = true → length (page_company_ids page) = limit)
    ∧ (has_more page = false →
         next_cursor page = None
         ∧ ∀ id, {| company_id := id; collection_id := Some c |} ∈ associations st →
                 id ∈ companies → after_cursor cursor_id id →
                 id ∈ page_company_ids page).
Proof.
  intros Hc Hcur. eexists. split.
  { by apply get_collection_companies_cursor_page with (name := name). }
  simpl. set (query := cursor_query companies c st cursor_id).
  split; [|split; [|split; [|split]]].
  - rewrite length_take. lia.
  - pose proof (cursor_query_sorted companies c st cursor_id) as Hsorted.
    fold query in Hsorted. rewrite <- (take_drop limit query) in Hsorted.
    by apply StronglySorted_app_1_l in Hsorted.
  - intros id Hid. apply cursor_query_elem.
    apply elem_of_take in Hid as (i & Hi & _). by apply list_elem_of_lookup_2 in Hi.
  - intros Hmore%bool_decide_eq_true. rewrite length_take. lia.
  - intros Hmore%bool_decide_eq_false. rewrite bool_decide_eq_false_2 by done.
    split; [done|]. intros id Hrow Hcompany Hafter.
    rewrite take_ge by lia. by apply cursor_query_elem.
Qed.

Lemma cursor_page_is_sound_witness :
  ∃ page,
    get_collection_companies_cursor decimal_int decimal_str catalogue_companies
      2%N (Some "20"%string) 2 catalogue_store
    = Ok page
    ∧ (length (page_company_ids page) ≤ 2)%nat
    ∧ StronglySorted Z.le (page_company_ids page)
    ∧ (∀ id, id ∈ page_company_ids page →
         {| company_id := id; collection_id := Some 2%N |}
         ∈ associations catalogue_store
         ∧ id ∈ catalogue_companies ∧ after_cursor (Some 20) id)
    ∧ (has_more page = true → length (page_company_ids page) = 2%nat)
    ∧ (has_more page = false →
         next_cursor page = None
         ∧ ∀ id, {| company_id := id; collection_id := Some 2%N |}
                 ∈ associations catalogue_store →
                 id ∈ catalogue_companies → after_cursor (Some 20) id →
                 id ∈ page_company_ids page).
Proof.
  apply (cursor_page_is_sound decimal_int decimal_str catalogue_companies 2%N
           (Some "20"%string) 2 catalogue_store "Liked" (Some 20)).
  - reflexivity.
  - vm_compute. reflexivity.
Defined.

(** Following the cursor loses nothing and repeats nothing: when no company
    is linked twice to the collection and a page comes with a next cursor,
    the request with that cursor succeeds, and the two pages together are
    the first [limit + limit] ids of what the first request had to list; the
    second page has more exactly when that listing is longer.  [str] of a
    listed id is to be non-empty and read back by [int] as that id. *)
Theorem cursor_next_page_continues py_int py_str companies c cursor limit st
    name cursor_id page text :
  company_collections st !! c = Some name →
  read_cursor py_int cursor = Some cursor_id →
  NoDup (joined_ids companies c st) →
  get_collection_companies_cursor py_int py_str companies c cursor limit st
  = Ok page →
  Forall (λ id, py_str id ≠ ""%string ∧ py_int (py_str id) = Some id)
         (page_company_ids page) →
  next_cursor page = Some text →
  ∃ page',
    get_collection_companies_cursor py_int py_str companies c (Some text) limit st
    = Ok page'
    ∧ page_company_ids page ++ page_company_ids page'
      = take (limit + limit) (cursor_query companies c st cursor_id)
    ∧ (has_more page' = true
       ↔ (limit + limit < length (cursor_query companies c st cursor_id))%nat).
Proof.
  intros Hc Hcur Hnd Hpage Hpy Hnext.
  rewrite (get_collection_companies_cursor_page _ _ _ _ _ _ _ name cursor_id)
    in Hpage by done.
  injection Hpage as <-. simpl in *.
  set (query := cursor_query companies c st cursor_id) in *.
  case_bool_decide as Hmore; [|done].
  destruct (last (take limit query)) as [x|] eqn:Hlast; [|done].
  injection Hnext as <-.
  assert (py_str x ≠ ""%string ∧ py_int (py_str x) = Some x) as [Hne Hread].
  { rewrite Forall_forall in Hpy. apply Hpy. by apply last_Some_elem_of. }
  assert (read_cursor py_int (Some (py_str x)) = Some (Some x)) as Hcur'.
  { unfold read_cursor. rewrite bool_decide_eq_false_2 by done. by rewrite Hread. }
  eexists. split.
  { by apply get_collection_companies_cursor_page with (name := name). }
  simpl. rewrite (cursor_query_step companies c st cursor_id limit x Hnd Hlast).
  fold query. split.
  - apply take_take_drop.
  - rewrite bool_decide_eq_true, length_drop. lia.
Qed.

Lemma cursor_next_page_continues_witness :
  ∃ page',
    get_collection_companies_cursor decimal_int decimal_str catalogue_companies
      2%N (Some "20"%string) 2 catalogue_store
    = Ok page'
    ∧ [10; 20] ++ page_company_ids page'
      = take (2 + 2) (cursor_query catalogue_companies 2%N catalogue_store None)
    ∧ (has_more page' = true
       ↔ (2 + 2 < length (cursor_query catalogue_companies 2%N catalogue_store None))%nat).
Proof.
  apply (cursor_next_page_continues decimal_int decimal_str catalogue_companies
           2%N None 2 catalogue_store "Liked" None
           {| page_company_ids := [10; 20]; next_cursor := Some "20"%string;
              has_more := true; page_total_count := 5 |}
           "20").
  - reflexivity.
  - reflexivity.
  - refine (bool_decide_unpack _ _). vm_compute. exact I.
  - vm_compute. reflexivity.
  - refine (bool_decide_unpack _ _). vm_compute. exact I.
  - reflexivity.
Defined.

(* ===================================================================== *)
(** * 18. Jobs that cannot be picked up *)
(* ===================================================================== *)

Lemma exec_bind_abort {A B : Type} (m : Exec A) (k : A → Exec B) w x w1 :
  m w = (Abort x, w1) → exec_bind m k w = (Abort x, w1).
Proof. intros Hm. unfold exec_bind. by rewrite Hm. Qed.

Lemma pickup_fails E job_id st msg :
  fault E 0%nat = Some msg →
  try_block E job_id (new_session st)
  = (Abort (Raised {| raised_at := AtQueryJob; description := msg |}),
     arrive E (new_session st)).
Proof.
  intros Hfault. unfold try_block. apply exec_bind_abort.
  unfold query_job, db_op. change (clock (new_session st)) with 0%nat.
  by rewrite Hfault.
Qed.

(** When the first query of the task fails, the failure is not recorded:
    the name [job] is still unbound in the [except] branch, which therefore
    raises UnboundLocalError itself; the task ends with that exception,
    nothing is committed, the association table is as before, and the job
    row, unless somebody cancels it meanwhile, stays as it was. *)
Theorem pickup_failure_is_not_recorded E job_id st msg :
  fault E 0%nat = Some msg →
  let result := process_batch_job E job_id st in
  result.1 = Uncaught {| raised_at := AtHandler;
                         description := "UnboundLocalError" |}
  ∧ commits result.2 = []
  ∧ associations (db result.2) = associations st
  ∧ (job_id ∉ interference E 0%nat →
       batch_jobs (db result.2) !! job_id = batch_jobs st !! job_id).
Proof.
  intros Hfault result.
  assert (result
          = (Uncaught {| raised_at := AtHandler; description := "UnboundLocalError" |},
             close (arrive E (new_session st)))) as ->.
  { subst result. unfold process_batch_job.
    by rewrite (pickup_fails E job_id st msg Hfault). }
  simpl. split; [done|]. split; [done|]. split.
  - apply serve_cancels_associations.
  - apply serve_cancels_other.
Qed.

Lemma pickup_failure_is_not_recorded_witness :
  let result := process_batch_job fail_at_pickup 7%N pending_store in
  result.1 = Uncaught {| raised_at := AtHandler;
                         description := "UnboundLocalError" |}
  ∧ commits result.2 = []
  ∧ associations (db result.2) = associations pending_store
  ∧ (7%N ∉ interference fail_at_pickup 0%nat →
       batch_jobs (db result.2) !! 7%N = batch_jobs pending_store !! 7%N).
Proof.
  apply (pickup_failure_is_not_recorded fail_at_pickup 7%N pending_store
           "connection refused").
  reflexivity.
Defined.

(** What the task does when there is no row for the job. *)
Lemma pickup_missing E job_id st :
  batch_jobs st !! job_id = None →
  commits (process_batch_job E job_id st).2 = []
  ∧ associations (db (process_batch_job E job_id st).2) = associations st
  ∧ batch_jobs (db (process_batch_job E job_id st).2) !! job_id = None
  ∧ (fault E 0%nat = None → (process_batch_job E job_id st).1 = EarlyReturn).
Proof.
  intros Hrow.
  pose proof (serve_cancels_drift (interference E 0%nat) st) as (Hassoc & _ & Hjobs).
  specialize (Hjobs job_id). rewrite Hrow in Hjobs. simpl in Hjobs.
  destruct (fault E 0%nat) as [msg|] eqn:Hfault.
  - unfold process_batch_job. rewrite (pickup_fails E job_id st msg Hfault).
    simpl. by rewrite Hjobs, Hassoc.
  - assert (try_block E job_id (new_session st)
            = (Abort Returned, set_job_var None (arrive E (new_session st))))
      as Htry.
    { unfold try_block, exec_bind, query_job, db_op.
      change (clock (new_session st)) with 0%nat. rewrite Hfault.
      change (db (arrive E (new_session st)))
        with (serve_cancels (interference E 0%nat) st).
      by rewrite Hjobs. }
    unfold process_batch_job. rewrite Htry. simpl. by rewrite Hjobs, Hassoc.
Qed.

(** Deleting a collection erases its jobs: after [delete_collection]
    succeeded, a job that had the collection as source or target cannot be
    queried or cancelled any more (404), and the task, if it picks the job
    up afterwards, returns at once without committing anything or touching
    the association table. *)
Theorem job_of_deleted_collection_is_gone E c st msg st' job_id job :
  delete_collection c st = (Ok msg, st') →
  batch_jobs st !! job_id = Some job → refers_to c job →
  get_batch_job_status job_id st' = HTTPException 404 "Job not found"
  ∧ cancel_batch_job job_id st' = (HTTPException 404 "Job not found", st')
  ∧ commits (process_batch_job E job_id st').2 = []
  ∧ associations (db (process_batch_job E job_id st').2) = associations st'
  ∧ (fault E 0%nat = None → (process_batch_job E job_id st').1 = EarlyReturn).
Proof.
  intros Hdelete Hjob Hrefers.
  assert (batch_jobs st' !! job_id = None) as Hgone.
  { revert Hdelete. unfold delete_collection.
    destruct (company_collections st !! c) as [name|]; [|done].
    case_bool_decide; [done|]. intros [= <- <-]. simpl.
    apply map_lookup_filter_None. right. intros job' Hjob'. simpl.
    rewrite Hjob in Hjob'. injection Hjob' as <-. tauto. }
  destruct (pickup_missing E job_id st' Hgone) as (Hcommits & Hassoc & _ & Hreturn).
  unfold get_batch_job_status, cancel_batch_job. rewrite Hgone. done.
Qed.

Lemma job_of_deleted_collection_is_gone_witness :
  get_batch_job_status 7%N (delete_collection 2%N library_store).2
  = HTTPException 404 "Job not found"
  ∧ cancel_batch_job 7%N (delete_collection 2%N library_store).2
    = (HTTPException 404 "Job not found", (delete_collection 2%N library_store).2)
  ∧ commits (process_batch_job quiet 7%N (delete_collection 2%N library_store).2).2
    = []
  ∧ associations
      (db (process_batch_job quiet 7%N (delete_collection 2%N library_store).2).2)
    = associations (delete_collection 2%N library_store).2
  ∧ (fault quiet 0%nat = None →
       (process_batch_job quiet 7%N (delete_collection 2%N library_store).2).1
       = EarlyReturn).
Proof.
  apply (job_of_deleted_collection_is_gone quiet 2%N library_store
           "Collection 'Liked' deleted successfully"
           (delete_collection 2%N library_store).2 7%N
           (new_BatchJob ADD 1%N (Some 2%N) 2 [10; 11])).
  - vm_compute. reflexivity.
  - reflexivity.
  - right. reflexivity.
Defined.
